(** * realm-cli: the [push] and [app diff] commands

    A shallow embedding of [internal/commands/push] (Command.Handler,
    createNewApp, createNewDraft, diffDraft, deployDraftAndWait,
    commandString), of [internal/commands/app/diff.go] (diffInputs.Resolve,
    CommandDiff.Handler) and of the input resolution of [secrets create]
    (createInputs.Resolve).

    The commands are sequential programs that talk to three collaborators:
    the Realm client, the local file system helpers and the terminal UI.
    Every such call is recorded as an [event] (the call, its arguments and
    what came back); the collaborators ([RealmClient], [World], [UI]) give
    answers that may depend on everything that happened before.  A Go
    function body is a [Stmt]: a computation that either goes on to the next
    statement, returns from the function, or is still polling when its poll
    budget is used up. *)

From Stdlib Require Import String List Bool Arith Lia.
From ExtLib Require Import Structures.Monad.
Import ListNotations.
Import MonadNotation.
Local Open Scope string_scope.
Local Open Scope list_scope.
Local Open Scope monad_scope.

Set Implicit Arguments.

(** ** Data model *)

(** Go's [error] interface.  The commands inspect an error only through the
    type assertion [draftErr.(realm.ServerError)] and its [Code]. *)
Inductive error : Type :=
| ServerError (Code Message : string)
| errorString (s : string).

(** A Go result pair [(T, error)]: both components are always present. *)
Definition result (T : Type) : Type := (T * option error)%type.

(** [realm.DeploymentStatus].
    Modelled from the spec: the constants of package realm are not part of
    the sources at hand; a deployment status is one of Created, Pending,
    Successful, Failed. *)
Inductive DeploymentStatus : Type :=
| DeploymentStatusCreated
| DeploymentStatusPending
| DeploymentStatusSuccessful
| DeploymentStatusFailed.

Record to : Type := mkTo { GroupID : string; AppID : string }.

Record App : Type := mkApp {
  App_ID : string;
  App_GroupID : string;
  App_ClientAppID : string;
  App_Name : string }.

Record AppMeta : Type := mkAppMeta {
  Location : string;
  DeploymentModel : string }.

Record AppDraft : Type := mkAppDraft { Draft_ID : string }.

Record AppDeployment : Type := mkAppDeployment {
  Deployment_ID : string;
  Status : DeploymentStatus }.

(** [local.AppData] is held as [interface{}]; the three capability interfaces
    [namer], [locationer] and [deploymentModeler] are queried with type
    assertions.  A field is [Some v] when the value implements the interface
    and the method yields [v] (already through [.String()]); the rest of the
    configuration is carried as its serialized form. *)
Record AppData : Type := mkAppData {
  Name : option string;
  AppData_Location : option string;
  AppData_DeploymentModel : option string;
  Serialized : string }.

(** [local.App]: [AppData] may be nil. *)
Record LocalApp : Type := mkLocalApp {
  RootDir : string;
  LocalApp_AppData : option AppData }.

Record HostingAsset : Type := mkHostingAsset {
  FilePath : string;
  FileHash : string }.

Record Hosting : Type := mkHosting { Hosting_RootDir : string }.

(** [local.HostingDiffs].
    Modelled from the spec: the type is declared in package local, outside
    the sources at hand; a hosting diff is the three classes added, deleted
    and modified, and its size counts all three. *)
Record HostingDiffs : Type := mkHostingDiffs {
  Added : list HostingAsset;
  Deleted : list HostingAsset;
  Modified : list HostingAsset }.

Definition Size (d : HostingDiffs) : nat :=
  length (Added d) + length (Deleted d) + length (Modified d).

(** The zero value of [var hostingDiffs local.HostingDiffs]. *)
Definition zeroHostingDiffs : HostingDiffs := mkHostingDiffs [] [] [].

Record Dependencies : Type := mkDependencies { Dependencies_RootDir : string }.

(** A sub-diff of a draft: what [HasChanges()] and [DiffList()] answer. *)
Record SubDiff : Type := mkSubDiff {
  Sub_HasChanges : bool;
  Sub_DiffList : list string }.

(** [realm.AppDraftDiff], through the methods and fields diffDraft uses. *)
Record AppDraftDiff : Type := mkAppDraftDiff {
  HasChanges : bool;
  DiffList : list string;
  HostingFilesDiff : SubDiff;
  DependenciesDiff : SubDiff;
  GraphQLConfigDiff : SubDiff;
  SchemaOptionsDiff : SubDiff }.

(** [cli.ProjectInputs], which [app diff] turns into the filter handed to
    [cli.ResolveApp]. *)
Record ProjectInputs : Type := mkProjectInputs {
  PI_Project : string;
  PI_App : string }.

(** [terminal.Log] values, by the constructor that builds them. *)
Inductive Log : Type :=
| NewTextLog (format : string) (args : list string)
| NewFollowupLog (message : string) (items : list string)
| NewWarningLog (format : string) (args : list string)
| NewListLog (message : string) (items : list string).

(** The survey prompts handed to [ui.AskOne]. *)
Inductive Prompt : Type :=
| Input (Message Default : string)
| Select (Message : string) (Options : list string) (Default : string).

(** The inputs of [push]. *)
Record inputs : Type := mkInputs {
  AppDirectory : string;
  Project : string;
  To : string;
  AsNew : bool;
  DryRun : bool;
  IncludeDependencies : bool;
  IncludeHosting : bool;
  ResetCDNCache : bool }.

(** The inputs of [app diff]. *)
Record diffInputs : Type := mkDiffInputs {
  diff_AppDirectory : string;
  diff_IncludeDependencies : bool;
  diff_IncludeHosting : bool;
  diff_ProjectInputs : ProjectInputs }.

Record Profile : Type := mkProfile {
  WorkingDirectory : string;
  HostingAssetCachePath : string }.

(** ** Events: one collaborator call, with its arguments and its answer *)

Inductive event : Type :=
(* package local, cli and os *)
| EvLoadApp (dir : string) (r : result LocalApp)
| EvResolveTo (i : inputs) (r : result to)
| EvResolveGroupID (r : result string)
| EvResolveApp (filter : ProjectInputs) (r : result App)
| EvFindAppHosting (rootDir : string) (r : result Hosting)
| EvHostingDiffs (h : Hosting) (cachePath appID : string)
    (appAssets : list HostingAsset) (r : result HostingDiffs)
| EvFindAppDependencies (rootDir : string) (r : result Dependencies)
| EvPrepareUpload (d : Dependencies) (r : result string)
| EvWriteConfig (appDirectory : string) (app : App) (r : option error)
| EvRemove (path : string)
(* realm.Client *)
| EvCreateApp (groupID name : string) (meta : AppMeta) (r : result App)
| EvDiff (groupID appID : string) (appData : option AppData)
    (r : result (list string))
| EvHostingAssets (groupID appID : string) (r : result (list HostingAsset))
| EvCreateDraft (groupID appID : string) (r : result AppDraft)
| EvDraft (groupID appID : string) (r : result AppDraft)
| EvDiscardDraft (groupID appID draftID : string) (r : option error)
| EvDiffDraft (groupID appID draftID : string) (r : result AppDraftDiff)
| EvImport (groupID appID : string) (appData : option AppData)
    (r : option error)
| EvImportDependencies (groupID appID uploadPath : string) (r : option error)
| EvDeployDraft (groupID appID draftID : string) (r : result AppDeployment)
| EvDeployment (groupID appID deploymentID : string)
    (r : result AppDeployment)
| EvUploadHostingAssets (h : Hosting) (groupID appID : string)
    (d : HostingDiffs) (r : list error * option error)
| EvHostingCacheInvalidate (groupID appID path : string) (r : option error)
(* terminal.UI *)
| EvPrint (logs : list Log)
| EvConfirm (message : string) (r : result bool)
| EvAskOne (p : Prompt) (r : result string).

Definition history : Type := list event.

(** The collaborators.  Each answer may depend on the whole history of the
    run so far, so any deterministic server, file system and user fits.
    The fields are named as those of the test double [mock.RealmClient]. *)

(** [realm.Client]. *)
Record RealmClient : Type := mkRealmClient {
  CreateAppFn : history -> string -> string -> AppMeta -> result App;
  DiffFn : history -> string -> string -> option AppData ->
           result (list string);
  HostingAssetsFn : history -> string -> string ->
                    result (list HostingAsset);
  CreateDraftFn : history -> string -> string -> result AppDraft;
  DraftFn : history -> string -> string -> result AppDraft;
  DiscardDraftFn : history -> string -> string -> string -> option error;
  DiffDraftFn : history -> string -> string -> string ->
                result AppDraftDiff;
  ImportFn : history -> string -> string -> option AppData -> option error;
  ImportDependenciesFn : history -> string -> string -> string ->
                         option error;
  DeployDraftFn : history -> string -> string -> string ->
                  result AppDeployment;
  DeploymentFn : history -> string -> string -> string ->
                 result AppDeployment;
  HostingCacheInvalidateFn : history -> string -> string -> string ->
                             option error }.

Record Clients : Type := mkClients { Realm : RealmClient }.

(** [terminal.UI]: the configured auto-confirm flag and what the user
    answers when asked. *)
Record UI : Type := mkUI {
  AutoConfirmFn : bool;
  ConfirmFn : history -> string -> result bool;
  AskOneFn : history -> Prompt -> string -> result string }.

(** The helpers of packages local, cli and os, which act on the file system
    and on the session. *)
Record World : Type := mkWorld {
  LoadAppFn : history -> string -> result LocalApp;
  resolveToFn : history -> inputs -> result to;
  ResolveGroupIDFn : history -> result string;
  ResolveAppFn : history -> ProjectInputs -> result App;
  FindAppHostingFn : history -> string -> result Hosting;
  DiffsFn : history -> Hosting -> string -> string -> list HostingAsset ->
            result HostingDiffs;
  FindAppDependenciesFn : history -> string -> result Dependencies;
  PrepareUploadFn : history -> Dependencies -> result string;
  WriteConfigFn : history -> string -> App -> option error;
  UploadHostingAssetsFn : history -> Hosting -> string -> string ->
                          HostingDiffs -> list error * option error }.

(** Declarations of the packages realm, local and terminal that the commands
    use and that are not part of the sources at hand. *)
Record Pkg : Type := mkPkg {
  ErrCodeDraftAlreadyExists : string;
  LocationValues : list string;
  DeploymentModelValues : list string;
  MsgSuggestedCommands : string;
  Strings : HostingDiffs -> list string;
  ID : LocalApp -> string;
  Error : error -> string }.

(** ** Statements *)

Inductive flow (R A : Type) : Type :=
| Next (a : A)      (* the statement is done, control goes on *)
| Return (r : R)    (* the enclosing function has returned r *)
| Spin.             (* the poll budget is used up, the loop is still going *)

Arguments Next {R A} a.
Arguments Return {R A} r.
Arguments Spin {R A}.

(** A statement reads the history so far and yields how control leaves it,
    together with the events it added. *)
Definition Stmt (R A : Type) : Type := history -> flow R A * list event.

Definition next {R A} (a : A) : Stmt R A := fun _ => (Next a, []).

Definition return_ {R A} (r : R) : Stmt R A := fun _ => (Return r, []).

Definition spin {R A} : Stmt R A := fun _ => (Spin, []).

Definition seq {R A B} (m : Stmt R A) (k : A -> Stmt R B) : Stmt R B :=
  fun h =>
    match m h with
    | (Next a, d1) => let (f, d2) := k a (h ++ d1) in (f, d1 ++ d2)
    | (Return r, d1) => (Return r, d1)
    | (Spin, d1) => (Spin, d1)
    end.

#[export] Instance Monad_Stmt (R : Type) : Monad (Stmt R) :=
  {| ret := fun A => @next R A; bind := fun A B => @seq R A B |}.

(** Calling a function: its [return] ends the callee, not the caller. *)
Definition call {R R'} (body : Stmt R R) : Stmt R' R :=
  fun h =>
    match body h with
    | (Next r, d) => (Next r, d)
    | (Return r, d) => (Next r, d)
    | (Spin, d) => (Spin, d)
    end.

(** [defer cleanup]: the cleanup runs when the enclosing function returns,
    whatever the rest of the body does. *)
Definition defer {R A} (cleanup : Stmt R unit) (rest : Stmt R A) : Stmt R A :=
  fun h =>
    match rest h with
    | (Spin, d) => (Spin, d)
    | (f, d) => (f, d ++ snd (cleanup (h ++ d)))
    end.

(** One collaborator call: ask, and record the call with its answer. *)
Definition perform {R T} (answer : history -> T) (ev : T -> event)
  : Stmt R T :=
  fun h => let r := answer h in (Next r, [ev r]).

Definition skip {R} : Stmt R unit := next tt.

(** Running a whole function from a given history. *)
Definition run {R} (body : Stmt R R) (h : history) : option R * list event :=
  match body h with
  | (Next r, d) => (Some r, d)
  | (Return r, d) => (Some r, d)
  | (Spin, d) => (None, d)
  end.

Definition isNil {A} (o : option A) : bool :=
  match o with None => true | Some _ => false end.

(** The Go string that holds the one character [\n]. *)
Definition newline : string := "
".

(** [strings.Join]. *)
Definition Join (elems : list string) (sep : string) : string :=
  String.concat sep elems.

(** [for _, x := range xs { body x }] for a body that never returns. *)
Fixpoint forEach {R A} (xs : list A) (body : A -> Stmt R unit) : Stmt R unit :=
  match xs with
  | [] => skip
  | x :: xs' => body x ;; forEach xs' body
  end.

(** ** The collaborator calls as statements *)

Section Calls.
Context {R : Type}.

(* realm.Client *)
Definition CreateApp (c : RealmClient) (groupID name : string)
    (meta : AppMeta) : Stmt R (result App) :=
  perform (fun h => CreateAppFn c h groupID name meta)
          (EvCreateApp groupID name meta).

Definition Diff (c : RealmClient) (groupID appID : string)
    (appData : option AppData) : Stmt R (result (list string)) :=
  perform (fun h => DiffFn c h groupID appID appData)
          (EvDiff groupID appID appData).

Definition HostingAssets (c : RealmClient) (groupID appID : string)
  : Stmt R (result (list HostingAsset)) :=
  perform (fun h => HostingAssetsFn c h groupID appID)
          (EvHostingAssets groupID appID).

Definition CreateDraft (c : RealmClient) (groupID appID : string)
  : Stmt R (result AppDraft) :=
  perform (fun h => CreateDraftFn c h groupID appID)
          (EvCreateDraft groupID appID).

Definition Draft (c : RealmClient) (groupID appID : string)
  : Stmt R (result AppDraft) :=
  perform (fun h => DraftFn c h groupID appID) (EvDraft groupID appID).

Definition DiscardDraft (c : RealmClient) (groupID appID draftID : string)
  : Stmt R (option error) :=
  perform (fun h => DiscardDraftFn c h groupID appID draftID)
          (EvDiscardDraft groupID appID draftID).

Definition DiffDraft (c : RealmClient) (groupID appID draftID : string)
  : Stmt R (result AppDraftDiff) :=
  perform (fun h => DiffDraftFn c h groupID appID draftID)
          (EvDiffDraft groupID appID draftID).

Definition Import (c : RealmClient) (groupID appID : string)
    (appData : option AppData) : Stmt R (option error) :=
  perform (fun h => ImportFn c h groupID appID appData)
          (EvImport groupID appID appData).

Definition ImportDependencies (c : RealmClient)
    (groupID appID uploadPath : string) : Stmt R (option error) :=
  perform (fun h => ImportDependenciesFn c h groupID appID uploadPath)
          (EvImportDependencies groupID appID uploadPath).

Definition DeployDraft (c : RealmClient) (groupID appID draftID : string)
  : Stmt R (result AppDeployment) :=
  perform (fun h => DeployDraftFn c h groupID appID draftID)
          (EvDeployDraft groupID appID draftID).

Definition Deployment (c : RealmClient)
    (groupID appID deploymentID : string) : Stmt R (result AppDeployment) :=
  perform (fun h => DeploymentFn c h groupID appID deploymentID)
          (EvDeployment groupID appID deploymentID).

Definition HostingCacheInvalidate (c : RealmClient)
    (groupID appID path : string) : Stmt R (option error) :=
  perform (fun h => HostingCacheInvalidateFn c h groupID appID path)
          (EvHostingCacheInvalidate groupID appID path).

(* terminal.UI *)
Definition AutoConfirm (ui : UI) : bool := AutoConfirmFn ui.

Definition Print (ui : UI) (logs : list Log) : Stmt R unit :=
  fun _ => (Next tt, [EvPrint logs]).

(** [ui.Confirm].
    Modelled from the spec: package terminal is not part of the sources at
    hand.  Auto-confirm is the non-interactive mode where all yes/no
    decisions default to proceed; otherwise the user is asked. *)
Definition Confirm (ui : UI) (message : string) : Stmt R (result bool) :=
  if AutoConfirm ui then next (true, None)
  else perform (fun h => ConfirmFn ui h message) (EvConfirm message).

(** [ui.AskOne(&answer, prompt)]: the prompt is always shown; the first
    component is what the answer variable holds afterwards. *)
Definition AskOne (ui : UI) (answer : string) (p : Prompt)
  : Stmt R (result string) :=
  perform (fun h => AskOneFn ui h p answer) (EvAskOne p).

(* packages local, cli and os *)
Definition LoadApp (w : World) (dir : string) : Stmt R (result LocalApp) :=
  perform (fun h => LoadAppFn w h dir) (EvLoadApp dir).

Definition resolveTo (w : World) (i : inputs) : Stmt R (result to) :=
  perform (fun h => resolveToFn w h i) (EvResolveTo i).

Definition ResolveGroupID (w : World) : Stmt R (result string) :=
  perform (fun h => ResolveGroupIDFn w h) EvResolveGroupID.

Definition ResolveApp (w : World) (filter : ProjectInputs)
  : Stmt R (result App) :=
  perform (fun h => ResolveAppFn w h filter) (EvResolveApp filter).

Definition FindAppHosting (w : World) (rootDir : string)
  : Stmt R (result Hosting) :=
  perform (fun h => FindAppHostingFn w h rootDir) (EvFindAppHosting rootDir).

Definition Diffs (w : World) (hosting : Hosting) (cachePath appID : string)
    (appAssets : list HostingAsset) : Stmt R (result HostingDiffs) :=
  perform (fun h => DiffsFn w h hosting cachePath appID appAssets)
          (EvHostingDiffs hosting cachePath appID appAssets).

Definition FindAppDependencies (w : World) (rootDir : string)
  : Stmt R (result Dependencies) :=
  perform (fun h => FindAppDependenciesFn w h rootDir)
          (EvFindAppDependencies rootDir).

Definition PrepareUpload (w : World) (d : Dependencies)
  : Stmt R (result string) :=
  perform (fun h => PrepareUploadFn w h d) (EvPrepareUpload d).

Definition WriteConfig (w : World) (appDirectory : string) (app : App)
  : Stmt R (option error) :=
  perform (fun h => WriteConfigFn w h appDirectory app)
          (EvWriteConfig appDirectory app).

Definition Remove (path : string) : Stmt R unit :=
  fun _ => (Next tt, [EvRemove path]).

(** [hosting.UploadHostingAssets(client, groupID, appID, diffs, onErr)]:
    the helper hands every per-asset error to the callback and yields its
    own error. *)
Definition UploadHostingAssets (w : World) (hosting : Hosting)
    (groupID appID : string) (d : HostingDiffs)
    (errHandler : error -> Stmt R unit) : Stmt R (option error) :=
  '(assetErrs, err) <-
     perform (fun h => UploadHostingAssetsFn w h hosting groupID appID d)
             (EvUploadHostingAssets hosting groupID appID d) ;;
  forEach assetErrs errHandler ;;
  ret err.
End Calls.

(** ** Package push *)

Module push.

Record Command : Type := mkCommand { cmd_inputs : inputs }.

Definition zeroApp : App :=
  mkApp EmptyString EmptyString EmptyString EmptyString.

Definition zeroAppDraft : AppDraft := mkAppDraft EmptyString.

(** The loop condition of the poll:
    [Status == DeploymentStatusCreated || Status == DeploymentStatusPending]. *)
Definition inFlight (s : DeploymentStatus) : bool :=
  match s with
  | DeploymentStatusCreated | DeploymentStatusPending => true
  | _ => false
  end.

(** [err, ok := draftErr.(realm.ServerError);
     !ok || err.Code != realm.ErrCodeDraftAlreadyExists] *)
Definition notDraftAlreadyExists (pkg : Pkg) (draftErr : error) : bool :=
  match draftErr with
  | ServerError code _ => negb (code =? ErrCodeDraftAlreadyExists pkg)%string
  | errorString _ => true
  end.

Section Handlers.
Variable pkg : Pkg.
Variable w : World.

Definition commandString (cmd : Command) (omitDryRun : bool) : string :=
  let sb := "realm-cli push" in
  if DryRun (cmd_inputs cmd) && negb omitDryRun
  then (sb ++ " --dry-run")%string
  else sb.

Definition createNewApp (ui : UI) (realmClient : RealmClient)
    (appDirectory groupID : string) (appData : option AppData)
  : Stmt (App * bool * option error) (App * bool * option error) :=
  '(proceed, err) <- Confirm ui "Do you wish to create a new app?" ;;
  if negb (isNil err) then return_ (zeroApp, false, err) else
  if negb proceed then return_ (zeroApp, false, None) else
  let name :=
    match appData with
    | Some d => match Name d with Some n => n | None => EmptyString end
    | None => EmptyString
    end in
  let location :=
    match appData with
    | Some d =>
        match AppData_Location d with Some l => l | None => EmptyString end
    | None => EmptyString
    end in
  let deploymentModel :=
    match appData with
    | Some d =>
        match AppData_DeploymentModel d with
        | Some dm => dm
        | None => EmptyString
        end
    | None => EmptyString
    end in
  name <-
    (if (name =? EmptyString)%string || negb (AutoConfirm ui) then
       '(name, err) <- AskOne ui name (Input "App Name" name) ;;
       if negb (isNil err) then return_ (zeroApp, false, err) else ret name
     else ret name) ;;
  location <-
    (if negb (AutoConfirm ui) then
       '(location, err) <-
          AskOne ui location
            (Select "App Location" (LocationValues pkg) location) ;;
       if negb (isNil err) then return_ (zeroApp, false, err)
       else ret location
     else ret location) ;;
  deploymentModel <-
    (if negb (AutoConfirm ui) then
       '(deploymentModel, err) <-
          AskOne ui deploymentModel
            (Select "App Deployment Model" (DeploymentModelValues pkg)
                    deploymentModel) ;;
       if negb (isNil err) then return_ (zeroApp, false, err)
       else ret deploymentModel
     else ret deploymentModel) ;;
  '(app, err) <-
     CreateApp realmClient groupID name
       (mkAppMeta location deploymentModel) ;;
  if negb (isNil err) then return_ (zeroApp, false, err) else
  err <- WriteConfig w appDirectory app ;;
  if negb (isNil err) then return_ (zeroApp, false, err) else
  return_ (app, true, None).

Definition diffDraft (ui : UI) (realmClient : RealmClient) (to : to)
    (draftID : string) : Stmt (option error) (option error) :=
  '(diff, diffErr) <-
     DiffDraft realmClient (GroupID to) (AppID to) draftID ;;
  if negb (isNil diffErr) then return_ diffErr else
  let logs :=
    if negb (HasChanges diff) then
      [NewTextLog "An empty draft already exists for your app" []]
    else
      [NewListLog "The following draft already exists for your app..."
                  (DiffList diff)]
      ++ (if Sub_HasChanges (HostingFilesDiff diff) then
            [NewListLog "With changes to your static hosting files..."
                        (Sub_DiffList (HostingFilesDiff diff))]
          else [])
      ++ (if Sub_HasChanges (DependenciesDiff diff) then
            [NewListLog "With changes to your app dependencies..."
                        (Sub_DiffList (DependenciesDiff diff))]
          else [])
      ++ (if Sub_HasChanges (GraphQLConfigDiff diff) then
            [NewListLog "With changes to your GraphQL configuration..."
                        (Sub_DiffList (GraphQLConfigDiff diff))]
          else [])
      ++ (if Sub_HasChanges (SchemaOptionsDiff diff) then
            [NewListLog "With changes to your app schema..."
                        (Sub_DiffList (SchemaOptionsDiff diff))]
          else []) in
  Print ui logs ;;
  return_ None.

Definition createNewDraft (ui : UI) (realmClient : RealmClient) (to : to)
  : Stmt (AppDraft * bool * option error) (AppDraft * bool * option error) :=
  '(draft, draftErr) <- CreateDraft realmClient (GroupID to) (AppID to) ;;
  match draftErr with
  | None => return_ (draft, true, None)
  | Some err =>
      if notDraftAlreadyExists pkg err
      then return_ (zeroAppDraft, false, draftErr) else
      '(existingDraft, existingDraftErr) <-
         Draft realmClient (GroupID to) (AppID to) ;;
      if negb (isNil existingDraftErr)
      then return_ (zeroAppDraft, false, existingDraftErr) else
      (if negb (AutoConfirm ui) then
         err <- call (diffDraft ui realmClient to (Draft_ID existingDraft)) ;;
         if negb (isNil err) then return_ (zeroAppDraft, false, err) else
         '(proceed, proceedErr) <-
            Confirm ui "Would you like to discard this draft?" ;;
         if negb (isNil proceedErr)
         then return_ (zeroAppDraft, false, proceedErr) else
         if negb proceed then return_ (zeroAppDraft, false, None) else skip
       else skip) ;;
      err <- DiscardDraft realmClient (GroupID to) (AppID to)
                          (Draft_ID existingDraft) ;;
      if negb (isNil err) then return_ (zeroAppDraft, false, err) else
      '(draft, draftErr) <-
         CreateDraft realmClient (GroupID to) (AppID to) ;;
      return_ (draft, true, draftErr)
  end.

(** The closure [waitForDeployment] of deployDraftAndWait; [deployment] is
    the captured variable the loop tests and overwrites.  [fuel] bounds the
    number of polls ([time.Sleep] between them is not modelled); the
    spinner is presentation only. *)
Fixpoint waitForDeployment (fuel : nat) (ui : UI) (realmClient : RealmClient)
    (to : to) (draftID : string) (deployment : AppDeployment)
  : Stmt (option error) (option error) :=
  if inFlight (Status deployment) then
    match fuel with
    | O => spin
    | S fuel' =>
        '(deployment, err) <-
           Deployment realmClient (GroupID to) (AppID to)
                      (Deployment_ID deployment) ;;
        if negb (isNil err) then
          e <- DiscardDraft realmClient (GroupID to) (AppID to) draftID ;;
          (if negb (isNil e) then
             Print ui
               [NewWarningLog
                  "Failed to discard the draft created for your deployment"
                  []]
           else skip) ;;
          return_ err
        else waitForDeployment fuel' ui realmClient to draftID deployment
    end
  else return_ None.

Definition deployDraftAndWait (fuel : nat) (ui : UI)
    (realmClient : RealmClient) (to : to) (draftID : string)
  : Stmt (option error) (option error) :=
  '(deployment, err) <-
     DeployDraft realmClient (GroupID to) (AppID to) draftID ;;
  if negb (isNil err) then return_ err else
  err <- call (waitForDeployment fuel ui realmClient to draftID deployment) ;;
  if negb (isNil err) then return_ err else
  Print ui [NewTextLog "Deployment complete" []] ;;
  return_ None.
(** [Command.Handler].  The spinners are presentation only.  The deferred
    [os.Remove(uploadPath)] runs when the handler returns, so everything
    after the [defer] statement is its scope. *)
Definition Handler (fuel : nat) (cmd : Command) (profile : Profile)
    (ui : UI) (clients : Clients) : Stmt (option error) (option error) :=
  '(app, err) <- LoadApp w (AppDirectory (cmd_inputs cmd)) ;;
  if negb (isNil err) then return_ err else
  '(to, err) <- resolveTo w (cmd_inputs cmd) ;;
  if negb (isNil err) then return_ err else
  to <-
    (if (GroupID to =? EmptyString)%string then
       '(groupID, err) <- ResolveGroupID w ;;
       if negb (isNil err) then return_ err
       else ret (mkTo groupID (AppID to))
     else ret to) ;;
  '(to, isNewApp) <-
    (if (AppID to =? EmptyString)%string then
       if DryRun (cmd_inputs cmd) then
         Print ui
           [NewTextLog
              "This is a new app. To create a new app, you must omit the 'dry-run' flag to proceed"
              [];
            NewFollowupLog (MsgSuggestedCommands pkg)
                           [commandString cmd true]] ;;
         return_ None
       else
         '(app, proceed, err) <-
            call (createNewApp ui (Realm clients)
                    (AppDirectory (cmd_inputs cmd)) (GroupID to)
                    (LocalApp_AppData app)) ;;
         if negb (isNil err) then return_ err else
         if negb proceed then return_ None else
         ret (mkTo (GroupID to) (App_ID app), true)
     else ret (to, false)) ;;
  Print ui [NewTextLog "Determining changes" []] ;;
  '(appDiffs, err) <-
     Diff (Realm clients) (GroupID to) (AppID to) (LocalApp_AppData app) ;;
  if negb (isNil err) then return_ err else
  '(hosting, err) <- FindAppHosting w (RootDir app) ;;
  if negb (isNil err) then return_ err else
  hostingDiffs <-
    (if IncludeHosting (cmd_inputs cmd) then
       '(appAssets, err) <-
          HostingAssets (Realm clients) (GroupID to) (AppID to) ;;
       if negb (isNil err) then return_ err else
       '(hostingDiffs, err) <-
          Diffs w hosting (HostingAssetCachePath profile) (AppID to)
                appAssets ;;
       if negb (isNil err) then return_ err else ret hostingDiffs
     else ret zeroHostingDiffs) ;;
  if (length appDiffs =? 0)%nat
     && negb (IncludeDependencies (cmd_inputs cmd))
     && (Size hostingDiffs =? 0)%nat
  then
    Print ui
      [NewTextLog
         "Deployed app is identical to proposed version, nothing to do"
         []] ;;
    return_ None
  else
  (if negb (AutoConfirm ui) && negb isNewApp then
     let diffs := [] in
     let diffs := diffs ++ appDiffs in
     let diffs :=
       if IncludeDependencies (cmd_inputs cmd)
       then diffs ++ ["+ New function dependencies"]
       else diffs in
     let diffs := diffs ++ Strings pkg hostingDiffs in
     Print ui
       [NewTextLog
          "The following reflects the proposed changes to your Realm app
%s"
          [Join diffs newline]]
   else skip) ;;
  if DryRun (cmd_inputs cmd) then
    Print ui
      [NewTextLog
         "To push these changes, you must omit the 'dry-run' flag to proceed"
         [];
       NewFollowupLog (MsgSuggestedCommands pkg) [commandString cmd true]] ;;
    return_ None
  else
  '(proceed, err) <- Confirm ui "Please confirm the changes shown above" ;;
  if negb (isNil err) then return_ err else
  if negb proceed then return_ None else
  Print ui [NewTextLog "Creating draft" []] ;;
  '(draft, proceed, err) <- call (createNewDraft ui (Realm clients) to) ;;
  if negb (isNil err) then return_ err else
  if negb proceed then return_ None else
  Print ui [NewTextLog "Pushing changes" []] ;;
  err <- Import (Realm clients) (GroupID to) (AppID to)
                (LocalApp_AppData app) ;;
  if negb (isNil err) then return_ err else
  Print ui [NewTextLog "Deploying draft" []] ;;
  err <- call (deployDraftAndWait fuel ui (Realm clients) to
                                  (Draft_ID draft)) ;;
  if negb (isNil err) then return_ err else
  let afterDependencies : Stmt (option error) (option error) :=
    (if IncludeHosting (cmd_inputs cmd) then
       err <- UploadHostingAssets w hosting (GroupID to) (AppID to)
                hostingDiffs
                (fun err => Print ui [NewWarningLog (Error pkg err) []]) ;;
       if negb (isNil err) then return_ err else
       Print ui [NewTextLog "Import hosting assets" []] ;;
       (if ResetCDNCache (cmd_inputs cmd) then
          err <- HostingCacheInvalidate (Realm clients) (GroupID to)
                                        (AppID to) "/*" ;;
          if negb (isNil err) then return_ err else
          Print ui [NewTextLog "Reset CDN cache" []]
        else skip)
     else skip) ;;
    Print ui [NewTextLog "Successfully pushed app up: %s" [ID pkg app]] ;;
    return_ None in
  if IncludeDependencies (cmd_inputs cmd) then
    '(dependencies, err) <- FindAppDependencies w (RootDir app) ;;
    if negb (isNil err) then return_ err else
    '(uploadPath, err) <-
       call ('(path, err) <- PrepareUpload w dependencies ;;
             if negb (isNil err) then return_ (EmptyString, err) else
             Print ui [NewTextLog "Transpiled dependency sources" []] ;;
             return_ (path, None)) ;;
    if negb (isNil err) then return_ err else
    defer (Remove uploadPath)
      (err <- ImportDependencies (Realm clients) (GroupID to) (AppID to)
                                 uploadPath ;;
       if negb (isNil err) then return_ err else
       Print ui [NewTextLog "Uploaded dependencies archive" []] ;;
       afterDependencies)
  else afterDependencies.
End Handlers.

End push.

(** ** Package app: the [app diff] command *)

Module app.

Record CommandDiff : Type := mkCommandDiff { cmd_inputs : diffInputs }.

Section Handlers.
Variable pkg : Pkg.
Variable w : World.

(** [CommandDiff.Handler]. *)
Definition Handler (cmd : CommandDiff) (profile : Profile) (ui : UI)
    (clients : Clients) : Stmt (option error) (option error) :=
  '(app, err) <- LoadApp w (diff_AppDirectory (cmd_inputs cmd)) ;;
  if negb (isNil err) then return_ err else
  '(appToDiff, err) <- ResolveApp w (diff_ProjectInputs (cmd_inputs cmd)) ;;
  if negb (isNil err) then return_ err else
  '(diffs, err) <-
     Diff (Realm clients) (App_GroupID appToDiff) (App_ID appToDiff)
          (LocalApp_AppData app) ;;
  if negb (isNil err) then return_ err else
  let diffs :=
    if diff_IncludeDependencies (cmd_inputs cmd)
    then diffs ++ ["+ New function dependencies"]
    else diffs in
  diffs <-
    (if diff_IncludeHosting (cmd_inputs cmd) then
       '(hosting, err) <- FindAppHosting w (RootDir app) ;;
       if negb (isNil err) then return_ err else
       '(appAssets, err) <-
          HostingAssets (Realm clients) (App_GroupID appToDiff)
                        (App_ID appToDiff) ;;
       if negb (isNil err) then return_ err else
       '(hostingDiffs, err) <-
          Diffs w hosting (HostingAssetCachePath profile)
                (App_ID appToDiff) appAssets ;;
       if negb (isNil err) then return_ err else
       ret (diffs ++ Strings pkg hostingDiffs)
     else ret diffs) ;;
  if (length diffs =? 0)%nat then
    Print ui
      [NewTextLog "Deployed app is identical to proposed version" []] ;;
    return_ None
  else
  Print ui
    [NewTextLog
       "The following reflects the proposed changes to your Realm app
%s"
       [Join diffs newline]] ;;
  return_ None.
End Handlers.

End app.

(** ** Reading a trace *)

Definition isDiscardDraft (e : event) : bool :=
  match e with EvDiscardDraft _ _ _ _ => true | _ => false end.

Definition isCreateDraft (e : event) : bool :=
  match e with EvCreateDraft _ _ _ => true | _ => false end.

(** A status re-fetch: the [Deployment] call of the poll loop. *)
Definition isRefetch (e : event) : bool :=
  match e with EvDeployment _ _ _ _ => true | _ => false end.

Definition count (f : event -> bool) (tr : list event) : nat :=
  length (filter f tr).

(** The deployment statuses the run got to see, in order. *)
Definition observed (tr : list event) : list DeploymentStatus :=
  flat_map (fun e =>
              match e with
              | EvDeployDraft _ _ _ (d, None) => [Status d]
              | EvDeployment _ _ _ (d, None) => [Status d]
              | _ => []
              end) tr.

Definition discardWarning : event :=
  EvPrint
    [NewWarningLog "Failed to discard the draft created for your deployment"
                   []].

Definition deploymentComplete : event :=
  EvPrint [NewTextLog "Deployment complete" []].

(** [polled to dep oks last]: starting from the deployment [dep], the
    re-fetches [oks] all succeeded, each was issued while the deployment at
    hand was still in flight, and [last] is the deployment at hand after
    them. *)
Inductive polled (to : to) : AppDeployment -> list event -> AppDeployment -> Prop :=
| polled_nil dep : polled to dep [] dep
| polled_cons dep dep' oks last :
    push.inFlight (Status dep) = true ->
    polled to dep' oks last ->
    polled to dep
      (EvDeployment (GroupID to) (AppID to) (Deployment_ID dep) (dep', None)
       :: oks) last.

(** What [deployDraftAndWait] hands back, and the events of the run. *)
Inductive deployed (to : to) (draftID : string)
  : option (option error) -> list event -> Prop :=
| deployed_submit_failed dep e :
    deployed to draftID (Some (Some e))
      [EvDeployDraft (GroupID to) (AppID to) draftID (dep, Some e)]
| deployed_done dep0 oks last :
    polled to dep0 oks last ->
    push.inFlight (Status last) = false ->
    deployed to draftID (Some None)
      (EvDeployDraft (GroupID to) (AppID to) draftID (dep0, None)
       :: oks ++ [deploymentComplete])
| deployed_polling dep0 oks last :
    polled to dep0 oks last ->
    push.inFlight (Status last) = true ->
    deployed to draftID None
      (EvDeployDraft (GroupID to) (AppID to) draftID (dep0, None) :: oks)
| deployed_refetch_failed dep0 oks last dep' e de :
    polled to dep0 oks last ->
    push.inFlight (Status last) = true ->
    deployed to draftID (Some (Some e))
      (EvDeployDraft (GroupID to) (AppID to) draftID (dep0, None)
       :: oks
       ++ [EvDeployment (GroupID to) (AppID to) (Deployment_ID last)
             (dep', Some e);
           EvDiscardDraft (GroupID to) (AppID to) draftID de]
       ++ (if isNil de then [] else [discardWarning])).

(** ** Test doubles *)

Module mock.

Definition to0 : to := mkTo "group" "app".

Definition pkg : Pkg :=
  mkPkg "DraftAlreadyExists" ["US-VA"; "IE"] ["GLOBAL"; "LOCAL"]
        "Try running the following command(s)"
        (fun d => map FilePath (Added d ++ Deleted d ++ Modified d))
        (fun app => RootDir app)
        (fun e => match e with ServerError _ m => m | errorString s => s end).

(** How many calls of one kind the history holds. *)
Definition seen (f : event -> bool) (h : history) : nat := length (filter f h).

Definition zeroDeployment : AppDeployment :=
  mkAppDeployment EmptyString DeploymentStatusCreated.

(** A client that answers from scripts: the n-th [CreateDraft] and the n-th
    [Deployment] call get the n-th entry of their script. *)
Definition RealmClient (diff : result (list string))
    (createDraft : list (result AppDraft)) (discardDraft : option error)
    (imp : option error) (deployDraft : result AppDeployment)
    (deployment : list (result AppDeployment)) : RealmClient :=
  {| CreateAppFn := fun _ groupID name _ =>
       (mkApp "new-app" groupID name name, None);
     DiffFn := fun _ _ _ _ => diff;
     HostingAssetsFn := fun _ _ _ => ([], None);
     CreateDraftFn := fun h _ _ =>
       nth (seen isCreateDraft h) createDraft (push.zeroAppDraft, None);
     DraftFn := fun _ _ _ => (mkAppDraft "existing", None);
     DiscardDraftFn := fun _ _ _ _ => discardDraft;
     DiffDraftFn := fun _ _ _ _ =>
       (mkAppDraftDiff false [] (mkSubDiff false []) (mkSubDiff false [])
                       (mkSubDiff false []) (mkSubDiff false []), None);
     ImportFn := fun _ _ _ _ => imp;
     ImportDependenciesFn := fun _ _ _ _ => None;
     DeployDraftFn := fun _ _ _ _ => deployDraft;
     DeploymentFn := fun h _ _ _ =>
       nth (seen isRefetch h) deployment (zeroDeployment, None);
     HostingCacheInvalidateFn := fun _ _ _ _ => None |}.

(** A user who gives the same answers throughout. *)
Definition UI (autoConfirm : bool) (confirm : bool) (answer : string) : UI :=
  {| AutoConfirmFn := autoConfirm;
     ConfirmFn := fun _ _ => (confirm, None);
     AskOneFn := fun _ _ _ => (answer, None) |}.

(** A working directory holding [app], pushed to [to]. *)
Definition World (app : LocalApp) (to : to) (hostingDiffs : HostingDiffs)
  : World :=
  {| LoadAppFn := fun _ _ => (app, None);
     resolveToFn := fun _ _ => (to, None);
     ResolveGroupIDFn := fun _ => ("group", None);
     ResolveAppFn := fun _ _ =>
       (mkApp (AppID to) (GroupID to) "client-app" "app", None);
     FindAppHostingFn := fun _ rootDir => (mkHosting rootDir, None);
     DiffsFn := fun _ _ _ _ _ => (hostingDiffs, None);
     FindAppDependenciesFn := fun _ rootDir => (mkDependencies rootDir, None);
     PrepareUploadFn := fun _ _ => ("node_modules.zip", None);
     WriteConfigFn := fun _ _ _ => None;
     UploadHostingAssetsFn := fun _ _ _ _ _ => ([], None) |}.

Definition deployment (id : string) (s : DeploymentStatus)
  : result AppDeployment :=
  (mkAppDeployment id s, None).

End mock.

(** Concrete runs of the poll. *)
Module runs.

Definition timeout : error := errorString "context deadline exceeded".

Definition gone : error := ServerError "DraftNotFound" "draft not found".

(** The second re-fetch fails, and so does the discard. *)
Definition refetchFails : option (option error) * list event :=
  run (push.deployDraftAndWait 5 (mock.UI false true "app")
         (mock.RealmClient ([], None) [] (Some gone) None
            (mock.deployment "dep-1" DeploymentStatusCreated)
            [mock.deployment "dep-1" DeploymentStatusPending;
             (mock.zeroDeployment, Some timeout)])
         mock.to0 "draft-1") [].

(** The deployment is reported Failed by the first re-fetch. *)
Definition deploymentFails : option (option error) * list event :=
  run (push.deployDraftAndWait 5 (mock.UI false true "app")
         (mock.RealmClient ([], None) [] None None
            (mock.deployment "dep-1" DeploymentStatusCreated)
            [mock.deployment "dep-1" DeploymentStatusFailed])
         mock.to0 "draft-1") [].

(** The deployment is reported Successful by the first re-fetch. *)
Definition deploymentSucceeds : option (option error) * list event :=
  run (push.deployDraftAndWait 5 (mock.UI false true "app")
         (mock.RealmClient ([], None) [] None None
            (mock.deployment "dep-1" DeploymentStatusCreated)
            [mock.deployment "dep-1" DeploymentStatusSuccessful])
         mock.to0 "draft-1") [].

(** Created, Pending, Pending, Successful. *)
Definition fourStatuses : RealmClient :=
  mock.RealmClient ([], None) [] None None
    (mock.deployment "dep-1" DeploymentStatusCreated)
    [mock.deployment "dep-1" DeploymentStatusPending;
     mock.deployment "dep-1" DeploymentStatusPending;
     mock.deployment "dep-1" DeploymentStatusSuccessful].

(** The first CreateDraft meets an existing draft, the second succeeds;
    auto-confirm is on, so the existing draft is discarded without asking. *)
Definition conflict : error :=
  ServerError "DraftAlreadyExists" "a draft already exists".

Definition conflictClient : RealmClient :=
  mock.RealmClient ([], None)
    [(push.zeroAppDraft, Some conflict); (mkAppDraft "draft-2", None)]
    None None (mock.deployment "dep-1" DeploymentStatusSuccessful) [].

Definition conflictRecovered
  : option (AppDraft * bool * option error) * list event :=
  run (push.createNewDraft mock.pkg (mock.UI true true "app") conflictClient
         mock.to0) [].

(** A push of a local app without a name to a project where it does not
    exist yet, in auto-confirm mode. *)
Definition unnamedApp : LocalApp :=
  mkLocalApp "." (Some (mkAppData None (Some "US-VA") (Some "GLOBAL") "{}")).

Definition unnamedWorld : World :=
  mock.World unnamedApp (mkTo "group" EmptyString) zeroHostingDiffs.

Definition plainPush : push.Command :=
  push.mkCommand (mkInputs "." "project" "app" false false false false false).

Definition profile : Profile := mkProfile "." ".cache".

Definition autoUI : UI := mock.UI true true "typed-name".

Definition oneChange : Clients :=
  mkClients
    (mock.RealmClient (["+ functions/f.js"], None)
       [(mkAppDraft "draft-1", None)] None None
       (mock.deployment "dep-1" DeploymentStatusSuccessful) []).

Definition pushUnnamed : option (option error) * list event :=
  run (push.Handler mock.pkg unnamedWorld 5 plainPush profile autoUI
         oneChange) [].

(** createNewApp for local app data that carries a name, in auto-confirm
    mode. *)
Definition namedData : AppData :=
  mkAppData (Some "eggcorn") (Some "US-VA") (Some "GLOBAL") "{}".

Definition createNamed : option (App * bool * option error) * list event :=
  run (push.createNewApp mock.pkg unnamedWorld autoUI (Realm oneChange) "."
         "group" (Some namedData)) [].

(** Pushes of an app that exists on the server. *)
Definition existingApp : LocalApp := mkLocalApp "." (Some namedData).

Definition existingWorld : World :=
  mock.World existingApp mock.to0 zeroHostingDiffs.

Definition noChange : Clients :=
  mkClients
    (mock.RealmClient ([], None) [(mkAppDraft "draft-1", None)] None None
       (mock.deployment "dep-1" DeploymentStatusSuccessful) []).

Definition pushIdentical : option (option error) * list event :=
  run (push.Handler mock.pkg existingWorld 5 plainPush profile autoUI
         noChange) [].

Definition dryPush : push.Command :=
  push.mkCommand (mkInputs "." "project" "app" false true true true false).

Definition askingUI : UI := mock.UI false true "typed-name".

Definition pushDry : option (option error) * list event :=
  run (push.Handler mock.pkg existingWorld 5 dryPush profile askingUI
         oneChange) [].

Definition decliningUI : UI := mock.UI false false "typed-name".

(** The user declines the changes. *)
Definition pushDeclined : option (option error) * list event :=
  run (push.Handler mock.pkg existingWorld 5 plainPush profile decliningUI
         oneChange) [].

(** The user confirms the changes. *)
Definition pushConfirmed : option (option error) * list event :=
  run (push.Handler mock.pkg existingWorld 5 plainPush profile askingUI
         oneChange) [].

(** A push and a diff with the dependency flag. *)
Definition dependencyPush : push.Command :=
  push.mkCommand (mkInputs "." "project" "app" false false true false false).

Definition pushDependencies : option (option error) * list event :=
  run (push.Handler mock.pkg existingWorld 5 dependencyPush profile askingUI
         oneChange) [].

Definition dependencyDiff : app.CommandDiff :=
  app.mkCommandDiff
    (mkDiffInputs "." true false (mkProjectInputs "project" "app")).

Definition diffDependencies : option (option error) * list event :=
  run (app.Handler mock.pkg existingWorld dependencyDiff profile askingUI
         oneChange) [].

(** The server refuses the import of the app. *)
Definition refused : error :=
  ServerError "InvalidParameter" "invalid app configuration".

Definition importFails : Clients :=
  mkClients
    (mock.RealmClient (["+ functions/f.js"], None)
       [(mkAppDraft "draft-1", None)] None (Some refused)
       (mock.deployment "dep-1" DeploymentStatusSuccessful) []).

Definition pushRefused : option (option error) * list event :=
  run (push.Handler mock.pkg existingWorld 5 plainPush profile askingUI
         importFails) [].

End runs.

(** ** What the functions of package push can emit *)

Definition discardPrompt : string := "Would you like to discard this draft?".

Definition confirmPrompt : string := "Please confirm the changes shown above".

Definition createPrompt : string := "Do you wish to create a new app?".

(** The events by which createNewDraft looks at an existing draft. *)
Definition reviewEvent (e : event) : Prop :=
  match e with
  | EvDraft _ _ _ => True
  | EvDiffDraft _ _ _ _ => True
  | EvPrint _ => True
  | EvConfirm m _ => m = discardPrompt
  | _ => False
  end.

(** What [createNewDraft] hands back, and the events of the run. *)
Inductive drafting (pkg : Pkg) (to : to)
  : AppDraft * bool * option error -> list event -> Prop :=
| drafting_created draft :
    drafting pkg to (draft, true, None)
      [EvCreateDraft (GroupID to) (AppID to) (draft, None)]
| drafting_fatal d err :
    push.notDraftAlreadyExists pkg err = true ->
    drafting pkg to (push.zeroAppDraft, false, Some err)
      [EvCreateDraft (GroupID to) (AppID to) (d, Some err)]
| drafting_aborted d err review res :
    push.notDraftAlreadyExists pkg err = false ->
    Forall reviewEvent review ->
    drafting pkg to (push.zeroAppDraft, false, res)
      (EvCreateDraft (GroupID to) (AppID to) (d, Some err) :: review)
| drafting_discard_failed d err existing review e :
    push.notDraftAlreadyExists pkg err = false ->
    Forall reviewEvent review ->
    drafting pkg to (push.zeroAppDraft, false, Some e)
      (EvCreateDraft (GroupID to) (AppID to) (d, Some err)
       :: EvDraft (GroupID to) (AppID to) (existing, None)
       :: review
       ++ [EvDiscardDraft (GroupID to) (AppID to) (Draft_ID existing)
             (Some e)])
| drafting_recreated d err existing review draft draftErr :
    push.notDraftAlreadyExists pkg err = false ->
    Forall reviewEvent review ->
    drafting pkg to (draft, true, draftErr)
      (EvCreateDraft (GroupID to) (AppID to) (d, Some err)
       :: EvDraft (GroupID to) (AppID to) (existing, None)
       :: review
       ++ [EvDiscardDraft (GroupID to) (AppID to) (Draft_ID existing) None;
           EvCreateDraft (GroupID to) (AppID to) (draft, draftErr)]).

(** [emits P m]: whatever [m] does, every event it adds satisfies [P]. *)
Definition emits {R A} (P : event -> Prop) (m : Stmt R A) : Prop :=
  forall h f d, m h = (f, d) -> Forall P d.

(** [returns m]: the statement never stays in the poll loop. *)
Definition returns {R A} (m : Stmt R A) : Prop :=
  forall h, fst (m h) <> Spin.

(** The events of createNewDraft. *)
Definition draftEvent (e : event) : Prop :=
  match e with
  | EvCreateDraft _ _ _ => True
  | EvDiscardDraft _ _ _ _ => True
  | EvDraft _ _ _ => True
  | EvDiffDraft _ _ _ _ => True
  | EvPrint _ => True
  | EvConfirm m _ => m = discardPrompt
  | _ => False
  end.

(** The events of deployDraftAndWait. *)
Definition deployEvent (e : event) : Prop :=
  match e with
  | EvDeployDraft _ _ _ _ => True
  | EvDeployment _ _ _ _ => True
  | EvDiscardDraft _ _ _ _ => True
  | EvPrint _ => True
  | _ => False
  end.

(** The events of createNewApp. *)
Definition appEvent (e : event) : Prop :=
  match e with
  | EvConfirm m _ => m = createPrompt
  | EvAskOne _ _ => True
  | EvCreateApp _ _ _ _ => True
  | EvWriteConfig _ _ _ => True
  | _ => False
  end.

(** The name, location and deployment model createNewApp reads from the
    local app data: empty when the data is nil or lacks the capability. *)
Definition derivedName (appData : option AppData) : string :=
  match appData with
  | Some d => match Name d with Some n => n | None => EmptyString end
  | None => EmptyString
  end.

Definition derivedLocation (appData : option AppData) : string :=
  match appData with
  | Some d =>
      match AppData_Location d with Some l => l | None => EmptyString end
  | None => EmptyString
  end.

Definition derivedDeploymentModel (appData : option AppData) : string :=
  match appData with
  | Some d =>
      match AppData_DeploymentModel d with
      | Some dm => dm
      | None => EmptyString
      end
  | None => EmptyString
  end.

(** The remote calls that change the app on the server once it exists. *)
Definition mutating (e : event) : bool :=
  match e with
  | EvCreateDraft _ _ _ => true
  | EvImport _ _ _ _ => true
  | EvDeployDraft _ _ _ _ => true
  | EvDiscardDraft _ _ _ _ => true
  | EvImportDependencies _ _ _ _ => true
  | EvUploadHostingAssets _ _ _ _ _ => true
  | EvHostingCacheInvalidate _ _ _ _ => true
  | _ => false
  end.



(** The hosting diff a run of the push handler works with: the one computed
    by [hosting.Diffs] when hosting is included, the zero value (once the
    hosting directory was found) otherwise. *)
Definition hostingDiffOf (cmd : push.Command) (tr : list event)
    (hd : HostingDiffs) : Prop :=
  if IncludeHosting (push.cmd_inputs cmd)
  then exists hosting cachePath appID appAssets,
         In (EvHostingDiffs hosting cachePath appID appAssets (hd, None)) tr
  else hd = zeroHostingDiffs /\
       exists rootDir hosting, In (EvFindAppHosting rootDir (hosting, None)) tr.

Definition nothingToDo : event :=
  EvPrint
    [NewTextLog "Deployed app is identical to proposed version, nothing to do"
                []].

(** What the handler emits once the diffs are computed: no further diff of
    the app or of its hosting files. *)
Definition afterDiffs (e : event) : Prop :=
  match e with
  | EvDiff _ _ _ _ => False
  | EvFindAppHosting _ _ => False
  | EvHostingDiffs _ _ _ _ _ => False
  | EvHostingAssets _ _ _ => False
  | EvCreateApp _ _ _ _ => False
  | _ => True
  end.

(** [endsWith tr x]: the last event of the trace is [x]. *)
Definition endsWith (tr : list event) (x : event) : Prop :=
  exists pre, tr = pre ++ [x].

(** What a dry run may do: read the local app, resolve the target, diff,
    and print. *)
Definition dryRunEvent (e : event) : Prop :=
  match e with
  | EvLoadApp _ _ => True
  | EvResolveTo _ _ => True
  | EvResolveGroupID _ => True
  | EvDiff _ _ _ _ => True
  | EvFindAppHosting _ _ => True
  | EvHostingAssets _ _ _ => True
  | EvHostingDiffs _ _ _ _ _ => True
  | EvPrint _ => True
  | _ => False
  end.

(** The log in which both commands show the diff lines. *)
Definition diffLog (diffs : list string) : Log :=
  NewTextLog
    "The following reflects the proposed changes to your Realm app
%s"
    [Join diffs newline].

Definition isCreateApp (e : event) : bool :=
  match e with EvCreateApp _ _ _ _ => true | _ => false end.


(** The hosting lines [app diff] adds to its output: those of the hosting
    diff it computed, none when hosting is not included. *)
Definition hostingLinesOf (pkg : Pkg) (cmd : app.CommandDiff)
    (tr : list event) (lines : list string) : Prop :=
  if diff_IncludeHosting (app.cmd_inputs cmd)
  then exists hosting cachePath appID appAssets hd,
         In (EvHostingDiffs hosting cachePath appID appAssets (hd, None)) tr
         /\ lines = Strings pkg hd
  else lines = [].

Definition advisory : string := "+ New function dependencies".

(** A failure of Import or of the submission of the draft, with error [e]. *)
Definition earlyFailure (e : error) (ev : event) : Prop :=
  match ev with
  | EvImport _ _ _ (Some e') => e' = e
  | EvDeployDraft _ _ _ (_, Some e') => e' = e
  | _ => False
  end.

(** The events of createNewDraft before it has a draft. *)
Definition beforeDraft (ev : event) : Prop :=
  match ev with
  | EvCreateDraft _ _ (_, Some _) => True
  | EvDiscardDraft _ _ _ _ => True
  | EvDraft _ _ _ => True
  | EvDiffDraft _ _ _ _ => True
  | EvPrint _ => True
  | EvConfirm m _ => m = discardPrompt
  | _ => False
  end.

(** The events of deployDraftAndWait once the draft is submitted. *)
Definition submitted (ev : event) : Prop :=
  match ev with
  | EvDeployDraft _ _ _ (_, None) => True
  | EvDeployment _ _ _ _ => True
  | EvDiscardDraft _ _ _ _ => True
  | EvPrint _ => True
  | _ => False
  end.

(** What the handler emits once the deployment is complete. *)
Definition afterDeploy (ev : event) : Prop :=
  match ev with
  | EvFindAppDependencies _ _ => True
  | EvPrepareUpload _ _ => True
  | EvImportDependencies _ _ _ _ => True
  | EvRemove _ => True
  | EvUploadHostingAssets _ _ _ _ _ => True
  | EvHostingCacheInvalidate _ _ _ _ => True
  | EvPrint _ => True
  | _ => False
  end.

(** Events that neither give the run a draft nor are a failed Import or a
    failed submission. *)
Definition quiet (ev : event) : Prop :=
  match ev with
  | EvCreateDraft _ _ (_, None) => False
  | EvImport _ _ _ (Some _) => False
  | EvDeployDraft _ _ _ (_, Some _) => False
  | _ => True
  end.

(** An outcome with flow [f] and trace [d] keeps the draft: a failed Import
    or submission in a trace that holds the creation of a draft is the last
    event, its error is what is returned, and no DiscardDraft call comes
    after the creation of the draft.  A statement keeps the draft when all
    its outcomes do. *)
Definition draftKept {A} (f : flow (option error) A) (d : list event) : Prop :=
  forall g a draft e ev,
    In (EvCreateDraft g a (draft, None)) d ->
    In ev d ->
    earlyFailure e ev ->
    f = Return (Some e) /\
    endsWith d ev /\
    exists pre post,
      d = pre ++ EvCreateDraft g a (draft, None) :: post /\
      Forall (fun x => isDiscardDraft x = false) post.

Definition keepsDraft {A} (m : Stmt (option error) A) : Prop :=
  forall h f d, m h = (f, d) -> draftKept f d.

(** ** What the calls of a run came back with *)

(** The error of the call an event records; [None] when the call succeeded
    or cannot fail. *)
Definition failure (ev : event) : option error :=
  match ev with
  | EvLoadApp _ r => snd r
  | EvResolveTo _ r => snd r
  | EvResolveGroupID r => snd r
  | EvResolveApp _ r => snd r
  | EvFindAppHosting _ r => snd r
  | EvHostingDiffs _ _ _ _ r => snd r
  | EvFindAppDependencies _ r => snd r
  | EvPrepareUpload _ r => snd r
  | EvWriteConfig _ _ r => r
  | EvRemove _ => None
  | EvCreateApp _ _ _ r => snd r
  | EvDiff _ _ _ r => snd r
  | EvHostingAssets _ _ r => snd r
  | EvCreateDraft _ _ r => snd r
  | EvDraft _ _ r => snd r
  | EvDiscardDraft _ _ _ r => r
  | EvDiffDraft _ _ _ r => snd r
  | EvImport _ _ _ r => r
  | EvImportDependencies _ _ _ r => r
  | EvDeployDraft _ _ _ r => snd r
  | EvDeployment _ _ _ r => snd r
  | EvUploadHostingAssets _ _ _ _ r => snd r
  | EvHostingCacheInvalidate _ _ _ r => r
  | EvPrint _ => None
  | EvConfirm _ r => snd r
  | EvAskOne _ r => snd r
  end.

Definition isPrint (e : event) : bool :=
  match e with EvPrint _ => true | _ => false end.

(** ** The outcome of [app diff] *)



(** The diff lines a run of [app diff] has gathered: those of the app diff,
    the advisory line when the dependency flag is set, and those of the
    hosting diff. *)
Definition gathered (pkg : Pkg) (cmd : app.CommandDiff) (tr : list event)
  : list string :=
  flat_map
    (fun ev =>
       match ev with
       | EvDiff _ _ _ (diffs, None) =>
           if diff_IncludeDependencies (app.cmd_inputs cmd)
           then diffs ++ [advisory] else diffs
       | EvHostingDiffs _ _ _ _ (hd, None) => Strings pkg hd
       | _ => []
       end) tr.

Definition identicalLog : Log :=
  NewTextLog "Deployed app is identical to proposed version" [].

(** ** What diffDraft prints *)

(** The log of a sub-diff of a draft, when it has changes. *)
Definition subLog (message : string) (d : SubDiff) : list Log :=
  if Sub_HasChanges d then [NewListLog message (Sub_DiffList d)] else [].

Definition emptyDraftLog : Log :=
  NewTextLog "An empty draft already exists for your app" [].

(** The logs that describe the draft [diff]. *)
Definition draftLogs (diff : AppDraftDiff) : list Log :=
  if HasChanges diff then
    NewListLog "The following draft already exists for your app..."
               (DiffList diff)
    :: subLog "With changes to your static hosting files..."
              (HostingFilesDiff diff)
    ++ subLog "With changes to your app dependencies..."
              (DependenciesDiff diff)
    ++ subLog "With changes to your GraphQL configuration..."
              (GraphQLConfigDiff diff)
    ++ subLog "With changes to your app schema..."
              (SchemaOptionsDiff diff)
  else [emptyDraftLog].

(** How many of the four sub-diffs of [diff] have changes. *)
Definition changedParts (diff : AppDraftDiff) : nat :=
  length (filter Sub_HasChanges
            [HostingFilesDiff diff; DependenciesDiff diff;
             GraphQLConfigDiff diff; SchemaOptionsDiff diff]).

(** The calls createNewDraft makes without looking at the existing draft. *)
Definition unattended (ev : event) : Prop :=
  match ev with
  | EvCreateDraft _ _ _ => True
  | EvDraft _ _ _ => True
  | EvDiscardDraft _ _ _ _ => True
  | _ => False
  end.

(** ** Failures that end a run *)

(** The error of a failed call that ends the run.  Two calls are left out:
    a failed CreateDraft may be the conflict createNewDraft recovers from,
    and the DiscardDraft of the poll only warns when it fails. *)
Definition fatal (ev : event) : option error :=
  match ev with
  | EvCreateDraft _ _ _ => None
  | EvDiscardDraft _ _ _ _ => None
  | _ => failure ev
  end.

(** What may still happen once a call has failed: the compensating discard,
    prints, and the removal of the dependencies archive. *)
Definition aftermath (ev : event) : Prop :=
  match ev with
  | EvDiscardDraft _ _ _ _ => True
  | EvPrint _ => True
  | EvRemove _ => True
  | _ => False
  end.

(** A declined yes/no question. *)
Definition declined (ev : event) : option unit :=
  match ev with
  | EvConfirm _ (false, None) => Some tt
  | _ => None
  end.

(** Nothing happens after a declined question. *)
Definition nothing (ev : event) : Prop := False.

(** What [Command.Handler], and what createNewApp and createNewDraft, hand
    back when the user has declined. *)
Definition isNilError (r : option error) : option unit :=
  match r with None => Some tt | Some _ => None end.

Definition notProceeding {T} (r : T * bool * option error) : option unit :=
  match r with
  | (_, false, None) => Some tt
  | _ => None
  end.

(** Outcomes that stop at an event of note.  [note] picks the events (a
    failed call with its error, a declined question), [after] is what may
    still happen past one, and [noteOf] reads off the value a function
    returns whether it reports such an event. *)
Section Stops.
Context {X : Type}.
Variable note : event -> option X.
Variable after : event -> Prop.

(** The outcome [f], [d] stops at its event of note: it is the first one,
    the function returns and reports it, and only [after] follows. *)
Definition stops {R A} (noteOf : R -> option X) (f : flow R A)
    (d : list event) : Prop :=
  forall x ev,
    In ev d ->
    note ev = Some x ->
    (exists r, f = Return r /\ noteOf r = Some x) /\
    exists pre post,
      d = pre ++ ev :: post /\
      Forall (fun e => note e = None) pre /\
      Forall after post.

Definition failsFast {R A} (noteOf : R -> option X) (m : Stmt R A) : Prop :=
  forall h f d, m h = (f, d) -> stops noteOf f d.

(** [winds noteOf x m]: [m] is what is left to do after the event of note
    [x]: it returns and reports [x], after [after] at most. *)
Definition winds {R A} (noteOf : R -> option X) (x : X) (m : Stmt R A)
  : Prop :=
  forall h f d,
    m h = (f, d) ->
    (exists r, f = Return r /\ noteOf r = Some x) /\ Forall after d.

(** What a statement goes on with after a call, [noted] telling whether
    the call is of note. *)
Definition checked {R A} (noteOf : R -> option X) (noted : option X)
    (m : Stmt R A) : Prop :=
  match noted with
  | Some x => winds noteOf x m
  | None => failsFast noteOf m
  end.
End Stops.

(** ** The optional stages of a push *)

(** The calls that deal with the hosting files, past finding them. *)
Definition hostingCall (ev : event) : bool :=
  match ev with
  | EvHostingAssets _ _ _ => true
  | EvHostingDiffs _ _ _ _ _ => true
  | EvUploadHostingAssets _ _ _ _ _ => true
  | EvHostingCacheInvalidate _ _ _ _ => true
  | _ => false
  end.

(** The calls that deal with the dependencies. *)
Definition dependencyCall (ev : event) : bool :=
  match ev with
  | EvFindAppDependencies _ _ => true
  | EvPrepareUpload _ _ => true
  | EvImportDependencies _ _ _ _ => true
  | EvRemove _ => true
  | _ => false
  end.

(** No cache is reset but the whole of it. *)
Definition wholeCache (ev : event) : Prop :=
  match ev with
  | EvHostingCacheInvalidate _ _ path _ => path = "/*"
  | _ => True
  end.

Definition isCacheInvalidate (ev : event) : bool :=
  match ev with EvHostingCacheInvalidate _ _ _ _ => true | _ => false end.

(** ** The order of the stages of a push *)

(** What follows the deployment: the dependencies, the hosting files and
    the report of success. *)
Definition late (ev : event) : bool :=
  match ev with
  | EvFindAppDependencies _ _ => true
  | EvPrepareUpload _ _ => true
  | EvImportDependencies _ _ _ _ => true
  | EvRemove _ => true
  | EvUploadHostingAssets _ _ _ _ _ => true
  | EvHostingCacheInvalidate _ _ _ _ => true
  | EvPrint [NewTextLog format _] =>
      (format =? "Successfully pushed app up: %s")%string
  | _ => false
  end.

(** The app an event of the late stages is about. *)
Definition target (groupID appID : string) (ev : event) : Prop :=
  match ev with
  | EvImportDependencies g a _ _ => g = groupID /\ a = appID
  | EvUploadHostingAssets _ g a _ _ => g = groupID /\ a = appID
  | EvHostingCacheInvalidate g a _ _ => g = groupID /\ a = appID
  | _ => True
  end.

(** A trace goes through the stages in order: what is late in it comes after
    the creation of a draft, the import of the app into it, its submission
    and the completion of its deployment, all for one app. *)
Definition staged (d : list event) : Prop :=
  forall ev,
    In ev d ->
    late ev = true ->
    exists g a draft data dep p1 p2 p3 p4 p5,
      d = p1 ++ EvCreateDraft g a (draft, None)
             :: p2 ++ EvImport g a data None
             :: p3 ++ EvDeployDraft g a (Draft_ID draft) (dep, None)
             :: p4 ++ deploymentComplete :: p5 /\
      In ev p5 /\
      target g a ev.

Definition inStages {R A} (m : Stmt R A) : Prop :=
  forall h f d, m h = (f, d) -> staged d.

(** ** The archive of the dependencies *)

Definition isRemove (ev : event) : bool :=
  match ev with EvRemove _ => true | _ => false end.

(** The calls that make and remove the archive. *)
Definition isArchive (ev : event) : bool :=
  match ev with
  | EvPrepareUpload _ _ => true
  | EvRemove _ => true
  | _ => false
  end.

(** A trace is cleaned up: an archive that was made is removed by the last
    event, once, and nothing else is removed. *)
Definition cleaned (d : list event) : Prop :=
  (forall deps path,
      In (EvPrepareUpload deps (path, None)) d ->
      exists pre,
        d = pre ++ [EvRemove path] /\
        Forall (fun e => isRemove e = false) pre) /\
  (forall path,
      In (EvRemove path) d ->
      exists deps, In (EvPrepareUpload deps (path, None)) d).

Definition cleansUp {R A} (m : Stmt R A) : Prop :=
  forall h f d, m h = (f, d) -> cleaned d.

(** ** Package secrets: the inputs of [secrets create] *)

Module secrets.

(** The survey prompts of the two questions. *)
Inductive Prompt : Type :=
| Input (Message : string)
| Password (Message : string).

(** [survey.Question]. *)
Record Question : Type := mkQuestion {
  Question_Name : string;
  Question_Prompt : Prompt }.

Record createInputs : Type := mkCreateInputs {
  createInputs_ProjectInputs : ProjectInputs;
  Name : string;
  Value : string }.

Definition createInputFieldSecretName : string := "name".

Definition createInputFieldSecretValue : string := "value".

(** [createInputs.Resolve].  [Ask] stands for [ui.Ask(i, questions...)],
    which writes the answers into the inputs and may fail; the third
    component of the result lists the calls of [ui.Ask], each with the
    questions it was handed. *)
Definition Resolve
    (Ask : createInputs -> list Question -> createInputs * option error)
    (i : createInputs)
  : createInputs * option error * list (list Question) :=
  let questions := [] in
  let questions :=
    if (Name i =? EmptyString)%string then
      questions ++ [mkQuestion createInputFieldSecretName
                               (Input "Secret Name")]
    else questions in
  let questions :=
    if (Value i =? EmptyString)%string then
      questions ++ [mkQuestion createInputFieldSecretValue
                               (Password "Secret Value")]
    else questions in
  if (0 <? length questions)%nat then
    let '(i', err) := Ask i questions in (i', err, [questions])
  else (i, None, []).

(** The question asked for a field, by the name of the field. *)
Definition questionFor (field : string) : Question :=
  if (field =? createInputFieldSecretName)%string
  then mkQuestion createInputFieldSecretName (Input "Secret Name")
  else mkQuestion createInputFieldSecretValue (Password "Secret Value").

(** The fields of the inputs that are still empty, in the order in which
    they are asked for. *)
Definition missing (i : createInputs) : list string :=
  filter (fun field =>
            if (field =? createInputFieldSecretName)%string
            then (Name i =? EmptyString)%string
            else (Value i =? EmptyString)%string)
         [createInputFieldSecretName; createInputFieldSecretValue].

End secrets.

(** ** Package app: the inputs of [app diff] *)

Module appInputs.

(** [diffInputs.Resolve]: the inputs after the call, and its error. *)
Definition Resolve (i : diffInputs) (profile : Profile) (ui : UI)
  : diffInputs * option error :=
  let i :=
    if (diff_AppDirectory i =? EmptyString)%string
    then mkDiffInputs (WorkingDirectory profile)
                      (diff_IncludeDependencies i) (diff_IncludeHosting i)
                      (diff_ProjectInputs i)
    else i in
  (i, None).

End appInputs.

(** ** The app a push is about *)

(** How the handler settles its target [to]: from [resolveTo], with the
    group of [ResolveGroupID] and the id of the app it creates. *)
Definition resolve (t : to) (ev : event) : to :=
  match ev with
  | EvResolveTo _ (t', None) => t'
  | EvResolveGroupID (g, None) => mkTo g (AppID t)
  | EvCreateApp _ _ _ (newApp, None) => mkTo (GroupID t) (App_ID newApp)
  | _ => t
  end.

(** The target a run has settled on. *)
Definition resolved (tr : list event) : to :=
  fold_left resolve tr (mkTo EmptyString EmptyString).

(** The event is about the app [appID] of the group [groupID], as far as it
    names a group or an app. *)
Definition about (groupID appID : string) (ev : event) : Prop :=
  match ev with
  | EvCreateApp g _ _ _ => g = groupID
  | EvHostingDiffs _ _ a _ _ => a = appID
  | EvDiff g a _ _ => g = groupID /\ a = appID
  | EvHostingAssets g a _ => g = groupID /\ a = appID
  | EvCreateDraft g a _ => g = groupID /\ a = appID
  | EvDraft g a _ => g = groupID /\ a = appID
  | EvDiscardDraft g a _ _ => g = groupID /\ a = appID
  | EvDiffDraft g a _ _ => g = groupID /\ a = appID
  | EvImport g a _ _ => g = groupID /\ a = appID
  | EvImportDependencies g a _ _ => g = groupID /\ a = appID
  | EvDeployDraft g a _ _ => g = groupID /\ a = appID
  | EvDeployment g a _ _ => g = groupID /\ a = appID
  | EvUploadHostingAssets _ g a _ _ => g = groupID /\ a = appID
  | EvHostingCacheInvalidate g a _ _ => g = groupID /\ a = appID
  | _ => True
  end.

(** The same for what happens once the target is settled. *)
Definition aboutResolved (groupID appID : string) (ev : event) : Prop :=
  match ev with
  | EvResolveTo _ _ => False
  | EvResolveGroupID _ => False
  | EvCreateApp _ _ _ _ => False
  | _ => about groupID appID ev
  end.

(** The events of createNewApp, for the group [groupID]. *)
Definition aboutGroup (groupID : string) (ev : event) : Prop :=
  match ev with
  | EvCreateApp g _ _ _ => g = groupID
  | EvConfirm _ _ => True
  | EvAskOne _ _ => True
  | EvWriteConfig _ _ _ => True
  | _ => False
  end.

(** ** More concrete runs *)

Module samples.

(** A new app is created by a user who is asked everything. *)
Definition createAsking : option (App * bool * option error) * list event :=
  run (push.createNewApp mock.pkg runs.unnamedWorld runs.askingUI
         (Realm runs.oneChange) "." "group" (Some runs.namedData)) [].

(** The draft that exists is shown: the mock client reports no changes. *)
Definition showDraft : option (option error) * list event :=
  run (push.diffDraft runs.askingUI (Realm runs.oneChange) mock.to0
         "existing") [].

(** A draft exists; the user is asked and agrees to discard it. *)
Definition draftDiscarded
  : option (AppDraft * bool * option error) * list event :=
  run (push.createNewDraft mock.pkg runs.askingUI runs.conflictClient
         mock.to0) [].

(** A draft exists; the user is asked and keeps it. *)
Definition draftKeptByUser
  : option (AppDraft * bool * option error) * list event :=
  run (push.createNewDraft mock.pkg runs.decliningUI runs.conflictClient
         mock.to0) [].

(** [app diff] of an app with one change, without flags. *)
Definition plainDiff : app.CommandDiff :=
  app.mkCommandDiff
    (mkDiffInputs "." false false (mkProjectInputs "project" "app")).

Definition diffOneChange : option (option error) * list event :=
  run (app.Handler mock.pkg runs.existingWorld plainDiff runs.profile
         runs.askingUI runs.oneChange) [].

(** [app diff] without a directory. *)
Definition noDirectory : diffInputs :=
  mkDiffInputs EmptyString false true (mkProjectInputs "project" "app").

Definition home : Profile := mkProfile "/home/me/app" ".cache".

(** [secrets create --name api-key]: the value is missing. *)
Definition nameOnly : secrets.createInputs :=
  secrets.mkCreateInputs (mkProjectInputs "project" "app") "api-key"
                         EmptyString.

(** The user types the value. *)
Definition typing (i : secrets.createInputs) (qs : list secrets.Question)
  : secrets.createInputs * option error :=
  (secrets.mkCreateInputs (secrets.createInputs_ProjectInputs i)
     (secrets.Name i) "s3cr3t", None).

(** A deployment that never leaves the in-flight set, polled three times. *)
Definition stuckClient : Clients :=
  mkClients
    (mock.RealmClient (["+ functions/f.js"], None)
       [(mkAppDraft "draft-1", None)] None None
       (mock.deployment "dep-1" DeploymentStatusCreated)
       [mock.deployment "dep-1" DeploymentStatusPending;
        mock.deployment "dep-1" DeploymentStatusPending;
        mock.deployment "dep-1" DeploymentStatusPending]).

Definition pushStuck : option (option error) * list event :=
  run (push.Handler mock.pkg runs.existingWorld 3 runs.plainPush
         runs.profile runs.askingUI stuckClient) [].

End samples.

(** ** The only loop *)

(** An outcome that is still polling has used up its poll budget, on a
    deployment that was in flight each time it was looked at. *)
Definition polling (fuel : nat) {R A} (f : flow R A) (d : list event)
  : Prop :=
  f = Spin ->
  count isRefetch d = fuel /\
  Forall (fun s => push.inFlight s = true) (observed d).

Definition pollsOnly (fuel : nat) {R A} (m : Stmt R A) : Prop :=
  forall h f d, m h = (f, d) -> polling fuel f d.

(** Events that tell nothing about a deployment. *)
Definition noDeployment (ev : event) : Prop :=
  match ev with
  | EvDeployDraft _ _ _ _ => False
  | EvDeployment _ _ _ _ => False
  | _ => True
  end.
(** ** Stepping through statements *)

Lemma seq_inv R A B (m : Stmt R A) (k : A -> Stmt R B) h f d :
  bind m k h = (f, d) ->
  exists f1 d1,
    m h = (f1, d1) /\
    match f1 with
    | Next a => exists d2, k a (h ++ d1) = (f, d2) /\ d = d1 ++ d2
    | Return r => f = Return r /\ d = d1
    | Spin => f = Spin /\ d = d1
    end.
Proof.
  unfold bind; simpl; unfold seq.
  destruct (m h) as [[a | r | ] d1]; intros H.
  - destruct (k a (h ++ d1)) as [f2 d2] eqn:E.
    injection H as <- <-. exists (Next a), d1. split; [reflexivity | ].
    exists d2. auto.
  - injection H as <- <-. exists (Return r), d1. auto.
  - injection H as <- <-. exists Spin, d1. auto.
Qed.

Lemma call_inv R R' (body : Stmt R R) h (f : flow R' R) d :
  call body h = (f, d) ->
  exists f0, body h = (f0, d) /\
    match f0 with
    | Next r => f = Next r
    | Return r => f = Next r
    | Spin => f = Spin
    end.
Proof.
  unfold call. destruct (body h) as [[r | r | ] d0]; intros H;
    injection H as <- <-; eexists; split; reflexivity.
Qed.

Lemma call_run R R' (body : Stmt R R) h (f : flow R' R) d :
  call body h = (f, d) ->
  exists r, run body h = (r, d) /\
            f = match r with Some v => Next v | None => Spin end.
Proof.
  unfold call, run. destruct (body h) as [[r | r | ] d0]; intros H;
    injection H as <- <-; eexists; split; reflexivity.
Qed.

(** Symbolic execution of a statement [H : m h = (f, d)], one bind at a
    time; calls of the package's own functions are left to their lemmas. *)

Ltac scrutinee x :=
  lazymatch x with
  | negb ?y => scrutinee y
  | isNil ?y => scrutinee y
  | andb ?y _ => scrutinee y
  | orb ?y _ => scrutinee y
  | match ?y with _ => _ end => scrutinee y
  | _ => x
  end.

Ltac tidy H := cbn [negb isNil andb orb] in H.

Ltac split_on H x :=
  let y := scrutinee x in
  first
    [ match goal with E : y = _ |- _ => rewrite E in H end; tidy H
    | lazymatch type of y with
      | bool => revert H; destruct y eqn:?; intros H; tidy H
      | _ => revert H; destruct y; intros H; tidy H
      end ].

Ltac elim_eq H := lazymatch type of H with ?v = _ => subst v end.

Ltac unfold_call H :=
  first
    [ progress unfold CreateApp, Diff, HostingAssets, CreateDraft, Draft,
        DiscardDraft, DiffDraft, Import, ImportDependencies, DeployDraft,
        Deployment, HostingCacheInvalidate, Confirm, AskOne, LoadApp,
        resolveTo, ResolveGroupID, ResolveApp, FindAppHosting, Diffs,
        FindAppDependencies, PrepareUpload, WriteConfig,
        UploadHostingAssets in H ].

Lemma forEach_Print R A (xs : list A) ui (logs : A -> list Log) h :
  forEach xs (fun x => @Print R ui (logs x)) h
  = (Next tt, map (fun x => EvPrint (logs x)) xs).
Proof.
  revert h. induction xs as [ | x xs IH]; intros h; [reflexivity | ].
  cbn [forEach]. unfold bind; cbn [Monad_Stmt]. unfold seq.
  unfold Print at 1. rewrite IH. reflexivity.
Qed.

(** A call of one of the package's functions: keep its run as a fact. *)
Ltac known_call H :=
  let r := fresh "r" in
  let Hf := fresh "Hf" in
  apply call_run in H; destruct H as (r & H & Hf);
  destruct r as [r | ]; elim_eq Hf.

(** [exec stop H]: [stop H] succeeds on the statements at which the
    execution is to pause. *)
Ltac exec stop H :=
  tidy H;
  first [ stop H | exec_step stop H ]
with exec_step stop H :=
  lazymatch type of H with
  | bind ?m ?k ?h = _ =>
      let f1 := fresh "f" in
      let d1 := fresh "d" in
      let H1 := fresh "H" in
      apply seq_inv in H; destruct H as (f1 & d1 & H1 & H);
      exec stop H1; cbv beta iota in H;
      lazymatch type of H with
      | exists _, _ =>
          let d2 := fresh "d" in
          let Hd := fresh "Hd" in
          destruct H as (d2 & H & Hd); elim_eq Hd; exec stop H
      | _ /\ _ =>
          let Hf := fresh "Hf" in
          let Hd := fresh "Hd" in
          destruct H as (Hf & Hd); elim_eq Hf; elim_eq Hd
      | _ => idtac
      end
  | (match ?x with _ => _ end) _ = _ => split_on H x; exec stop H
  | perform _ _ _ = _ =>
      unfold perform in H; cbv zeta in H; injection H as <- <-
  | next _ _ = _ => unfold next in H; injection H as <- <-
  | ret _ _ = _ => unfold ret in H; cbn [Monad_Stmt] in H; exec stop H
  | return_ _ _ = _ => unfold return_ in H; injection H as <- <-
  | skip _ = _ => unfold skip, next in H; injection H as <- <-
  | spin _ = _ => unfold spin in H; injection H as <- <-
  | Print _ _ _ = _ => unfold Print in H; injection H as <- <-
  | Remove _ _ = _ => unfold Remove in H; injection H as <- <-
  | call (push.createNewApp _ _ _ _ _ _ _) _ = _ => known_call H
  | call (push.createNewDraft _ _ _ _) _ = _ => known_call H
  | call (push.deployDraftAndWait _ _ _ _ _) _ = _ => known_call H
  | forEach _ (fun err => Print _ _) _ = _ =>
      rewrite forEach_Print in H; injection H as <- <-
  | forEach _ _ _ = _ => idtac
  | call ?body _ = _ =>
      let f0 := fresh "f" in
      let Hf := fresh "Hf" in
      apply call_inv in H; destruct H as (f0 & H & Hf);
      try unfold push.diffDraft in H;
      exec stop H; cbv beta iota in Hf; elim_eq Hf
  | _ => unfold_call H; exec stop H
  end.

Ltac never x := fail.

Ltac run_exec H :=
  let f := fresh "f" in
  let d := fresh "d" in
  let E := fresh "E" in
  unfold run in H;
  match type of H with
  | context [?body ?h] =>
      lazymatch type of (body h) with
      | (flow _ _ * list event)%type =>
          destruct (body h) as [f d] eqn:E
      end
  end.

Lemma polled_app to dep oks last dep' :
  polled to dep oks last ->
  push.inFlight (Status last) = true ->
  polled to dep
    (oks ++ [EvDeployment (GroupID to) (AppID to) (Deployment_ID last)
               (dep', None)]) dep'.
Proof.
  induction 1; intros Hin; simpl.
  - constructor; [assumption | constructor].
  - constructor; auto.
Qed.

(** What one run of the poll loop can look like. *)
Lemma waitForDeployment_spec fuel ui c to draftID :
  forall deployment h f d,
    push.waitForDeployment fuel ui c to draftID deployment h = (f, d) ->
    exists oks last,
      polled to deployment oks last /\
      ((push.inFlight (Status last) = false /\ f = Return None /\ d = oks)
       \/ (push.inFlight (Status last) = true /\ f = Spin /\ d = oks)
       \/ (push.inFlight (Status last) = true /\
           exists dep' e de,
             f = Return (Some e) /\
             d = oks
                 ++ [EvDeployment (GroupID to) (AppID to) (Deployment_ID last)
                       (dep', Some e);
                     EvDiscardDraft (GroupID to) (AppID to) draftID de]
                 ++ (if isNil de then [] else [discardWarning]))).
Proof.
  induction fuel as [ | fuel IH]; intros deployment h f d H; simpl in H.
  - destruct (push.inFlight (Status deployment)) eqn:Hin.
    + inversion H; subst. exists [], deployment.
      split; [constructor | right; left; auto].
    + inversion H; subst. exists [], deployment.
      split; [constructor | left; auto].
  - destruct (push.inFlight (Status deployment)) eqn:Hin.
    + unfold seq, Deployment, perform in H.
      destruct (DeploymentFn c h (GroupID to) (AppID to)
                  (Deployment_ID deployment)) as [dep' [e | ]] eqn:Hd;
        simpl in H.
      * unfold seq, DiscardDraft, perform in H. simpl in H.
        exists [], deployment. split; [constructor | ].
        right; right. split; [assumption | ].
        match type of H with
        | context [DiscardDraftFn ?c ?h ?g ?a ?i] =>
            destruct (DiscardDraftFn c h g a i) as [de | ] eqn:Hde
        end; simpl in H; injection H as <- <-;
          [exists dep', e, (Some de) | exists dep', e, None];
          split; reflexivity.
      * destruct (push.waitForDeployment fuel ui c to draftID dep' _)
          as [f2 d2] eqn:Hrec.
        apply IH in Hrec. destruct Hrec as (oks & last & Hp & Hcases).
        inversion H; subst.
        exists (EvDeployment (GroupID to) (AppID to)
                  (Deployment_ID deployment) (dep', None) :: oks), last.
        split; [constructor; assumption | ].
        destruct Hcases as [(? & ? & ?) | [(? & ? & ?) | (? & dep'' & e & de & ? & ?)]];
          subst.
        -- left; auto.
        -- right; left; auto.
        -- right; right. split; [assumption | ].
           exists dep'', e, de. split; reflexivity.
    + inversion H; subst. exists [], deployment.
      split; [constructor | left; auto].
Qed.


Lemma deployDraftAndWait_spec fuel ui c to draftID h r tr :
  run (push.deployDraftAndWait fuel ui c to draftID) h = (r, tr) ->
  deployed to draftID r tr.
Proof.
  unfold run, push.deployDraftAndWait. simpl. unfold seq at 1.
  unfold DeployDraft, perform.
  destruct (DeployDraftFn c h (GroupID to) (AppID to) draftID)
    as [dep0 [e | ]] eqn:Hd; simpl.
  - intros H; injection H as <- <-. constructor.
  - unfold seq at 1. unfold call.
    destruct (push.waitForDeployment fuel ui c to draftID dep0 _)
      as [f d] eqn:Hw.
    apply waitForDeployment_spec in Hw.
    destruct Hw as (oks & last & Hp & [(Hl & -> & ->) | [(Hl & -> & ->) | (Hl & dep' & e & de & -> & ->)]]);
      simpl; intros H; injection H as <- <-.
    + eapply deployed_done; eassumption.
    + rewrite ?app_nil_r. eapply deployed_polling; eassumption.
    + rewrite ?app_nil_r. eapply deployed_refetch_failed; eassumption.
Qed.

(** *** Facts about successful polls *)

Lemma polled_no_discard to dep oks last :
  polled to dep oks last -> filter isDiscardDraft oks = [].
Proof. induction 1; simpl; auto. Qed.

Lemma polled_refetches to dep oks last :
  polled to dep oks last -> count isRefetch oks = length oks.
Proof.
  unfold count. induction 1; simpl; auto.
Qed.

Lemma polled_all_ok to dep oks last g a i d e :
  polled to dep oks last -> ~ In (EvDeployment g a i (d, Some e)) oks.
Proof.
  induction 1; simpl; [tauto | ].
  intros [H1 | H1]; [discriminate | auto].
Qed.

(** The statuses seen along successful polls: all in flight, except possibly
    the one the polls end on. *)
Lemma polled_observed to dep oks last :
  polled to dep oks last ->
  exists sts,
    Status dep :: observed oks = sts ++ [Status last] /\
    Forall (fun s => push.inFlight s = true) sts /\
    length sts = length oks.
Proof.
  induction 1 as [dep | dep dep' oks last Hin Hp (sts & Hs & Hall & Hlen)].
  - exists []. simpl. auto.
  - exists (Status dep :: sts). simpl. rewrite Hs. auto.
Qed.

Lemma observed_app l1 l2 : observed (l1 ++ l2) = observed l1 ++ observed l2.
Proof. unfold observed. apply flat_map_app. Qed.

Lemma observed_submit g a i dep l :
  observed (EvDeployDraft g a i (dep, None) :: l) = Status dep :: observed l.
Proof. reflexivity. Qed.

Lemma observed_failed_tail g a i d e g' a' i' de :
  observed ([EvDeployment g a i (d, Some e); EvDiscardDraft g' a' i' de]
            ++ (if isNil de then [] else [discardWarning])) = [].
Proof. destruct de; reflexivity. Qed.

Lemma count_app f l1 l2 : count f (l1 ++ l2) = count f l1 + count f l2.
Proof. unfold count. rewrite filter_app, length_app. reflexivity. Qed.

Lemma count_polled_discard to dep oks last :
  polled to dep oks last -> count isDiscardDraft oks = 0.
Proof.
  intros H. unfold count. rewrite (polled_no_discard H). reflexivity.
Qed.

Lemma waitForDeployment_step fuel ui c to draftID dep h dep' :
  push.inFlight (Status dep) = true ->
  DeploymentFn c h (GroupID to) (AppID to) (Deployment_ID dep)
  = (dep', None) ->
  let ev := EvDeployment (GroupID to) (AppID to) (Deployment_ID dep)
                         (dep', None) in
  push.waitForDeployment (S fuel) ui c to draftID dep h
  = (let (f, d) := push.waitForDeployment fuel ui c to draftID dep'
                     (h ++ [ev]) in
     (f, ev :: d)).
Proof.
  intros Hin Hd ev. simpl. rewrite Hin.
  unfold seq at 1. unfold Deployment, perform. rewrite Hd. reflexivity.
Qed.

Lemma waitForDeployment_stop fuel ui c to draftID dep h :
  push.inFlight (Status dep) = false ->
  push.waitForDeployment fuel ui c to draftID dep h = (Return None, []).
Proof.
  intros Hin. destruct fuel; simpl; rewrite Hin; reflexivity.
Qed.

Lemma inFlight_Created dep :
  Status dep = DeploymentStatusCreated -> push.inFlight (Status dep) = true.
Proof. intros ->. reflexivity. Qed.

Lemma inFlight_Pending dep :
  Status dep = DeploymentStatusPending -> push.inFlight (Status dep) = true.
Proof. intros ->. reflexivity. Qed.

(** ** deployDraftAndWait *)

(** C1.  Whenever a status re-fetch of the poll fails with an error [e],
    deployDraftAndWait returns [e]; the failed re-fetch is followed by exactly
    one DiscardDraft call, for the draft being deployed, and that is the only
    DiscardDraft call of the run.  Whether the discard succeeds does not
    change the returned error: a failed discard only adds the warning. *)
Theorem refetch_error_discards_once
  fuel ui c to draftID h r tr g a i dep e :
  run (push.deployDraftAndWait fuel ui c to draftID) h = (r, tr) ->
  In (EvDeployment g a i (dep, Some e)) tr ->
  r = Some (Some e) /\
  count isDiscardDraft tr = 1 /\
  exists pre de,
    tr = pre
         ++ [EvDeployment g a i (dep, Some e);
             EvDiscardDraft (GroupID to) (AppID to) draftID de]
         ++ (if isNil de then [] else [discardWarning]) /\
    count isDiscardDraft pre = 0.
Proof.
  intros Hrun Hin. apply deployDraftAndWait_spec in Hrun.
  destruct Hrun as [dep0 e0 | dep0 oks last Hp Hl | dep0 oks last Hp Hl
                   | dep0 oks last dep' e' de Hp Hl].
  - destruct Hin as [Hin | []]; discriminate.
  - exfalso. destruct Hin as [Hin | Hin]; [discriminate | ].
    apply in_app_or in Hin. destruct Hin as [Hin | [Hin | []]].
    + eapply polled_all_ok; eassumption.
    + discriminate.
  - exfalso. destruct Hin as [Hin | Hin]; [discriminate | ].
    eapply polled_all_ok; eassumption.
  - destruct Hin as [Hin | Hin]; [discriminate | ].
    apply in_app_or in Hin. destruct Hin as [Hin | Hin].
    + exfalso. eapply polled_all_ok; eassumption.
    + assert (Heq : EvDeployment (GroupID to) (AppID to) (Deployment_ID last)
                      (dep', Some e') = EvDeployment g a i (dep, Some e)).
      { destruct Hin as [Hin | [Hin | Hin]]; [assumption | discriminate | ].
        destruct de; simpl in Hin; [ | contradiction].
        destruct Hin as [Hin | []]; discriminate. }
      injection Heq as <- <- <- <- <-.
      split; [reflexivity | ]. split.
      * change (EvDeployDraft (GroupID to) (AppID to) draftID (dep0, None) ::
                oks ++ ?l) with
          ([EvDeployDraft (GroupID to) (AppID to) draftID (dep0, None)]
           ++ oks ++ l).
        rewrite !count_app, (count_polled_discard Hp).
        destruct de; reflexivity.
      * exists (EvDeployDraft (GroupID to) (AppID to) draftID (dep0, None)
                :: oks), de.
        split; [reflexivity | ].
        change (EvDeployDraft (GroupID to) (AppID to) draftID (dep0, None) ::
                oks) with
          ([EvDeployDraft (GroupID to) (AppID to) draftID (dep0, None)]
           ++ oks).
        rewrite count_app, (count_polled_discard Hp). reflexivity.
Qed.

(** C3, as the code has it.  When the poll sees the status Failed,
    deployDraftAndWait stops polling and makes no DiscardDraft call; it
    prints the completion message and returns nil, as it does for Successful:
    the status itself is not handed to the caller. *)
Theorem failed_deployment_ends_poll fuel ui c to draftID h r tr :
  run (push.deployDraftAndWait fuel ui c to draftID) h = (r, tr) ->
  In DeploymentStatusFailed (observed tr) ->
  r = Some None /\
  count isDiscardDraft tr = 0 /\
  exists pre sts,
    tr = pre ++ [deploymentComplete] /\
    observed tr = sts ++ [DeploymentStatusFailed] /\
    ~ In DeploymentStatusFailed sts.
Proof.
  intros Hrun Hin. apply deployDraftAndWait_spec in Hrun.
  assert (Hfl : forall sts, Forall (fun s => push.inFlight s = true) sts ->
                            ~ In DeploymentStatusFailed sts).
  { intros sts Hall Hf. rewrite Forall_forall in Hall.
    apply Hall in Hf. discriminate. }
  destruct Hrun as [dep0 e0 | dep0 oks last Hp Hl | dep0 oks last Hp Hl
                   | dep0 oks last dep' e' de Hp Hl].
  - simpl in Hin. contradiction.
  - destruct (polled_observed Hp) as (sts & Hs & Hall & Hlen).
    assert (Hobs : observed
                     (EvDeployDraft (GroupID to) (AppID to) draftID (dep0, None)
                      :: oks ++ [deploymentComplete]) = sts ++ [Status last]).
    { change (Status dep0 :: observed (oks ++ [deploymentComplete])
              = sts ++ [Status last]).
      rewrite observed_app. simpl. rewrite app_nil_r. exact Hs. }
    rewrite Hobs in Hin |- *.
    apply in_app_or in Hin. destruct Hin as [Hin | [Hin | []]].
    + exfalso. exact (Hfl sts Hall Hin).
    + split; [reflexivity | ]. split.
      * change (count isDiscardDraft
                  ([EvDeployDraft (GroupID to) (AppID to) draftID (dep0, None)]
                   ++ oks ++ [deploymentComplete]) = 0).
        rewrite !count_app, (count_polled_discard Hp). reflexivity.
      * exists (EvDeployDraft (GroupID to) (AppID to) draftID (dep0, None)
                :: oks), sts.
        rewrite Hin. auto.
  - exfalso.
    destruct (polled_observed Hp) as (sts & Hs & Hall & Hlen).
    change (In DeploymentStatusFailed (Status dep0 :: observed oks)) in Hin.
    rewrite Hs in Hin.
    apply in_app_or in Hin. destruct Hin as [Hin | [Hin | []]].
    + exact (Hfl sts Hall Hin).
    + rewrite Hin in Hl. discriminate.
  - exfalso.
    destruct (polled_observed Hp) as (sts & Hs & Hall & Hlen).
    rewrite observed_submit, observed_app, observed_failed_tail in Hin.
    rewrite app_nil_r, Hs in Hin.
    apply in_app_or in Hin. destruct Hin as [Hin | [Hin | []]].
    + exact (Hfl sts Hall Hin).
    + rewrite Hin in Hl. discriminate.
Qed.

Lemma refetch_error_discards_once_witness :
  In (EvDeployment "group" "app" "dep-1"
        (mock.zeroDeployment, Some runs.timeout)) (snd runs.refetchFails) /\
  fst runs.refetchFails = Some (Some runs.timeout) /\
  count isDiscardDraft (snd runs.refetchFails) = 1 /\
  exists pre de,
    snd runs.refetchFails
    = pre
      ++ [EvDeployment "group" "app" "dep-1"
            (mock.zeroDeployment, Some runs.timeout);
          EvDiscardDraft (GroupID mock.to0) (AppID mock.to0) "draft-1" de]
      ++ (if isNil de then [] else [discardWarning]) /\
    count isDiscardDraft pre = 0.
Proof.
  split; [vm_compute; auto 10 | ].
  apply (@refetch_error_discards_once 5 (mock.UI false true "app")
           (mock.RealmClient ([], None) [] (Some runs.gone) None
              (mock.deployment "dep-1" DeploymentStatusCreated)
              [mock.deployment "dep-1" DeploymentStatusPending;
               (mock.zeroDeployment, Some runs.timeout)])
           mock.to0 "draft-1" []);
    [reflexivity | vm_compute; auto 10].
Defined.

(** C3, as the claim states it, fails: a deployment that ends Failed makes
    deployDraftAndWait return nil and print the completion message, which is
    just what the caller gets for a deployment that ends Successful. *)
Lemma failed_status_is_not_reported :
  In DeploymentStatusFailed (observed (snd runs.deploymentFails)) /\
  fst runs.deploymentFails = Some None /\
  fst runs.deploymentFails = fst runs.deploymentSucceeds /\
  filter (fun e => negb (isRefetch e)) (snd runs.deploymentFails)
  = filter (fun e => negb (isRefetch e)) (snd runs.deploymentSucceeds).
Proof.
  split; [vm_compute; auto | ].
  split; [reflexivity | ].
  split; reflexivity.
Qed.

Lemma failed_deployment_ends_poll_witness :
  In DeploymentStatusFailed (observed (snd runs.deploymentFails)) /\
  fst runs.deploymentFails = Some None /\
  count isDiscardDraft (snd runs.deploymentFails) = 0 /\
  exists pre sts,
    snd runs.deploymentFails = pre ++ [deploymentComplete] /\
    observed (snd runs.deploymentFails) = sts ++ [DeploymentStatusFailed] /\
    ~ In DeploymentStatusFailed sts.
Proof.
  split; [vm_compute; auto | ].
  apply (@failed_deployment_ends_poll 5 (mock.UI false true "app")
           (mock.RealmClient ([], None) [] None None
              (mock.deployment "dep-1" DeploymentStatusCreated)
              [mock.deployment "dep-1" DeploymentStatusFailed])
           mock.to0 "draft-1" []);
    [reflexivity | vm_compute; auto].
Defined.

(** C4.  A run of deployDraftAndWait that ends in success has re-fetched the
    status once for every in-flight status it saw and stopped at the first
    status outside Created and Pending, without any DiscardDraft call.  For
    the statuses Created (from DeployDraft), Pending, Pending, Successful
    that is exactly three re-fetches, then success. *)
Theorem poll_while_in_flight :
  (forall fuel ui c to draftID h tr,
      run (push.deployDraftAndWait fuel ui c to draftID) h = (Some None, tr) ->
      exists sts last,
        observed tr = sts ++ [last] /\
        Forall (fun s => push.inFlight s = true) sts /\
        push.inFlight last = false /\
        count isRefetch tr = length sts /\
        count isDiscardDraft tr = 0) /\
  (forall fuel ui c to draftID h d0 d1 d2 d3,
      let e0 := EvDeployDraft (GroupID to) (AppID to) draftID (d0, None) in
      let e1 := EvDeployment (GroupID to) (AppID to) (Deployment_ID d0)
                             (d1, None) in
      let e2 := EvDeployment (GroupID to) (AppID to) (Deployment_ID d1)
                             (d2, None) in
      let e3 := EvDeployment (GroupID to) (AppID to) (Deployment_ID d2)
                             (d3, None) in
      DeployDraftFn c h (GroupID to) (AppID to) draftID = (d0, None) ->
      Status d0 = DeploymentStatusCreated ->
      DeploymentFn c (h ++ [e0]) (GroupID to) (AppID to) (Deployment_ID d0)
      = (d1, None) ->
      Status d1 = DeploymentStatusPending ->
      DeploymentFn c (h ++ [e0; e1]) (GroupID to) (AppID to)
                   (Deployment_ID d1) = (d2, None) ->
      Status d2 = DeploymentStatusPending ->
      DeploymentFn c (h ++ [e0; e1; e2]) (GroupID to) (AppID to)
                   (Deployment_ID d2) = (d3, None) ->
      Status d3 = DeploymentStatusSuccessful ->
      3 <= fuel ->
      let tr := [e0; e1; e2; e3; deploymentComplete] in
      run (push.deployDraftAndWait fuel ui c to draftID) h = (Some None, tr) /\
      count isRefetch tr = 3 /\
      count isDiscardDraft tr = 0).
Proof.
  split.
  - intros fuel ui c to draftID h tr Hrun.
    apply deployDraftAndWait_spec in Hrun.
    inversion Hrun as [ | dep0 oks last Hp Hl | | ]; subst.
    destruct (polled_observed Hp) as (sts & Hs & Hall & Hlen).
    exists sts, (Status last).
    rewrite observed_submit, observed_app. simpl (observed [_]).
    rewrite app_nil_r.
    repeat split; try assumption.
    + change (count isRefetch
                ([EvDeployDraft (GroupID to) (AppID to) draftID (dep0, None)]
                 ++ oks ++ [deploymentComplete]) = length sts).
      rewrite !count_app, (polled_refetches Hp), Hlen.
      unfold count. simpl. lia.
    + change (count isDiscardDraft
                ([EvDeployDraft (GroupID to) (AppID to) draftID (dep0, None)]
                 ++ oks ++ [deploymentComplete]) = 0).
      rewrite !count_app, (count_polled_discard Hp). reflexivity.
  - intros fuel ui c to draftID h d0 d1 d2 d3 e0 e1 e2 e3
           H0 S0 H1 S1 H2 S2 H3 S3 Hfuel tr.
    split; [ | split; reflexivity].
    assert (Hloop : push.waitForDeployment fuel ui c to draftID d0 (h ++ [e0])
                    = (Return None, [e1; e2; e3])).
    { destruct fuel as [ | [ | [ | fuel]]]; try lia.
      erewrite waitForDeployment_step;
        [ | apply inFlight_Created, S0 | exact H1].
      fold e1. rewrite <- app_assoc. simpl (_ ++ _).
      erewrite waitForDeployment_step;
        [ | apply inFlight_Pending, S1 | exact H2].
      fold e2. rewrite <- app_assoc. simpl (_ ++ _).
      erewrite waitForDeployment_step;
        [ | apply inFlight_Pending, S2 | exact H3].
      fold e3. rewrite waitForDeployment_stop; [reflexivity | ].
      rewrite S3. reflexivity. }
    unfold run, push.deployDraftAndWait, bind. simpl.
    unfold seq at 1. unfold DeployDraft, perform. rewrite H0. simpl.
    unfold seq at 1. unfold call. fold e0. rewrite Hloop. reflexivity.
Qed.

Lemma poll_while_in_flight_witness :
  let tr :=
    [EvDeployDraft "group" "app" "draft-1"
       (mock.deployment "dep-1" DeploymentStatusCreated);
     EvDeployment "group" "app" "dep-1"
       (mock.deployment "dep-1" DeploymentStatusPending);
     EvDeployment "group" "app" "dep-1"
       (mock.deployment "dep-1" DeploymentStatusPending);
     EvDeployment "group" "app" "dep-1"
       (mock.deployment "dep-1" DeploymentStatusSuccessful);
     deploymentComplete] in
  run (push.deployDraftAndWait 3 (mock.UI false true "app") runs.fourStatuses
         mock.to0 "draft-1") [] = (Some None, tr) /\
  count isRefetch tr = 3 /\
  count isDiscardDraft tr = 0.
Proof.
  apply (proj2 poll_while_in_flight 3 (mock.UI false true "app")
           runs.fourStatuses mock.to0 "draft-1" []
           (mkAppDeployment "dep-1" DeploymentStatusCreated)
           (mkAppDeployment "dep-1" DeploymentStatusPending)
           (mkAppDeployment "dep-1" DeploymentStatusPending)
           (mkAppDeployment "dep-1" DeploymentStatusSuccessful));
    try reflexivity; lia.
Defined.

(** ** createNewDraft *)

Lemma Forall_review_nil : Forall reviewEvent [].
Proof. constructor. Qed.

Lemma createNewDraft_spec pkg ui c to h r tr :
  run (push.createNewDraft pkg ui c to) h = (r, tr) ->
  exists res, r = Some res /\ drafting pkg to res tr.
Proof.
  intros H. run_exec H. unfold push.createNewDraft in E.
  exec never E; injection H as <- <-; eexists; (split; [reflexivity | ]).
  all: try solve [apply drafting_created].
  all: try solve [apply drafting_fatal; assumption].
  all: try solve [apply (@drafting_discard_failed pkg to _ _ _ []);
                  [assumption | constructor]].
  all: try solve [apply (@drafting_recreated pkg to _ _ _ []);
                  [assumption | constructor]].
  all: try solve [match goal with
                  | |- drafting _ _ _ (?a :: ?b :: ?x :: ?y :: ?z :: ?l) =>
                      change (a :: b :: x :: y :: z :: l)
                        with (a :: b :: [x; y; z] ++ l)
                  end;
                  first [ apply drafting_discard_failed
                        | apply drafting_recreated ];
                  [assumption | repeat constructor]].
  all: apply drafting_aborted; [assumption | repeat constructor].
Qed.

Lemma conflict_inv pkg err :
  push.notDraftAlreadyExists pkg err = false ->
  exists msg, err = ServerError (ErrCodeDraftAlreadyExists pkg) msg.
Proof.
  destruct err as [code msg | s]; simpl; [ | discriminate].
  intros H. apply negb_false_iff, String.eqb_eq in H. subst code.
  exists msg. reflexivity.
Qed.

Lemma review_no_discard review g a i de :
  Forall reviewEvent review -> ~ In (EvDiscardDraft g a i de) review.
Proof.
  intros Hall Hin. rewrite Forall_forall in Hall. exact (Hall _ Hin).
Qed.

Lemma review_no_createDraft review g a r :
  Forall reviewEvent review -> ~ In (EvCreateDraft g a r) review.
Proof.
  intros Hall Hin. rewrite Forall_forall in Hall. exact (Hall _ Hin).
Qed.

Lemma review_counts review :
  Forall reviewEvent review ->
  count isCreateDraft review = 0 /\ count isDiscardDraft review = 0.
Proof.
  unfold count. induction 1 as [ | e l He Hl [IH1 IH2]]; [split; reflexivity | ].
  destruct e; simpl in He |- *; try contradiction; auto.
Qed.

(** C2.  createNewDraft always returns, after at most two CreateDraft calls
    and at most one DiscardDraft call.  A DiscardDraft call happens only
    after a first CreateDraft failed with the draft-already-exists code and
    the existing draft was fetched, and it discards that draft; if it fails,
    its error is returned and nothing else is called; if it succeeds,
    CreateDraft is called once more and its draft and error are what is
    returned, nothing being called after it.  A CreateDraft failure with any
    other code ends the run with that error. *)
Theorem conflict_recovery pkg ui c to h r tr :
  run (push.createNewDraft pkg ui c to) h = (r, tr) ->
  (count isCreateDraft tr <= 2 /\ count isDiscardDraft tr <= 1) /\
  (forall g a i de,
      In (EvDiscardDraft g a i de) tr ->
      exists d msg existing review post,
        tr = EvCreateDraft (GroupID to) (AppID to)
               (d, Some (ServerError (ErrCodeDraftAlreadyExists pkg) msg))
             :: EvDraft (GroupID to) (AppID to) (existing, None)
             :: review
             ++ EvDiscardDraft (GroupID to) (AppID to) (Draft_ID existing) de
             :: post /\
        Forall reviewEvent review /\
        g = GroupID to /\ a = AppID to /\ i = Draft_ID existing /\
        count isDiscardDraft tr = 1 /\
        match de with
        | Some e =>
            post = [] /\ r = Some (push.zeroAppDraft, false, Some e)
        | None =>
            exists draft draftErr,
              post = [EvCreateDraft (GroupID to) (AppID to) (draft, draftErr)]
              /\ r = Some (draft, true, draftErr)
              /\ count isCreateDraft tr = 2
        end) /\
  (forall g a d err,
      In (EvCreateDraft g a (d, Some err)) tr ->
      push.notDraftAlreadyExists pkg err = true ->
      exists pre draft proceed,
        tr = pre ++ [EvCreateDraft g a (d, Some err)] /\
        r = Some (draft, proceed, Some err)).
Proof.
  intros Hrun. apply createNewDraft_spec in Hrun.
  destruct Hrun as (res & -> & Hd).
  destruct Hd as [draft | d err Herr | d err review res Herr Hrev
                 | d err existing review e Herr Hrev
                 | d err existing review draft draftErr Herr Hrev].
  - split; [unfold count; simpl; lia | ]. split.
    + intros g a i de [Hin | []]. discriminate.
    + intros g a d err [Hin | []]. discriminate.
  - split; [unfold count; simpl; lia | ]. split.
    + intros g a i de [Hin | []]. discriminate.
    + intros g a d' err' [Hin | []] _. injection Hin as <- <- <- <-.
      exists [], push.zeroAppDraft, false. split; reflexivity.
  - destruct (review_counts Hrev) as [Hc1 Hc2]. split; [ | split].
    + change (EvCreateDraft (GroupID to) (AppID to) (d, Some err) :: review)
        with ([EvCreateDraft (GroupID to) (AppID to) (d, Some err)] ++ review).
      rewrite !count_app, Hc1, Hc2. unfold count; simpl; lia.
    + intros g a i de [Hin | Hin]; [discriminate | ].
      exfalso. eapply review_no_discard; eassumption.
    + intros g a d' err' [Hin | Hin] Hother.
      * injection Hin as <- <- <- <-. congruence.
      * exfalso. eapply review_no_createDraft; eassumption.
  - destruct (review_counts Hrev) as [Hc1 Hc2].
    destruct (conflict_inv _ _ Herr) as (msg & ->).
    assert (Hcd : count isDiscardDraft
              (EvCreateDraft (GroupID to) (AppID to)
                 (d, Some (ServerError (ErrCodeDraftAlreadyExists pkg) msg))
               :: EvDraft (GroupID to) (AppID to) (existing, None)
               :: review
               ++ [EvDiscardDraft (GroupID to) (AppID to) (Draft_ID existing)
                     (Some e)]) = 1).
    { change (count isDiscardDraft
                ([EvCreateDraft (GroupID to) (AppID to)
                    (d, Some (ServerError (ErrCodeDraftAlreadyExists pkg) msg));
                  EvDraft (GroupID to) (AppID to) (existing, None)]
                 ++ review
                 ++ [EvDiscardDraft (GroupID to) (AppID to)
                       (Draft_ID existing) (Some e)]) = 1).
      rewrite !count_app, Hc2. reflexivity. }
    split; [ | split].
    + rewrite Hcd. split; [ | lia].
      change (count isCreateDraft
                ([EvCreateDraft (GroupID to) (AppID to)
                    (d, Some (ServerError (ErrCodeDraftAlreadyExists pkg) msg));
                  EvDraft (GroupID to) (AppID to) (existing, None)]
                 ++ review
                 ++ [EvDiscardDraft (GroupID to) (AppID to)
                       (Draft_ID existing) (Some e)]) <= 2).
      rewrite !count_app, Hc1. unfold count; simpl; lia.
    + intros g a i de [Hin | [Hin | Hin]]; try discriminate.
      apply in_app_or in Hin. destruct Hin as [Hin | [Hin | []]].
      * exfalso. eapply review_no_discard; eassumption.
      * injection Hin as <- <- <- <-.
        exists d, msg, existing, review, [].
        repeat split; auto.
    + intros g a d' err' [Hin | [Hin | Hin]] Hother; try discriminate.
      * injection Hin as <- <- <- <-. congruence.
      * apply in_app_or in Hin. destruct Hin as [Hin | [Hin | []]].
        -- exfalso. eapply review_no_createDraft; eassumption.
        -- discriminate.
  - destruct (review_counts Hrev) as [Hc1 Hc2].
    destruct (conflict_inv _ _ Herr) as (msg & ->).
    set (first := EvCreateDraft (GroupID to) (AppID to)
                    (d, Some (ServerError (ErrCodeDraftAlreadyExists pkg) msg))).
    set (fetch := EvDraft (GroupID to) (AppID to) (existing, None)).
    set (tail := [EvDiscardDraft (GroupID to) (AppID to) (Draft_ID existing)
                    None;
                  EvCreateDraft (GroupID to) (AppID to) (draft, draftErr)]).
    assert (Hcd : count isDiscardDraft (first :: fetch :: review ++ tail) = 1).
    { change (count isDiscardDraft ([first; fetch] ++ review ++ tail) = 1).
      rewrite !count_app, Hc2. reflexivity. }
    assert (Hcc : count isCreateDraft (first :: fetch :: review ++ tail) = 2).
    { change (count isCreateDraft ([first; fetch] ++ review ++ tail) = 2).
      rewrite !count_app, Hc1. reflexivity. }
    split; [rewrite Hcd, Hcc; lia | ]. split.
    + intros g a i de [Hin | [Hin | Hin]]; try discriminate.
      apply in_app_or in Hin. destruct Hin as [Hin | [Hin | [Hin | []]]].
      * exfalso. eapply review_no_discard; eassumption.
      * injection Hin as <- <- <- <-.
        exists d, msg, existing, review,
          [EvCreateDraft (GroupID to) (AppID to) (draft, draftErr)].
        repeat split; auto. exists draft, draftErr. auto.
      * discriminate.
    + intros g a d' err' [Hin | [Hin | Hin]] Hother; try discriminate.
      * injection Hin as <- <- <- <-. simpl in Hother.
        rewrite String.eqb_refl in Hother. discriminate.
      * apply in_app_or in Hin. destruct Hin as [Hin | [Hin | [Hin | []]]].
        -- exfalso. eapply review_no_createDraft; eassumption.
        -- discriminate.
        -- injection Hin as <- <- <- <-.
           exists (first :: fetch :: review
                   ++ [EvDiscardDraft (GroupID to) (AppID to)
                         (Draft_ID existing) None]), draft, true.
           split; [ | reflexivity].
           simpl. rewrite <- app_assoc. reflexivity.
Qed.

Lemma conflict_recovery_witness :
  In (EvDiscardDraft "group" "app" "existing" None)
     (snd runs.conflictRecovered) /\
  exists d msg existing review post,
    snd runs.conflictRecovered
    = EvCreateDraft "group" "app"
        (d, Some (ServerError (ErrCodeDraftAlreadyExists mock.pkg) msg))
      :: EvDraft "group" "app" (existing, None)
      :: review
      ++ EvDiscardDraft "group" "app" (Draft_ID existing) None :: post /\
    Forall reviewEvent review /\
    "group" = "group" /\ "app" = "app" /\ "existing" = Draft_ID existing /\
    count isDiscardDraft (snd runs.conflictRecovered) = 1 /\
    exists draft draftErr,
      post = [EvCreateDraft "group" "app" (draft, draftErr)] /\
      fst runs.conflictRecovered = Some (draft, true, draftErr) /\
      count isCreateDraft (snd runs.conflictRecovered) = 2.
Proof.
  split; [vm_compute; auto 10 | ].
  apply (proj1 (proj2
           (@conflict_recovery mock.pkg (mock.UI true true "app")
              runs.conflictClient mock.to0 [] _ _ eq_refl))).
  vm_compute; auto 10.
Defined.

(** ** What statements emit *)

Lemma emits_bind R A B (P : event -> Prop) (m : Stmt R A) (k : A -> Stmt R B) :
  emits P m -> (forall a, emits P (k a)) -> emits P (bind m k).
Proof.
  intros Hm Hk h f d H. apply seq_inv in H.
  destruct H as (f1 & d1 & H1 & H). specialize (Hm _ _ _ H1).
  destruct f1 as [a | r | ].
  - destruct H as (d2 & H2 & ->). apply Forall_app. split; [assumption | ].
    exact (Hk _ _ _ _ H2).
  - destruct H as [_ ->]. assumption.
  - destruct H as [_ ->]. assumption.
Qed.

Lemma emits_perform R T (P : event -> Prop) (answer : history -> T) ev :
  (forall r, P (ev r)) -> emits P (@perform R T answer ev).
Proof.
  intros Hev h f d H. unfold perform in H. injection H as <- <-.
  constructor; [apply Hev | constructor].
Qed.

Lemma emits_next R A (P : event -> Prop) (a : A) : emits P (@next R A a).
Proof. intros h f d H. injection H as <- <-. constructor. Qed.

Lemma emits_ret R A (P : event -> Prop) (a : A) :
  emits P (ret a : Stmt R A).
Proof. apply emits_next. Qed.

Lemma emits_return R A (P : event -> Prop) (r : R) :
  emits P (@return_ R A r).
Proof. intros h f d H. injection H as <- <-. constructor. Qed.

Lemma emits_skip R (P : event -> Prop) : emits P (@skip R).
Proof. apply emits_next. Qed.

Lemma emits_spin R A (P : event -> Prop) : emits P (@spin R A).
Proof. intros h f d H. injection H as <- <-. constructor. Qed.

Lemma emits_Print R (P : event -> Prop) ui logs :
  P (EvPrint logs) -> emits P (@Print R ui logs).
Proof.
  intros Hp h f d H. injection H as <- <-. constructor; [assumption | constructor].
Qed.

Lemma emits_Remove R (P : event -> Prop) path :
  P (EvRemove path) -> emits P (@Remove R path).
Proof.
  intros Hp h f d H. injection H as <- <-. constructor; [assumption | constructor].
Qed.

Lemma emits_call R R' (P : event -> Prop) (body : Stmt R R) :
  emits P body -> emits P (@call R R' body).
Proof.
  intros Hb h f d H. apply call_inv in H. destruct H as (f0 & H & _).
  exact (Hb _ _ _ H).
Qed.

Lemma emits_defer R A (P : event -> Prop) (cleanup : Stmt R unit)
    (rest : Stmt R A) :
  emits P cleanup -> emits P rest -> emits P (defer cleanup rest).
Proof.
  intros Hc Hr h f d H. unfold defer in H.
  destruct (rest h) as [f0 d0] eqn:E. specialize (Hr _ _ _ E).
  destruct (cleanup (h ++ d0)) as [fc dc] eqn:Ec. specialize (Hc _ _ _ Ec).
  destruct f0; simpl in H; injection H as <- <-; try assumption;
    apply Forall_app; split; assumption.
Qed.

Lemma emits_forEach R A (P : event -> Prop) (xs : list A)
    (body : A -> Stmt R unit) :
  (forall x, emits P (body x)) -> emits P (forEach xs body).
Proof.
  intros Hb. induction xs as [ | x xs IH]; simpl.
  - apply emits_skip.
  - apply emits_bind; [apply Hb | intros _; exact IH].
Qed.

Lemma emits_impl R A (P Q : event -> Prop) (m : Stmt R A) :
  (forall e, P e -> Q e) -> emits P m -> emits Q m.
Proof.
  intros HPQ Hm h f d H. eapply Forall_impl; [exact HPQ | ].
  exact (Hm _ _ _ H).
Qed.

(** Syntax-directed proof of [emits P m]; [sub] settles the calls of the
    package's own functions. *)
Ltac emits_leaf := cbn; first [ exact I | reflexivity | assumption | tauto ].

Ltac emits_with sub :=
  repeat
    (cbn [negb isNil andb orb];
     lazymatch goal with
     | |- emits _ (bind _ _) => apply emits_bind; [ | intros ? ]
     | |- emits _ (match ?x with _ => _ end) =>
         let y := scrutinee x in
         first
           [ match goal with E : y = _ |- _ => rewrite E end
           | destruct y eqn:? ]
     | |- emits _ (perform _ _) => apply emits_perform; intros ?; emits_leaf
     | |- emits _ (next _) => apply emits_next
     | |- emits _ (ret _) => apply emits_ret
     | |- emits _ (return_ _) => apply emits_return
     | |- emits _ skip => apply emits_skip
     | |- emits _ spin => apply emits_spin
     | |- emits _ (Print _ _) => apply emits_Print; emits_leaf
     | |- emits _ (Remove _) => apply emits_Remove; emits_leaf
     | |- emits _ (defer _ _) => apply emits_defer
     | |- emits _ (forEach _ _) => apply emits_forEach; intros ?
     | |- emits _ (call (push.createNewApp _ _ _ _ _ _ _)) =>
         apply emits_call; sub
     | |- emits _ (call (push.createNewDraft _ _ _ _)) =>
         apply emits_call; sub
     | |- emits _ (call (push.deployDraftAndWait _ _ _ _ _)) =>
         apply emits_call; sub
     | |- emits _ (call (push.diffDraft _ _ _ _)) =>
         apply emits_call; unfold push.diffDraft
     | |- emits _ (call _) => apply emits_call
     | |- emits _ _ =>
         progress unfold CreateApp, Diff, HostingAssets, CreateDraft, Draft,
           DiscardDraft, DiffDraft, Import, ImportDependencies, DeployDraft,
           Deployment, HostingCacheInvalidate, Confirm, AskOne, LoadApp,
           resolveTo, ResolveGroupID, ResolveApp, FindAppHosting, Diffs,
           FindAppDependencies, PrepareUpload, WriteConfig,
           UploadHostingAssets
     end).

Lemma emits_run R (P : event -> Prop) (body : Stmt R R) h r d :
  emits P body -> run body h = (r, d) -> Forall P d.
Proof.
  intros Hb H. unfold run in H. destruct (body h) as [f d0] eqn:E.
  specialize (Hb _ _ _ E). destruct f; injection H as <- <-; assumption.
Qed.

(** The events of the functions of package push. *)
Lemma createNewDraft_emits pkg ui c to :
  emits draftEvent (push.createNewDraft pkg ui c to).
Proof.
  unfold push.createNewDraft. emits_with idtac.
Qed.

Lemma waitForDeployment_emits fuel ui c to draftID :
  forall deployment,
    emits deployEvent (push.waitForDeployment fuel ui c to draftID deployment).
Proof.
  induction fuel as [ | fuel IH]; intros deployment;
    cbn [push.waitForDeployment].
  - emits_with idtac.
  - destruct (push.inFlight (Status deployment)); [ | apply emits_return].
    apply emits_bind; [unfold Deployment; emits_with idtac | ].
    intros [dep err]. destruct err; cbn [negb isNil]; [emits_with idtac | ].
    apply IH.
Qed.

Lemma deployDraftAndWait_emits fuel ui c to draftID :
  emits deployEvent (push.deployDraftAndWait fuel ui c to draftID).
Proof.
  unfold push.deployDraftAndWait.
  emits_with idtac. apply waitForDeployment_emits.
Qed.

Lemma createNewApp_emits pkg w ui c appDirectory groupID appData :
  emits appEvent (push.createNewApp pkg w ui c appDirectory groupID appData).
Proof.
  unfold push.createNewApp. emits_with idtac.
Qed.

Lemma createNewDraft_returns pkg ui c to h d :
  run (push.createNewDraft pkg ui c to) h = (None, d) -> False.
Proof.
  intros H. apply createNewDraft_spec in H. destruct H as (res & H & _).
  discriminate.
Qed.

Lemma createNewApp_returns pkg w ui c appDirectory groupID appData h d :
  run (push.createNewApp pkg w ui c appDirectory groupID appData) h = (None, d)
  -> False.
Proof.
  intros H. run_exec H. unfold push.createNewApp in E.
  exec never E; discriminate.
Qed.

(** ** Auto-confirm *)







(** ** Leaves of an execution *)

Ltac call_facts :=
  repeat
    match goal with
    | H : run (push.createNewApp _ _ _ _ _ _ _) _ = (None, _) |- _ =>
        exfalso; eapply createNewApp_returns; exact H
    | H : run (push.createNewDraft _ _ _ _) _ = (None, _) |- _ =>
        exfalso; eapply createNewDraft_returns; exact H
    | H : run (push.createNewApp ?p ?w ?u ?c ?x ?y ?z) _ = (Some _, ?d) |- _ =>
        lazymatch goal with
        | _ : Forall appEvent d |- _ => fail
        | _ =>
            pose proof
              (@emits_run _ _ _ _ _ _ (createNewApp_emits p w u c x y z) H)
        end
    | H : run (push.createNewDraft ?p ?u ?c ?t) _ = (Some _, ?d) |- _ =>
        lazymatch goal with
        | _ : Forall draftEvent d |- _ => fail
        | _ =>
            pose proof
              (@emits_run _ _ _ _ _ _ (createNewDraft_emits p u c t) H)
        end
    | H : run (push.deployDraftAndWait ?n ?u ?c ?t ?i) _ = (_, ?d) |- _ =>
        lazymatch goal with
        | _ : Forall deployEvent d |- _ => fail
        | _ =>
            pose proof
              (@emits_run _ _ _ _ _ _ (deployDraftAndWait_emits n u c t i) H)
        end
    end.

(** [H : In e l] for a trace [l] made of events and of runs of callees. *)
Ltac in_inv H :=
  repeat
    first
      [ contradiction
      | discriminate H
      | match type of H with
        | In _ (_ :: _) => destruct H as [H | H]
        | In _ (_ ++ _) => apply in_app_or in H; destruct H as [H | H]
        | In _ [] => destruct H
        | In ?e ?d =>
            match goal with
            | HF : Forall ?P d |- _ =>
                let HF' := fresh "HF" in
                pose proof HF as HF'; rewrite Forall_forall in HF';
                apply HF' in H; clear HF'; cbn in H;
                unfold confirmPrompt, createPrompt, discardPrompt in H
            end
        | ?x <> ?x => exfalso; apply H; reflexivity
        | ?x = ?x => clear H
        | _ = _ => progress (injection H; clear H; intros; subst)
        end ].

(** The end of a path: the result and the trace of the run are known. *)
Ltac leaf H :=
  cbv beta iota in H; rewrite ?app_nil_r in H; cbn [app] in H;
  injection H as <- <-; call_facts.

Lemma run_trace R (f : flow R R) (t : list event) r tr :
  match f with
  | Next v | Return v => (Some v, t)
  | Spin => (None, t)
  end = (r, tr) ->
  tr = t.
Proof. destruct f; intros H; injection H as _ <-; reflexivity. Qed.

(** The trace of a run that is paused at [E]. *)
Ltac paused H E :=
  apply run_trace in H; rewrite ?app_nil_r in H; cbn [app] in H;
  subst; clear E; call_facts.

(** [Forall P l] for such a trace, [P] being decided by the kind of event. *)
Ltac forall_events :=
  repeat
    first
      [ apply Forall_nil
      | apply Forall_cons; [cbn; first [reflexivity | exact I | tauto] | ]
      | apply Forall_app; split
      | match goal with
        | HF : Forall _ ?d |- Forall _ ?d =>
            let e := fresh "e" in
            let He := fresh "He" in
            refine (Forall_impl _ _ HF); intros e He;
            destruct e; cbn in He |- *;
            first [ contradiction | reflexivity | exact I | tauto
                  | discriminate ]
        end ].

Lemma endsWith_one x : endsWith [x] x.
Proof. exists []. reflexivity. Qed.

Lemma endsWith_cons a l x : endsWith l x -> endsWith (a :: l) x.
Proof. intros [pre ->]. exists (a :: pre). reflexivity. Qed.

Lemma endsWith_app l1 l2 x : endsWith l2 x -> endsWith (l1 ++ l2) x.
Proof. intros [pre ->]. exists (l1 ++ pre). apply app_assoc. Qed.

Ltac ends_with :=
  repeat
    first [ apply endsWith_one | apply endsWith_cons | apply endsWith_app ].

(** Calls of the package's functions inside the rest of a statement. *)
Ltac emits_sub :=
  eapply emits_impl;
  [ | first [ apply createNewDraft_emits
            | apply deployDraftAndWait_emits
            | apply createNewApp_emits ] ];
  let e := fresh "e" in
  let He := fresh "He" in
  intros e He; destruct e; cbn in He |- *;
  first [ contradiction | exact I | reflexivity | tauto | discriminate
        | solve [subst; discriminate] ].

(** What is left to run in [H : m h = (f, d)] emits only [P]. *)
Tactic Notation "emits_of" constr(P) hyp(H) :=
  lazymatch type of H with
  | ?m ?h = (?f, ?d) =>
      let HE := fresh "HE" in
      assert (HE : emits P m);
      [ emits_with emits_sub | specialize (HE h f d H) ]
  end.

(** The hosting diff of a run, read off its trace. *)
Ltac host_inv H :=
  unfold hostingDiffOf in H;
  try match goal with
      | E : IncludeHosting _ = _ |- _ => rewrite E in H
      end;
  cbv beta iota in H;
  lazymatch type of H with
  | if ?c then _ else _ => destruct c
  | _ => idtac
  end;
  first [ destruct H as (? & ? & ? & ? & H)
        | destruct H as (? & ? & ? & H) ];
  in_inv H.

(** ** The push handler *)

(** Pause at the test for an empty diff. *)
Ltac at_check H :=
  lazymatch type of H with
  | (if andb (andb (Nat.eqb _ _) _) _ then _ else _) _ = _ => idtac
  end.

(** C5.  A push whose app diff is empty, without the dependency flag and
    with a hosting diff of size zero, ends with the message that there is
    nothing to do and returns nil; no CreateDraft, Import, DeployDraft,
    DiscardDraft, ImportDependencies, UploadHostingAssets or
    HostingCacheInvalidate call is made. *)
Theorem identical_app_is_left_alone
  pkg w fuel cmd profile ui clients h r tr g a data hd :
  run (push.Handler pkg w fuel cmd profile ui clients) h = (r, tr) ->
  In (EvDiff g a data ([], None)) tr ->
  IncludeDependencies (push.cmd_inputs cmd) = false ->
  hostingDiffOf cmd tr hd ->
  Size hd = 0 ->
  r = Some None /\
  Forall (fun e => mutating e = false) tr /\
  endsWith tr nothingToDo.
Proof.
  intros Hrun Hdiff Hdep Hhost Hsize.
  run_exec Hrun. unfold push.Handler in E.
  exec at_check E.
  all: try (lazymatch type of Hrun with (_, _) = _ => idtac end; leaf Hrun;
            solve [ in_inv Hdiff | host_inv Hhost ]).
  all: match type of E with
       | (if ?c then _ else _) _ = _ =>
           revert E; destruct c eqn:Hc; intros E;
           [ exec never E; leaf Hrun;
             split; [reflexivity | split; [forall_events | ends_with]]
           | emits_of afterDiffs E; destruct f; leaf Hrun; exfalso;
             in_inv Hdiff; host_inv Hhost;
             rewrite Hdep, ?Hsize in Hc; cbn in Hc; discriminate ]
       end.
Qed.

Lemma identical_app_is_left_alone_witness :
  In (EvDiff "group" "app" (Some runs.namedData) ([], None))
     (snd runs.pushIdentical) /\
  hostingDiffOf runs.plainPush (snd runs.pushIdentical) zeroHostingDiffs /\
  fst runs.pushIdentical = Some None /\
  Forall (fun e => mutating e = false) (snd runs.pushIdentical) /\
  endsWith (snd runs.pushIdentical) nothingToDo.
Proof.
  assert (Hdiff : In (EvDiff "group" "app" (Some runs.namedData) ([], None))
                     (snd runs.pushIdentical)) by (vm_compute; auto 10).
  assert (Hhost : hostingDiffOf runs.plainPush (snd runs.pushIdentical)
                                zeroHostingDiffs).
  { split; [reflexivity | ]. exists ".", (mkHosting ".").
    vm_compute; auto 10. }
  split; [exact Hdiff | ]. split; [exact Hhost | ].
  apply (@identical_app_is_left_alone mock.pkg runs.existingWorld 5
           runs.plainPush runs.profile runs.autoUI runs.noChange []
           (fst runs.pushIdentical) (snd runs.pushIdentical)
           "group" "app" (Some runs.namedData) zeroHostingDiffs);
    [reflexivity | exact Hdiff | reflexivity | exact Hhost | reflexivity].
Defined.

(** C6.  A push with the dry-run flag returns whatever the fuel, and all it
    does is load the local app, resolve the target, compute the diffs and
    print: no CreateApp, CreateDraft, Import, DeployDraft or any later call
    is made, and nothing is asked, whether the target app exists or not. *)
Theorem dry_run_only_diffs pkg w fuel cmd profile ui clients h r tr :
  DryRun (push.cmd_inputs cmd) = true ->
  run (push.Handler pkg w fuel cmd profile ui clients) h = (r, tr) ->
  (exists res, r = Some res) /\
  Forall dryRunEvent tr /\
  Forall (fun e => mutating e = false) tr.
Proof.
  intros Hdry Hrun. run_exec Hrun. unfold push.Handler in E.
  exec never E; leaf Hrun;
    (split; [eexists; reflexivity | split; forall_events]).
Qed.

Lemma dry_run_only_diffs_witness :
  (exists res, fst runs.pushDry = Some res) /\
  Forall dryRunEvent (snd runs.pushDry) /\
  Forall (fun e => mutating e = false) (snd runs.pushDry).
Proof.
  apply (@dry_run_only_diffs mock.pkg runs.existingWorld 5 runs.dryPush
           runs.profile runs.askingUI runs.oneChange []);
    reflexivity.
Defined.

(** [In e l] for an event that is there. *)
Ltac in_solve :=
  repeat
    first
      [ assumption
      | left; reflexivity
      | right
      | apply in_or_app; first [ left; assumption | right ] ].

Lemma cons_split (a : event) l pre rest :
  l = pre ++ rest -> a :: l = (a :: pre) ++ rest.
Proof. intros ->. reflexivity. Qed.

Lemma nil_split (l : list event) : l = [] ++ l.
Proof. reflexivity. Qed.

(** Split a trace at the first place that fits. *)
Ltac split_trace :=
  repeat first [ apply nil_split | apply cons_split ].

Lemma createNewApp_created
  pkg w ui c appDirectory groupID appData h newApp err d :
  run (push.createNewApp pkg w ui c appDirectory groupID appData) h
  = (Some (newApp, true, err), d) ->
  Exists (fun e => isCreateApp e = true) d.
Proof.
  intros H. run_exec H. unfold push.createNewApp in E.
  exec never E; cbv beta iota in H; try discriminate;
    injection H as <- <- <-; rewrite ?app_nil_r; cbn [app];
    repeat first [ apply Exists_cons_hd; reflexivity | apply Exists_cons_tl ].
Qed.


Ltac not_created Hno :=
  match goal with
  | H : run (push.createNewApp _ _ _ _ _ _ _) _ = (Some (_, true, _), _) |- _ =>
      exfalso; apply createNewApp_created in H;
      rewrite Forall_forall in Hno; rewrite Exists_exists in H;
      let e := fresh "e" in
      let Hin := fresh "Hin" in
      let He := fresh "He" in
      destruct H as (e & Hin & He);
      rewrite Hno in He; [discriminate | in_solve]
  end.



(** Pause before the confirmation of the changes. *)
Ltac at_confirm H :=
  lazymatch type of H with
  | bind (Confirm _ "Please confirm the changes shown above") _ _ = _ => idtac
  end.

Ltac lines_inv H :=
  unfold hostingLinesOf in H;
  try match goal with
      | E : diff_IncludeHosting _ = _ |- _ => rewrite E in H
      end;
  cbv beta iota in H;
  lazymatch type of H with
  | if ?c then _ else _ => destruct c
  | _ => idtac
  end;
  first [ destruct H as (? & ? & ? & ? & ? & H & ?); in_inv H | idtac ].

Lemma advisory_not_empty (l1 l2 : list string) :
  (length ((l1 ++ [advisory]) ++ l2) =? 0)%nat = false.
Proof.
  apply Nat.eqb_neq. rewrite !length_app. simpl. lia.
Qed.

Lemma advisory_not_empty' (l1 : list string) :
  (length (l1 ++ [advisory]) =? 0)%nat = false.
Proof.
  apply Nat.eqb_neq. rewrite !length_app. simpl. lia.
Qed.

Lemma app_diff_advisory pkg w cmd profile ui clients h r tr g a data
    appDiffs lines :
  diff_IncludeDependencies (app.cmd_inputs cmd) = true ->
  run (app.Handler pkg w cmd profile ui clients) h = (r, tr) ->
  In (EvDiff g a data (appDiffs, None)) tr ->
  hostingLinesOf pkg cmd tr lines ->
  r = Some None /\
  endsWith tr (EvPrint [diffLog (appDiffs ++ [advisory] ++ lines)]).
Proof.
  intros Hdep Hrun Hdiff Hlines.
  run_exec Hrun. unfold app.Handler in E. rewrite Hdep in E.
  fold advisory in E.
  exec never E; leaf Hrun.
  all: try solve [in_inv Hdiff].
  all: try solve [lines_inv Hlines].
  all: try match goal with
           | H : (length _ =? 0)%nat = true |- _ =>
               first [ rewrite advisory_not_empty in H
                     | rewrite advisory_not_empty' in H ]; discriminate H
           end.
  all: in_inv Hdiff; lines_inv Hlines; subst;
    (split; [reflexivity | ]);
    rewrite <- ?app_assoc, ?app_nil_r; ends_with.
Qed.

Lemma push_advisory pkg w fuel cmd profile ui clients h r tr g a data
    appDiffs hd :
  IncludeDependencies (push.cmd_inputs cmd) = true ->
  AutoConfirm ui = false ->
  run (push.Handler pkg w fuel cmd profile ui clients) h = (r, tr) ->
  Forall (fun e => isCreateApp e = false) tr ->
  In (EvDiff g a data (appDiffs, None)) tr ->
  hostingDiffOf cmd tr hd ->
  In (EvPrint [diffLog (appDiffs ++ [advisory] ++ Strings pkg hd)]) tr.
Proof.
  intros Hdep Hauto Hrun Hno Hdiff Hhost.
  run_exec Hrun. unfold push.Handler in E. fold advisory in E.
  exec at_confirm E.
  all: try (lazymatch type of Hrun with (_, _) = _ => idtac end; leaf Hrun;
            solve [ in_inv Hdiff | host_inv Hhost ]).
  all: try (lazymatch type of Hrun with (_, _) = _ => idtac end; leaf Hrun;
            first
              [ solve [not_created Hno]
              | in_inv Hdiff; host_inv Hhost; subst;
                rewrite ?Hdep, <- ?app_assoc; cbn [app]; unfold diffLog;
                solve [in_solve] ]).
  all: emits_of afterDiffs E.
  all: paused Hrun E.
  all: try solve [not_created Hno].
  all: in_inv Hdiff; host_inv Hhost; subst;
    rewrite ?Hdep, <- ?app_assoc; cbn [app]; unfold diffLog; solve [in_solve].
Qed.

(** C9.  With the dependency flag set, the diff output of [app diff] and of
    [push] is the list of app diff lines, then the one line
    "+ New function dependencies", then the hosting diff lines; no dependency
    is looked at to decide it.  [app diff] always shows that output; [push]
    shows it unless auto-confirm is set or the app was created in the run. *)
Theorem dependency_advisory_line :
  (forall pkg w cmd profile ui clients h r tr g a data appDiffs lines,
      diff_IncludeDependencies (app.cmd_inputs cmd) = true ->
      run (app.Handler pkg w cmd profile ui clients) h = (r, tr) ->
      In (EvDiff g a data (appDiffs, None)) tr ->
      hostingLinesOf pkg cmd tr lines ->
      r = Some None /\
      endsWith tr (EvPrint [diffLog (appDiffs ++ [advisory] ++ lines)])) /\
  (forall pkg w fuel cmd profile ui clients h r tr g a data appDiffs hd,
      IncludeDependencies (push.cmd_inputs cmd) = true ->
      AutoConfirm ui = false ->
      run (push.Handler pkg w fuel cmd profile ui clients) h = (r, tr) ->
      Forall (fun e => isCreateApp e = false) tr ->
      In (EvDiff g a data (appDiffs, None)) tr ->
      hostingDiffOf cmd tr hd ->
      In (EvPrint [diffLog (appDiffs ++ [advisory] ++ Strings pkg hd)]) tr).
Proof.
  split.
  - intros. eapply app_diff_advisory; eassumption.
  - intros. eapply push_advisory; eassumption.
Qed.

(** ** Failures after the draft is created *)

Lemma polled_submitted to dep oks last :
  polled to dep oks last -> Forall submitted oks.
Proof. induction 1; constructor; simpl; auto. Qed.

(** Either the submission of the draft failed, and that is all that
    happened, or nothing in the run is a failed submission. *)
Lemma deploy_cases fuel ui c to i h r d :
  run (push.deployDraftAndWait fuel ui c to i) h = (r, d) ->
  (exists dep e,
      r = Some (Some e) /\
      d = [EvDeployDraft (GroupID to) (AppID to) i (dep, Some e)]) \/
  Forall submitted d.
Proof.
  intros H. apply deployDraftAndWait_spec in H.
  destruct H as [dep e | dep0 oks last Hp Hl | dep0 oks last Hp Hl
                | dep0 oks last dep' e de Hp Hl].
  - left. exists dep, e. auto.
  - right. constructor; [exact I | ].
    apply Forall_app. split; [eapply polled_submitted; eassumption | ].
    repeat constructor.
  - right. constructor; [exact I | ]. eapply polled_submitted; eassumption.
  - right. constructor; [exact I | ].
    apply Forall_app. split; [eapply polled_submitted; eassumption | ].
    destruct de; repeat constructor.
Qed.

Lemma review_beforeDraft review :
  Forall reviewEvent review -> Forall beforeDraft review.
Proof.
  intros H. eapply Forall_impl; [ | exact H].
  intros e He. destruct e; simpl in He |- *; auto; contradiction.
Qed.

(** createNewDraft ends on the CreateDraft call that gave it a draft, or it
    got none. *)
Lemma draft_cases pkg ui c to h draft proceed err d :
  run (push.createNewDraft pkg ui c to) h = (Some (draft, proceed, err), d) ->
  (err = None /\ proceed = true /\
   exists mid,
     d = mid ++ [EvCreateDraft (GroupID to) (AppID to) (draft, None)] /\
     Forall beforeDraft mid) \/
  ((err <> None \/ proceed = false) /\ Forall beforeDraft d).
Proof.
  intros H. apply createNewDraft_spec in H.
  destruct H as (res & Hres & Hd). injection Hres as <-.
  inversion Hd as [draft' | d0 err0 Herr | d0 err0 review res Herr Hrev
                  | d0 err0 existing review e Herr Hrev
                  | d0 err0 existing review draft' draftErr Herr Hrev]; subst.
  - left. repeat split. exists []. split; [reflexivity | constructor].
  - right. split; [left; discriminate | repeat constructor].
  - right. split; [right; reflexivity | ].
    constructor; [exact I | apply review_beforeDraft; assumption].
  - right. split; [left; discriminate | ].
    constructor; [exact I | ]. constructor; [exact I | ].
    apply Forall_app. split; [apply review_beforeDraft; assumption | ].
    repeat constructor.
  - destruct err as [e | ].
    + right. split; [left; discriminate | ].
      constructor; [exact I | ]. constructor; [exact I | ].
      apply Forall_app. split; [apply review_beforeDraft; assumption | ].
      repeat constructor.
    + left. repeat split.
      exists (EvCreateDraft (GroupID to) (AppID to) (d0, Some err0)
              :: EvDraft (GroupID to) (AppID to) (existing, None)
              :: review
              ++ [EvDiscardDraft (GroupID to) (AppID to) (Draft_ID existing)
                    None]).
      split; [simpl; rewrite <- app_assoc; reflexivity | ].
      constructor; [exact I | ]. constructor; [exact I | ].
      apply Forall_app. split; [apply review_beforeDraft; assumption | ].
      repeat constructor.
Qed.

Lemma quiet_not_early e ev : quiet ev -> earlyFailure e ev -> False.
Proof.
  destruct ev; simpl; try tauto;
    repeat match goal with
           | |- context [match ?r with _ => _ end] => destruct r
           end;
    tauto.
Qed.

Lemma quiet_draftKept A (f : flow (option error) A) d :
  Forall quiet d -> draftKept f d.
Proof.
  intros Hq g a draft e ev Hcd _ _. exfalso.
  rewrite Forall_forall in Hq. exact (Hq _ Hcd).
Qed.

Lemma keepsDraft_emits A (m : Stmt (option error) A) :
  emits quiet m -> keepsDraft m.
Proof. intros Hm h f d H. apply quiet_draftKept. exact (Hm _ _ _ H). Qed.

Lemma draftKept_app A (f : flow (option error) A) d1 d2 :
  Forall quiet d1 -> draftKept f d2 -> draftKept f (d1 ++ d2).
Proof.
  intros Hq Hk g x draft e ev Hcd Hin Hf.
  rewrite Forall_forall in Hq.
  apply in_app_or in Hcd. destruct Hcd as [Hcd | Hcd];
    [destruct (Hq _ Hcd) | ].
  apply in_app_or in Hin. destruct Hin as [Hin | Hin];
    [destruct (@quiet_not_early e ev (Hq _ Hin) Hf) | ].
  destruct (Hk _ _ _ _ _ Hcd Hin Hf) as (Hr & Hend & pre & post & -> & Hpost).
  split; [assumption | ]. split; [apply endsWith_app; assumption | ].
  exists (d1 ++ pre), post. split; [apply app_assoc | assumption].
Qed.

Lemma keepsDraft_bind A B (m : Stmt (option error) A)
    (k : A -> Stmt (option error) B) :
  emits quiet m -> (forall a, keepsDraft (k a)) -> keepsDraft (bind m k).
Proof.
  intros Hm Hk h f d H. apply seq_inv in H.
  destruct H as (f1 & d1 & H1 & H). specialize (Hm _ _ _ H1).
  destruct f1 as [a | r | ].
  - destruct H as (d2 & H2 & ->). apply draftKept_app; [assumption | ].
    exact (Hk _ _ _ _ H2).
  - destruct H as [_ ->]. apply quiet_draftKept. assumption.
  - destruct H as [_ ->]. apply quiet_draftKept. assumption.
Qed.

(** Calls of the package's functions that come before the draft. *)
Ltac quiet_sub :=
  eapply emits_impl; [ | apply createNewApp_emits ];
  let e := fresh "e" in
  let He := fresh "He" in
  intros e He; destruct e; cbn in He |- *;
  first [ contradiction | exact I ].

Ltac quiet_leaf :=
  apply keepsDraft_emits; emits_with quiet_sub.

(** Walk down the handler to the creation of the draft. *)
Ltac to_draft :=
  repeat
    (cbn [negb isNil andb orb];
     lazymatch goal with
     | |- keepsDraft (bind (call (push.createNewDraft _ _ _ _)) _) => fail
     | |- keepsDraft (bind _ _) =>
         apply keepsDraft_bind; [ solve [emits_with quiet_sub] | intros ? ]
     | |- keepsDraft (match ?x with _ => _ end) =>
         let y := scrutinee x in
         first
           [ match goal with E : y = _ |- _ => rewrite E end
           | destruct y eqn:? ]
     | |- keepsDraft _ => solve [quiet_leaf]
     end).

(** Pause as soon as deployDraftAndWait has returned. *)
Ltac at_deployed H :=
  lazymatch goal with
  | _ : run (push.deployDraftAndWait _ _ _ _ _) _ = (Some _, _) |- _ => idtac
  end.

(** What the runs of createNewDraft and deployDraftAndWait look like. *)
Ltac stage_facts :=
  repeat
    match goal with
    | H : run (push.createNewDraft _ _ _ _) _ = (None, _) |- _ =>
        exfalso; eapply createNewDraft_returns; exact H
    | H : run (push.createNewDraft _ _ _ _) _ = (Some (_, _, _), _) |- _ =>
        apply draft_cases in H;
        destruct H as [(? & ? & ? & ? & ?) | ([? | ?] & ?)];
        try congruence; subst
    | H : run (push.deployDraftAndWait _ _ _ _ _) _ = (_, _) |- _ =>
        apply deploy_cases in H;
        destruct H as [(? & ? & H & ?) | ?];
        [ first [discriminate H | injection H as H] | ]; subst
    end.

Lemma app_split (l1 l pre rest : list event) :
  l = pre ++ rest -> l1 ++ l = (l1 ++ pre) ++ rest.
Proof. intros ->. apply app_assoc. Qed.

Ltac split_at :=
  repeat first [ apply nil_split | apply cons_split | apply app_split ].

(** The failed call is one of the events of the run. *)
Ltac early_inv Hin Hf ev :=
  in_inv Hin;
  first [ subst ev; cbn in Hf | destruct ev; cbn in Hin, Hf ];
  repeat
    match type of Hf with
    | match ?r with _ => _ end => destruct r; cbn in Hin, Hf
    end;
  try contradiction; subst.

Lemma Handler_keepsDraft pkg w fuel cmd profile ui clients :
  keepsDraft (push.Handler pkg w fuel cmd profile ui clients).
Proof.
  unfold push.Handler. to_draft.
  all: intros h0 f d E g x draft e ev Hcd Hin Hf.
  all: exec at_deployed E.
  all: stage_facts.
  all: try (tidy E;
            lazymatch type of E with
            | return_ _ _ = _ => exec never E
            | _ => emits_of afterDeploy E; clear E
            end).
  all: rewrite <- ?app_assoc in Hcd, Hin |- *; cbn [app] in Hcd, Hin |- *.
  all: try solve [in_inv Hcd].
  all: early_inv Hin Hf ev.
  all: in_inv Hcd.
  all: split; [reflexivity | ].
  all: split; [ends_with | ].
  all: eexists; eexists; (split; [split_at | forall_events]).
Qed.

(** C10.  Once a draft has been created, a failing Import or a failing
    submission of the draft (the DeployDraft call) ends the push: the failed
    call is the last event of the run, its error is the error returned, and
    no DiscardDraft call comes after the creation of the draft. *)
Theorem early_failures_leave_the_draft
  pkg w fuel cmd profile ui clients h r tr g a draft e ev :
  run (push.Handler pkg w fuel cmd profile ui clients) h = (r, tr) ->
  In (EvCreateDraft g a (draft, None)) tr ->
  In ev tr ->
  earlyFailure e ev ->
  r = Some (Some e) /\
  endsWith tr ev /\
  exists pre post,
    tr = pre ++ EvCreateDraft g a (draft, None) :: post /\
    Forall (fun x => isDiscardDraft x = false) post.
Proof.
  intros Hrun Hcd Hin Hf. run_exec Hrun.
  assert (Htr : tr = d) by (destruct f; injection Hrun as _ <-; reflexivity).
  subst tr.
  pose proof (Handler_keepsDraft pkg w fuel cmd profile ui clients) as HK.
  destruct (HK _ _ _ E _ _ _ _ _ Hcd Hin Hf) as (-> & Hend & Hsplit).
  injection Hrun as <-. auto.
Qed.

Lemma early_failures_leave_the_draft_witness :
  fst runs.pushRefused = Some (Some runs.refused) /\
  endsWith (snd runs.pushRefused)
    (EvImport "group" "app" (Some runs.namedData) (Some runs.refused)) /\
  exists pre post,
    snd runs.pushRefused
    = pre ++ EvCreateDraft "group" "app" (mkAppDraft "draft-1", None) :: post /\
    Forall (fun x => isDiscardDraft x = false) post.
Proof.
  apply (@early_failures_leave_the_draft mock.pkg runs.existingWorld 5
           runs.plainPush runs.profile runs.askingUI runs.importFails []
           (fst runs.pushRefused) (snd runs.pushRefused)
           "group" "app" (mkAppDraft "draft-1") runs.refused
           (EvImport "group" "app" (Some runs.namedData) (Some runs.refused))).
  - reflexivity.
  - vm_compute. auto 20.
  - vm_compute. auto 20.
  - reflexivity.
Defined.

Lemma dependency_advisory_line_witness :
  (fst runs.diffDependencies = Some None /\
   endsWith (snd runs.diffDependencies)
     (EvPrint [diffLog (["+ functions/f.js"] ++ [advisory] ++ [])])) /\
  In (EvPrint [diffLog (["+ functions/f.js"] ++ [advisory]
                          ++ Strings mock.pkg zeroHostingDiffs)])
     (snd runs.pushDependencies).
Proof.
  split.
  - apply (proj1 dependency_advisory_line mock.pkg runs.existingWorld
             runs.dependencyDiff runs.profile runs.askingUI runs.oneChange []
             (fst runs.diffDependencies) (snd runs.diffDependencies)
             "group" "app" (Some runs.namedData) ["+ functions/f.js"] []).
    + reflexivity.
    + reflexivity.
    + vm_compute. auto 20.
    + reflexivity.
  - apply (proj2 dependency_advisory_line mock.pkg runs.existingWorld 5
             runs.dependencyPush runs.profile runs.askingUI runs.oneChange []
             (fst runs.pushDependencies) (snd runs.pushDependencies)
             "group" "app" (Some runs.namedData) ["+ functions/f.js"]
             zeroHostingDiffs).
    + reflexivity.
    + reflexivity.
    + reflexivity.
    + vm_compute. repeat constructor.
    + vm_compute. auto 20.
    + split; [reflexivity | ]. exists ".", (mkHosting ".").
      vm_compute. auto 20.
Defined.

(** ** [app diff] *)




(** X6.  [app diff] always returns.  When it returns nil, no call has
    failed and its one print, the last event, shows the lines it gathered
    (app diff, advisory line, hosting diff), or says that the app is
    identical when there is none.  When it returns an error, it is the error
    of the call that is the last event, and nothing was printed. *)
Theorem app_diff_outcome pkg w cmd profile ui clients h r tr :
  run (app.Handler pkg w cmd profile ui clients) h = (r, tr) ->
  r <> None /\
  (r = Some None ->
   endsWith tr
     (EvPrint [if (length (gathered pkg cmd tr) =? 0)%nat
               then identicalLog
               else diffLog (gathered pkg cmd tr)]) /\
   count isPrint tr = 1 /\
   Forall (fun ev => failure ev = None) tr) /\
  (forall e,
      r = Some (Some e) ->
      (exists ev, endsWith tr ev /\ failure ev = Some e) /\
      count isPrint tr = 0).
Proof.
  intros Hrun. run_exec Hrun. unfold app.Handler in E. fold advisory in E.
  exec never E; leaf Hrun.
  all: split; [discriminate | ].
  all: (split;
        [ intros Hr; try discriminate Hr
        | intros e' Hr; try discriminate Hr ]).
  all: try (injection Hr as <-;
            (split; [eexists; (split; [ends_with | reflexivity]) | reflexivity])).
  all: unfold gathered; cbn [flat_map app]; rewrite ?app_nil_r;
    match goal with
    | Hl : (length _ =? 0)%nat = _ |- _ => rewrite Hl
    end;
    (split; [ends_with | ]); (split; [reflexivity | ]);
    repeat constructor.
Qed.

(** ** createNewApp *)

(** X1.  createNewApp always returns.  It says to proceed only when the app
    was created and its configuration written, these two calls being the
    last events, and then hands back the app CreateApp returned; in every
    other case it hands back the zero app.  An error it returns is the
    error of the call that is its last event; without an error it declines
    to proceed only when the user said no to the first question, and then
    nothing else happened. *)
Theorem createNewApp_outcome
  pkg w ui c appDirectory groupID appData h r tr :
  run (push.createNewApp pkg w ui c appDirectory groupID appData) h = (r, tr) ->
  exists newApp proceed err,
    r = Some (newApp, proceed, err) /\
    (proceed = true ->
     err = None /\
     exists pre name meta,
       tr = pre ++ [EvCreateApp groupID name meta (newApp, None);
                    EvWriteConfig appDirectory newApp None] /\
       Forall (fun e => isCreateApp e = false) pre /\
       Forall (fun e => failure e = None) pre) /\
    (proceed = false -> newApp = push.zeroApp) /\
    (forall e, err = Some e ->
               proceed = false /\
               exists ev, endsWith tr ev /\ failure ev = Some e) /\
    (proceed = false -> err = None ->
     tr = [EvConfirm createPrompt (false, None)]).
Proof.
  intros H. run_exec H. unfold push.createNewApp in E.
  exec never E; leaf H.
  all: eexists; eexists; eexists; (split; [reflexivity | ]);
    (split;
     [ intros Hp;
       first
         [ discriminate Hp
         | split;
           [ reflexivity
           | eexists; eexists; eexists;
             (split; [split_trace | split; forall_events]) ] ]
     | split;
       [ intros Hp; first [discriminate Hp | reflexivity]
       | split;
         [ intros e' He;
           first
             [ discriminate He
             | injection He as <-;
               (split;
                [ reflexivity
                | eexists; (split; [ends_with | reflexivity]) ]) ]
         | intros Hp He;
           first [discriminate Hp | discriminate He | reflexivity] ] ] ]).
Qed.

(** X2.  Without auto-confirm a new app is created after four questions: whether
    to create it, its name, its location and its deployment model, asked in
    this order with the values of the local app data as defaults; CreateApp
    gets the answers. *)
Theorem createNewApp_asks_for_everything
  pkg w ui c appDirectory groupID appData h newApp tr :
  AutoConfirm ui = false ->
  run (push.createNewApp pkg w ui c appDirectory groupID appData) h
  = (Some (newApp, true, None), tr) ->
  exists name location deploymentModel,
    tr = [EvConfirm createPrompt (true, None);
          EvAskOne (Input "App Name" (derivedName appData)) (name, None);
          EvAskOne (Select "App Location" (LocationValues pkg)
                           (derivedLocation appData)) (location, None);
          EvAskOne (Select "App Deployment Model" (DeploymentModelValues pkg)
                           (derivedDeploymentModel appData))
                   (deploymentModel, None);
          EvCreateApp groupID name (mkAppMeta location deploymentModel)
                      (newApp, None);
          EvWriteConfig appDirectory newApp None].
Proof.
  intros Hauto H. run_exec H. unfold push.createNewApp in E.
  fold (derivedName appData) (derivedLocation appData)
       (derivedDeploymentModel appData) in E.
  exec never E; cbv beta iota in H; rewrite ?app_nil_r in H;
    cbn [app] in H; try discriminate H; injection H as <- <-.
  all: eexists; eexists; eexists; reflexivity.
Qed.

(** ** diffDraft *)

Lemma draftLogs_length diff :
  length (draftLogs diff)
  = if HasChanges diff then 1 + changedParts diff else 1.
Proof.
  unfold draftLogs, changedParts, subLog.
  destruct (HasChanges diff); [ | reflexivity].
  cbn [filter].
  destruct (Sub_HasChanges (HostingFilesDiff diff)),
           (Sub_HasChanges (DependenciesDiff diff)),
           (Sub_HasChanges (GraphQLConfigDiff diff)),
           (Sub_HasChanges (SchemaOptionsDiff diff)); reflexivity.
Qed.

(** X3.  diffDraft asks for the diff of the draft once.  If that fails it
    returns the error and prints nothing.  Otherwise it returns nil after
    one print of one to five logs: the one line for an empty draft when the
    draft has no changes, else the list of its changes followed by one list
    for each of the four parts (hosting files, dependencies, GraphQL
    configuration, schema) that has changes. *)
Theorem diffDraft_outcome ui c to draftID h r tr :
  run (push.diffDraft ui c to draftID) h = (r, tr) ->
  exists diff diffErr,
    match diffErr with
    | Some e =>
        r = Some (Some e) /\
        tr = [EvDiffDraft (GroupID to) (AppID to) draftID (diff, Some e)]
    | None =>
        r = Some None /\
        tr = [EvDiffDraft (GroupID to) (AppID to) draftID (diff, None);
              EvPrint (draftLogs diff)] /\
        1 <= length (draftLogs diff) <= 5 /\
        (HasChanges diff = false -> draftLogs diff = [emptyDraftLog]) /\
        (HasChanges diff = true ->
         length (draftLogs diff) = 1 + changedParts diff /\
         hd emptyDraftLog (draftLogs diff)
         = NewListLog "The following draft already exists for your app..."
                      (DiffList diff))
    end.
Proof.
  intros H. run_exec H. unfold push.diffDraft in E.
  exec never E; leaf H.
  - eexists; eexists (Some _). split; reflexivity.
  - match goal with
    | |- context [EvDiffDraft _ _ _ (?d, None)] => exists d, None
    end.
    split; [reflexivity | ].
    split.
    { unfold draftLogs, subLog. destruct (HasChanges _); reflexivity. }
    pose proof (draftLogs_length a) as Hlen.
    assert (Hparts : changedParts a <= 4).
    { unfold changedParts.
      etransitivity; [apply filter_length_le | simpl; lia]. }
    split.
    { rewrite Hlen. destruct (HasChanges a); lia. }
    split.
    { intros Hc. unfold draftLogs. rewrite Hc. reflexivity. }
    intros Hc. rewrite Hlen. unfold draftLogs. rewrite Hc.
    split; reflexivity.
Qed.

(** ** createNewDraft and the existing draft *)

Lemma if_negb A (b : bool) (x y : A) :
  (if negb b then x else y) = (if b then y else x).
Proof. destruct b; reflexivity. Qed.

Lemma createNewDraft_emits_unattended pkg ui c to :
  AutoConfirm ui = true ->
  emits unattended (push.createNewDraft pkg ui c to).
Proof. intros Hauto. unfold push.createNewDraft. emits_with idtac. Qed.

(** X4.  Without auto-confirm createNewDraft discards an existing draft
    only after it has fetched and printed its diff and the user has said
    yes; any other answer to that question ends the function there, without
    a draft, without error when the answer is no, and nothing is discarded
    or created.  With auto-confirm the existing draft is discarded unseen:
    the function only calls CreateDraft, Draft and DiscardDraft. *)
Theorem existing_draft_is_shown_before_it_is_discarded
  pkg ui c to h r tr :
  run (push.createNewDraft pkg ui c to) h = (r, tr) ->
  (AutoConfirm ui = false ->
   (forall g a i de,
       In (EvDiscardDraft g a i de) tr ->
       exists d e existing diff post,
         tr = EvCreateDraft (GroupID to) (AppID to) (d, Some e)
              :: EvDraft (GroupID to) (AppID to) (existing, None)
              :: EvDiffDraft (GroupID to) (AppID to) (Draft_ID existing)
                             (diff, None)
              :: EvPrint (draftLogs diff)
              :: EvConfirm discardPrompt (true, None)
              :: EvDiscardDraft (GroupID to) (AppID to) (Draft_ID existing)
                                de
              :: post) /\
   (forall res,
       In (EvConfirm discardPrompt res) tr ->
       res <> (true, None) ->
       endsWith tr (EvConfirm discardPrompt res) /\
       r = Some (push.zeroAppDraft, false, snd res) /\
       count isDiscardDraft tr = 0 /\
       count isCreateDraft tr = 1)) /\
  (AutoConfirm ui = true -> Forall unattended tr).
Proof.
  intros H. split.
  2: { intros Hauto. eapply emits_run;
         [apply createNewDraft_emits_unattended; exact Hauto | exact H]. }
  intros Hauto. run_exec H. unfold push.createNewDraft in E.
  exec never E; leaf H.
  all: (split;
        [ intros ? ? ? ? Hin; in_inv Hin
        | intros ? Hin Hres; in_inv Hin ]).
  all: rewrite if_negb.
  all: first
         [ do 5 eexists; reflexivity
         | split; [ends_with | split; [reflexivity | split; reflexivity]] ].
Qed.

(** ** The inputs of [secrets create] *)

(** X8.  [secrets create] asks for what is missing, and for nothing else:
    with a name and a value given it asks nothing and leaves the inputs as
    they are; otherwise it calls [ui.Ask] once, with the question for the
    name (a plain input) when the name is empty and the question for the
    value (a password prompt) when the value is empty, in this order, and
    hands back the inputs and the error of that call. *)
Theorem secrets_are_asked_for_when_missing Ask i i' err calls :
  secrets.Resolve Ask i = (i', err, calls) ->
  match secrets.missing i with
  | [] => calls = [] /\ i' = i /\ err = None
  | fields =>
      calls = [map secrets.questionFor fields] /\
      (i', err) = Ask i (map secrets.questionFor fields)
  end.
Proof.
  unfold secrets.Resolve, secrets.missing. cbn [filter].
  change ((secrets.createInputFieldSecretName
           =? secrets.createInputFieldSecretName)%string) with true.
  change ((secrets.createInputFieldSecretValue
           =? secrets.createInputFieldSecretName)%string) with false.
  cbv beta iota.
  destruct (secrets.Name i =? EmptyString)%string,
           (secrets.Value i =? EmptyString)%string; cbn.
  all: try (destruct (Ask i _) as [i0 err0]; intros H;
            injection H as <- <- <-; split; reflexivity).
  intros H. injection H as <- <- <-. auto.
Qed.

(** ** The inputs of [app diff] *)

Lemma app_diff_loads_first pkg w cmd profile ui clients h :
  exists res rest,
    snd (run (app.Handler pkg w cmd profile ui clients) h)
    = EvLoadApp (diff_AppDirectory (app.cmd_inputs cmd)) res :: rest.
Proof.
  destruct (run (app.Handler pkg w cmd profile ui clients) h) as [r tr]
    eqn:Hrun.
  run_exec Hrun. unfold app.Handler in E.
  exec never E; leaf Hrun; eexists; eexists; reflexivity.
Qed.

(** X7.  Resolving the inputs of [app diff] never fails and only fills in
    the directory: an empty one becomes the working directory of the
    profile, a given one and the flags are kept, and resolving again changes
    nothing.  The handler then loads the app from that directory first. *)
Theorem app_diff_defaults_to_the_working_directory
  pkg w i profile ui clients h i' err :
  appInputs.Resolve i profile ui = (i', err) ->
  err = None /\
  diff_AppDirectory i'
  = (if (diff_AppDirectory i =? EmptyString)%string
     then WorkingDirectory profile else diff_AppDirectory i) /\
  diff_IncludeDependencies i' = diff_IncludeDependencies i /\
  diff_IncludeHosting i' = diff_IncludeHosting i /\
  diff_ProjectInputs i' = diff_ProjectInputs i /\
  appInputs.Resolve i' profile ui = (i', None) /\
  exists res rest,
    snd (run (app.Handler pkg w (app.mkCommandDiff i') profile ui clients) h)
    = EvLoadApp (if (diff_AppDirectory i =? EmptyString)%string
                 then WorkingDirectory profile else diff_AppDirectory i)
                res :: rest.
Proof.
  unfold appInputs.Resolve. intros H. injection H as <- <-.
  split; [reflexivity | ].
  assert (Hdir :
            diff_AppDirectory
              (if (diff_AppDirectory i =? EmptyString)%string
               then mkDiffInputs (WorkingDirectory profile)
                      (diff_IncludeDependencies i) (diff_IncludeHosting i)
                      (diff_ProjectInputs i)
               else i)
            = (if (diff_AppDirectory i =? EmptyString)%string
               then WorkingDirectory profile else diff_AppDirectory i))
    by (destruct (diff_AppDirectory i =? EmptyString)%string; reflexivity).
  split; [exact Hdir | ].
  repeat split.
  1-3: destruct (diff_AppDirectory i =? EmptyString)%string; reflexivity.
  - destruct (diff_AppDirectory i =? EmptyString)%string eqn:Hi; cbn.
    + destruct (WorkingDirectory profile =? EmptyString)%string; reflexivity.
    + rewrite Hi. reflexivity.
  - rewrite <- Hdir. apply app_diff_loads_first.
Qed.

(** ** Outcomes that stop at an event of note *)

Section StopsFacts.
Context {X : Type}.
Variable note : event -> option X.
Variable after : event -> Prop.
Hypothesis after_quiet : forall ev, after ev -> note ev = None.
Hypothesis yes_quiet : forall m, note (EvConfirm m (true, None)) = None.

Lemma quiet_stops R A (noteOf : R -> option X) (f : flow R A) d :
  Forall (fun e => note e = None) d -> stops note after noteOf f d.
Proof.
  intros Hq x ev Hin Hf. rewrite Forall_forall in Hq.
  rewrite (Hq _ Hin) in Hf. discriminate.
Qed.

Lemma stops_next_quiet R A (noteOf : R -> option X) (a : A) d :
  stops note after noteOf (Next a : flow R A) d ->
  Forall (fun e => note e = None) d.
Proof.
  intros H. apply Forall_forall. intros ev Hin.
  destruct (note ev) as [x | ] eqn:Hf; [ | reflexivity].
  destruct (H _ _ Hin Hf) as [(r & Hr & _) _]; discriminate.
Qed.

Lemma stops_spin_quiet R A (noteOf : R -> option X) d :
  stops note after noteOf (Spin : flow R A) d ->
  Forall (fun e => note e = None) d.
Proof.
  intros H. apply Forall_forall. intros ev Hin.
  destruct (note ev) as [x | ] eqn:Hf; [ | reflexivity].
  destruct (H _ _ Hin Hf) as [(r & Hr & _) _]; discriminate.
Qed.

Lemma stops_app R A (noteOf : R -> option X) (f : flow R A) d1 d2 :
  Forall (fun e => note e = None) d1 ->
  stops note after noteOf f d2 -> stops note after noteOf f (d1 ++ d2).
Proof.
  intros Hq Hs x ev Hin Hf.
  apply in_app_or in Hin. destruct Hin as [Hin | Hin].
  - rewrite Forall_forall in Hq. rewrite (Hq _ Hin) in Hf. discriminate.
  - destruct (Hs _ _ Hin Hf) as (Hr & pre & post & -> & Hpre & Hpost).
    split; [exact Hr | ].
    exists (d1 ++ pre), post. split; [apply app_assoc | ].
    split; [apply Forall_app; split; assumption | assumption].
Qed.

Lemma after_all_quiet d : Forall after d -> Forall (fun e => note e = None) d.
Proof. intros H. eapply Forall_impl; [ | exact H]. exact after_quiet. Qed.

Lemma stops_after_all R A (noteOf : R -> option X) (f : flow R A) d1 d2 :
  stops note after noteOf f d1 -> Forall after d2 ->
  stops note after noteOf f (d1 ++ d2).
Proof.
  intros Hs Ha x ev Hin Hf.
  apply in_app_or in Hin. destruct Hin as [Hin | Hin].
  - destruct (Hs _ _ Hin Hf) as (Hr & pre & post & -> & Hpre & Hpost).
    split; [exact Hr | ].
    exists pre, (post ++ d2). split; [rewrite <- app_assoc; reflexivity | ].
    split; [assumption | apply Forall_app; split; assumption].
  - apply after_all_quiet in Ha. rewrite Forall_forall in Ha.
    rewrite (Ha _ Hin) in Hf. discriminate.
Qed.

Lemma failsFast_emits R A (noteOf : R -> option X) (m : Stmt R A) :
  emits (fun e => note e = None) m -> failsFast note after noteOf m.
Proof. intros Hm h f d H. apply quiet_stops. exact (Hm _ _ _ H). Qed.

Lemma failsFast_bind R A B (noteOf : R -> option X) (m : Stmt R A)
    (k : A -> Stmt R B) :
  failsFast note after noteOf m ->
  (forall a, failsFast note after noteOf (k a)) ->
  failsFast note after noteOf (bind m k).
Proof.
  intros Hm Hk h f d H. apply seq_inv in H.
  destruct H as (f1 & d1 & H1 & H). specialize (Hm _ _ _ H1).
  destruct f1 as [a | r | ].
  - destruct H as (d2 & H2 & ->). apply stops_app.
    + eapply stops_next_quiet. exact Hm.
    + exact (Hk _ _ _ _ H2).
  - destruct H as [-> ->].
    intros x ev Hin Hf. destruct (Hm _ _ Hin Hf) as [(r' & Hr & He) Hsplit].
    injection Hr as <-. split; [eauto | exact Hsplit].
  - destruct H as [-> ->].
    intros x ev Hin Hf. destruct (Hm _ _ Hin Hf) as [(r' & Hr & _) _].
    discriminate.
Qed.

Lemma winds_return R A (noteOf : R -> option X) x (r : R) :
  noteOf r = Some x -> winds after noteOf x (@return_ R A r).
Proof.
  intros He h f d H. injection H as <- <-. split; [eauto | constructor].
Qed.

(** After the call recorded by [ev]. *)
Lemma stops_after R A (noteOf : R -> option X) (ev : event)
    (m : Stmt R A) h f d :
  checked note after noteOf (note ev) m ->
  m h = (f, d) ->
  stops note after noteOf f (ev :: d).
Proof.
  unfold checked. intros Hc H. destruct (note ev) as [x | ] eqn:Hf.
  - destruct (Hc _ _ _ H) as [Hr Ha].
    intros x' ev' Hin Hf'. destruct Hin as [<- | Hin].
    + rewrite Hf in Hf'. injection Hf' as <-. split; [exact Hr | ].
      exists [], d. split; [reflexivity | split; [constructor | exact Ha]].
    + apply after_all_quiet in Ha. rewrite Forall_forall in Ha.
      rewrite (Ha _ Hin) in Hf'. discriminate.
  - apply (stops_app (d1:=[ev])); [repeat constructor; exact Hf | ].
    exact (Hc _ _ _ H).
Qed.

Lemma failsFast_perform R A T (noteOf : R -> option X)
    (answer : history -> T) (ev : T -> event) (k : T -> Stmt R A) :
  (forall r, checked note after noteOf (note (ev r)) (k r)) ->
  failsFast note after noteOf (bind (perform answer ev) k).
Proof.
  intros Hk h f d H. apply seq_inv in H.
  destruct H as (f1 & d1 & H1 & H). unfold perform in H1.
  injection H1 as <- <-. destruct H as (d2 & H2 & ->).
  cbn [app]. eapply stops_after; [apply Hk | exact H2].
Qed.

Lemma failsFast_next R A B (noteOf : R -> option X) (a : A)
    (k : A -> Stmt R B) :
  failsFast note after noteOf (k a) ->
  failsFast note after noteOf (bind (next a) k).
Proof.
  intros Hk h f d H. apply seq_inv in H.
  destruct H as (f1 & d1 & H1 & H). injection H1 as <- <-.
  destruct H as (d2 & H2 & ->). exact (Hk _ _ _ H2).
Qed.

Lemma failsFast_Confirm R A (noteOf : R -> option X) ui message
    (k : result bool -> Stmt R A) :
  (forall r, checked note after noteOf (note (EvConfirm message r)) (k r)) ->
  failsFast note after noteOf (bind (Confirm ui message) k).
Proof.
  intros Hk. unfold Confirm. destruct (AutoConfirm ui).
  - apply failsFast_next. specialize (Hk (true, None)).
    rewrite yes_quiet in Hk. exact Hk.
  - apply failsFast_perform. exact Hk.
Qed.

Lemma failsFast_call R R' A (noteOf : R -> option X)
    (noteOf' : R' -> option X) (body : Stmt R' R')
    (k : R' -> Stmt R A) :
  failsFast note after noteOf' body ->
  (forall r, checked note after noteOf (noteOf' r) (k r)) ->
  failsFast note after noteOf (bind (call body) k).
Proof.
  intros Hb Hk h f d H. apply seq_inv in H.
  destruct H as (f1 & d1 & H1 & H). apply call_inv in H1.
  destruct H1 as (f0 & H0 & Hf1). specialize (Hb _ _ _ H0).
  destruct f0 as [r | r | ]; subst f1.
  - destruct H as (d2 & H2 & ->). specialize (Hk r). unfold checked in Hk.
    assert (Hq : Forall (fun e => note e = None) d1)
      by (eapply stops_next_quiet; exact Hb).
    destruct (noteOf' r) as [x | ].
    + destruct (Hk _ _ _ H2) as [_ Ha]. apply quiet_stops.
      apply Forall_app. split; [exact Hq | apply after_all_quiet; exact Ha].
    + apply stops_app; [exact Hq | exact (Hk _ _ _ H2)].
  - destruct H as (d2 & H2 & ->). specialize (Hk r). unfold checked in Hk.
    destruct (noteOf' r) as [x | ] eqn:He.
    + destruct (Hk _ _ _ H2) as [Hr Ha].
      intros x' ev Hin Hf. apply in_app_or in Hin. destruct Hin as [Hin | Hin].
      * destruct (Hb _ _ Hin Hf)
          as [(r' & Hr' & He') (pre & post & -> & Hpre & Hpost)].
        injection Hr' as <-. rewrite He in He'. injection He' as <-.
        split; [exact Hr | ].
        exists pre, (post ++ d2).
        split; [rewrite <- app_assoc; reflexivity | ].
        split; [assumption | apply Forall_app; split; assumption].
      * apply after_all_quiet in Ha. rewrite Forall_forall in Ha.
        rewrite (Ha _ Hin) in Hf. discriminate.
    + apply stops_app; [ | exact (Hk _ _ _ H2)].
      apply Forall_forall. intros ev Hin.
      destruct (note ev) as [x | ] eqn:Hf; [ | reflexivity].
      destruct (Hb _ _ Hin Hf) as [(r' & Hr' & He') _].
      injection Hr' as <-. rewrite He in He'. discriminate.
  - destruct H as [-> ->]. apply quiet_stops.
    eapply stops_spin_quiet. exact Hb.
Qed.

Lemma failsFast_defer R A (noteOf : R -> option X) (cleanup : Stmt R unit)
    (rest : Stmt R A) :
  emits after cleanup -> failsFast note after noteOf rest ->
  failsFast note after noteOf (defer cleanup rest).
Proof.
  intros Hc Hr h f d H. unfold defer in H.
  destruct (rest h) as [f0 d0] eqn:E. specialize (Hr _ _ _ E).
  destruct (cleanup (h ++ d0)) as [fc dc] eqn:Ec. specialize (Hc _ _ _ Ec).
  destruct f0; simpl in H; injection H as <- <-;
    first [exact Hr | apply stops_after_all; assumption].
Qed.

(** The upload of the hosting files prints a warning per failed asset. *)
Lemma failsFast_UploadHostingAssets R A (noteOf : R -> option X)
    w hosting groupID appID diffs ui (logs : error -> list Log)
    (k : option error -> Stmt R A) :
  (forall log, after (EvPrint log)) ->
  (forall r,
      checked note after noteOf
        (note (EvUploadHostingAssets hosting groupID appID diffs r))
        (k (snd r))) ->
  failsFast note after noteOf
    (bind (UploadHostingAssets w hosting groupID appID diffs
             (fun err => Print ui (logs err))) k).
Proof.
  intros Hprint Hk h f d H. apply seq_inv in H.
  destruct H as (f1 & d1 & H1 & H).
  unfold UploadHostingAssets in H1. apply seq_inv in H1.
  destruct H1 as (f2 & d2 & H2 & H1). unfold perform in H2.
  injection H2 as <- <-.
  specialize (Hk (UploadHostingAssetsFn w h hosting groupID appID diffs)).
  destruct (UploadHostingAssetsFn w h hosting groupID appID diffs)
    as [assetErrs err] eqn:Hu.
  destruct H1 as (d3 & H3 & ->). apply seq_inv in H3.
  destruct H3 as (f4 & d4 & H4 & H3). rewrite forEach_Print in H4.
  injection H4 as <- <-. destruct H3 as (d5 & H5 & ->).
  injection H5 as <- <-. destruct H as (d6 & H6 & ->).
  rewrite app_nil_r in *. cbn [app snd] in *.
  assert (Hprints :
            Forall after (map (fun x => EvPrint (logs x)) assetErrs)).
  { apply Forall_forall. intros ev Hin. apply in_map_iff in Hin.
    destruct Hin as (x & <- & _). apply Hprint. }
  unfold checked in Hk.
  destruct (note (EvUploadHostingAssets hosting groupID appID diffs
                    (assetErrs, err))) as [x | ] eqn:Hn.
  - destruct (Hk _ _ _ H6) as [Hr Ha].
    assert (Hq : Forall after
                   (map (fun x => EvPrint (logs x)) assetErrs ++ d6))
      by (apply Forall_app; split; assumption).
    intros x' ev Hin Hf. destruct Hin as [<- | Hin].
    + rewrite Hn in Hf. injection Hf as <-. split; [exact Hr | ].
      eexists [], _. split; [reflexivity | ].
      split; [constructor | exact Hq].
    + apply after_all_quiet in Hq. rewrite Forall_forall in Hq.
      rewrite (Hq _ Hin) in Hf. discriminate.
  - apply (stops_app (d1 := _ :: _)); [ | exact (Hk _ _ _ H6)].
    constructor; [exact Hn | ]. apply after_all_quiet. exact Hprints.
Qed.
End StopsFacts.

Lemma aftermath_not_fatal ev : aftermath ev -> fatal ev = None.
Proof. destruct ev; simpl; tauto. Qed.

Lemma nothing_not_declined ev : nothing ev -> declined ev = None.
Proof. intros []. Qed.

Ltac side :=
  first
    [ exact aftermath_not_fatal
    | exact nothing_not_declined
    | intros; reflexivity
    | intros; exact I ].

(** Whether the call at hand is of note. *)
Ltac settle :=
  cbn [fatal failure declined notProceeding isNilError snd];
  repeat
    (lazymatch goal with
     | |- checked _ _ _ (Some _) _ => fail
     | |- checked _ _ _ None _ => fail
     | |- checked _ _ _ ?o _ =>
         lazymatch o with
         | context [match ?x with _ => _ end] => destruct x
         | snd ?r => destruct r
         | notProceeding ?r => destruct r as [[? [ | ]] [? | ]]
         | _ => is_var o; destruct o
         end
     end;
     cbn [fatal failure declined notProceeding isNilError snd]);
  unfold checked; cbn [snd negb isNil].

(** Syntax-directed proof that [m] stops at the first failed call. *)
Ltac fails_fast :=
  repeat
    (cbn [negb isNil andb orb];
     try unfold CreateApp, Diff, HostingAssets, CreateDraft, Draft,
       DiscardDraft, DiffDraft, Import, ImportDependencies, DeployDraft,
       Deployment, HostingCacheInvalidate, AskOne, LoadApp, resolveTo,
       ResolveGroupID, ResolveApp, FindAppHosting, Diffs,
       FindAppDependencies, PrepareUpload, WriteConfig;
     lazymatch goal with
     | |- winds _ _ _ (return_ _) => apply winds_return; reflexivity
     | |- winds _ _ _ (match ?x with _ => _ end) => destruct x
     | |- failsFast _ _ _ (bind (perform _ _) _) =>
         let r := fresh "r" in
         apply failsFast_perform; [side | intros r; settle]
     | |- failsFast _ _ _ (bind (Confirm _ _) _) =>
         let r := fresh "r" in
         apply failsFast_Confirm; [side | side | intros r; settle]
     | |- failsFast _ _ _ (bind (UploadHostingAssets _ _ _ _ _ _) _) =>
         let r := fresh "r" in
         apply failsFast_UploadHostingAssets;
         [side | side | intros r; settle]
     | |- failsFast _ _ _ (bind (call ?body) _) =>
         let r := fresh "r" in
         lazymatch type of body with
         | Stmt (option error) _ =>
             apply (@failsFast_call _ fatal aftermath aftermath_not_fatal
                                    _ _ _ _ (fun e : option error => e))
         | _ =>
             apply (@failsFast_call _ fatal aftermath aftermath_not_fatal
                                    _ _ _ _ snd)
         end;
         [ try unfold push.diffDraft | intros r; settle ]
     | |- failsFast _ _ _ (bind _ _) => apply failsFast_bind; [ | intros ? ]
     | |- failsFast _ _ _ (match ?x with _ => _ end) =>
         let y := scrutinee x in
         first
           [ match goal with E : y = _ |- _ => rewrite E end
           | destruct y eqn:? ]
     | |- failsFast _ _ _ (defer _ _) =>
         apply failsFast_defer; [side | emits_with idtac | ]
     | |- failsFast _ _ _ (perform _ _) =>
         fail "a call whose error is dropped"
     | |- failsFast _ _ _ (push.createNewApp _ _ _ _ _ _ _) => fail
     | |- failsFast _ _ _ (push.createNewDraft _ _ _ _) => fail
     | |- failsFast _ _ _ (push.deployDraftAndWait _ _ _ _ _) => fail
     | |- failsFast _ _ _ (push.waitForDeployment _ _ _ _ _ _) => fail
     | |- failsFast _ _ _ _ => apply failsFast_emits; emits_with idtac
     end).

Lemma createNewApp_failsFast pkg w ui c appDirectory groupID appData :
  failsFast fatal aftermath snd
    (push.createNewApp pkg w ui c appDirectory groupID appData).
Proof. unfold push.createNewApp. fails_fast. Qed.

Lemma createNewDraft_failsFast pkg ui c to :
  failsFast fatal aftermath snd (push.createNewDraft pkg ui c to).
Proof. unfold push.createNewDraft. fails_fast. Qed.

Lemma waitForDeployment_failsFast fuel ui c to draftID :
  forall deployment,
    failsFast fatal aftermath (fun e : option error => e)
      (push.waitForDeployment fuel ui c to draftID deployment).
Proof.
  induction fuel as [ | fuel IH]; intros deployment;
    cbn [push.waitForDeployment].
  - fails_fast.
  - destruct (push.inFlight (Status deployment)); [ | fails_fast].
    unfold Deployment.
    apply failsFast_perform; [side | ]. intros [dep [e | ]].
    + cbn [fatal failure snd checked negb isNil].
      intros h f d H. exec never H.
      all: split; [eexists; split; reflexivity | repeat constructor].
    + cbn [fatal failure snd checked negb isNil]. apply IH.
Qed.

Lemma deployDraftAndWait_failsFast fuel ui c to draftID :
  failsFast fatal aftermath (fun e : option error => e)
    (push.deployDraftAndWait fuel ui c to draftID).
Proof.
  unfold push.deployDraftAndWait. fails_fast.
  apply waitForDeployment_failsFast.
Qed.

Lemma Handler_failsFast pkg w fuel cmd profile ui clients :
  failsFast fatal aftermath (fun e : option error => e)
    (push.Handler pkg w fuel cmd profile ui clients).
Proof.
  unfold push.Handler. fails_fast.
  all: first [ apply createNewApp_failsFast
             | apply createNewDraft_failsFast
             | apply deployDraftAndWait_failsFast ].
Qed.

(** ** A declined question ends the push *)

Ltac declines_sub :=
  eapply emits_impl;
  [ | first [ apply deployDraftAndWait_emits ] ];
  let e := fresh "e" in
  let He := fresh "He" in
  intros e He; destruct e; cbn in He |- *;
  first [ contradiction | reflexivity ].

Ltac declines :=
  repeat
    (cbn [negb isNil andb orb];
     lazymatch goal with
     | |- winds _ _ _ (return_ _) => apply winds_return; reflexivity
     | |- winds _ _ _ (match ?x with _ => _ end) => destruct x
     | |- failsFast _ _ _ (bind (Confirm _ _) _) =>
         let r := fresh "r" in
         apply failsFast_Confirm; [side | side | intros r; settle]
     | |- failsFast _ _ _ (bind (call (push.createNewApp _ _ _ _ _ _ _)) _) =>
         let r := fresh "r" in
         apply (@failsFast_call _ declined nothing nothing_not_declined
                                _ _ _ _ notProceeding);
         [ | intros r; settle ]
     | |- failsFast _ _ _ (bind (call (push.createNewDraft _ _ _ _)) _) =>
         let r := fresh "r" in
         apply (@failsFast_call _ declined nothing nothing_not_declined
                                _ _ _ _ notProceeding);
         [ | intros r; settle ]
     | |- failsFast _ _ _ (bind _ _) =>
         first
           [ apply failsFast_bind;
             [ apply failsFast_emits; solve [emits_with declines_sub]
             | intros ? ]
           | apply failsFast_bind; [ | intros ? ] ]
     | |- failsFast _ _ _ (match ?x with _ => _ end) =>
         let y := scrutinee x in
         first
           [ match goal with E : y = _ |- _ => rewrite E end
           | destruct y eqn:? ]
     | |- failsFast _ _ _ (push.createNewApp _ _ _ _ _ _ _) => fail
     | |- failsFast _ _ _ (push.createNewDraft _ _ _ _) => fail
     | |- failsFast _ _ _ _ =>
         apply failsFast_emits; emits_with declines_sub
     end).

Lemma createNewApp_declines pkg w ui c appDirectory groupID appData :
  failsFast declined nothing notProceeding
    (push.createNewApp pkg w ui c appDirectory groupID appData).
Proof. unfold push.createNewApp. declines. Qed.

Lemma createNewDraft_declines pkg ui c to :
  failsFast declined nothing notProceeding (push.createNewDraft pkg ui c to).
Proof. unfold push.createNewDraft. declines. Qed.

Lemma Handler_declines pkg w fuel cmd profile ui clients :
  failsFast declined nothing isNilError
    (push.Handler pkg w fuel cmd profile ui clients).
Proof.
  unfold push.Handler. declines.
  all: first [ apply createNewApp_declines | apply createNewDraft_declines ].
Qed.

(** X9.  Every failed call of a push, but a CreateDraft or a DiscardDraft
    (which have their own handling), ends it: the call is the first one that
    failed, the handler returns its error, and only the compensating discard
    of the poll, prints and the removal of the dependencies archive come
    after it.  So a push that returns no error had no such failure. *)
Theorem push_returns_the_first_failure
  pkg w fuel cmd profile ui clients h r tr :
  run (push.Handler pkg w fuel cmd profile ui clients) h = (r, tr) ->
  (forall e ev,
      In ev tr ->
      fatal ev = Some e ->
      r = Some (Some e) /\
      exists pre post,
        tr = pre ++ ev :: post /\
        Forall (fun x => fatal x = None) pre /\
        Forall aftermath post) /\
  ((forall e, r <> Some (Some e)) ->
   Forall (fun x => fatal x = None) tr).
Proof.
  intros Hrun. run_exec Hrun.
  pose proof (@Handler_failsFast pkg w fuel cmd profile ui clients _ _ _ E)
    as Hs.
  assert (Htr : tr = d) by (destruct f; injection Hrun as _ <-; reflexivity).
  subst tr.
  assert (Hfirst :
            forall e ev, In ev d -> fatal ev = Some e ->
                         r = Some (Some e) /\
                         exists pre post,
                           d = pre ++ ev :: post /\
                           Forall (fun x => fatal x = None) pre /\
                           Forall aftermath post).
  { intros e ev Hin Hf.
    destruct (Hs _ _ Hin Hf) as [(r0 & -> & He) Hsplit].
    cbv beta in He. subst r0. injection Hrun as <-. auto. }
  split; [exact Hfirst | ].
  intros Hr. apply Forall_forall. intros ev Hin.
  destruct (fatal ev) as [e | ] eqn:Hf; [ | reflexivity].
  destruct (Hfirst _ _ Hin Hf) as [Hre _]. destruct (Hr _ Hre).
Qed.

(** X10.  A yes/no question that the user answers with no, whichever it is
    (creating the app, discarding the existing draft, confirming the
    changes), ends the push: it is the last event of the run, the first
    question declined, and the handler returns nil. *)
Theorem a_declined_question_ends_the_push
  pkg w fuel cmd profile ui clients h r tr message :
  run (push.Handler pkg w fuel cmd profile ui clients) h = (r, tr) ->
  In (EvConfirm message (false, None)) tr ->
  r = Some None /\
  exists pre,
    tr = pre ++ [EvConfirm message (false, None)] /\
    Forall (fun e => declined e = None) pre.
Proof.
  intros Hrun Hin. run_exec Hrun.
  pose proof (@Handler_declines pkg w fuel cmd profile ui clients _ _ _ E)
    as Hs.
  assert (Htr : tr = d) by (destruct f; injection Hrun as _ <-; reflexivity).
  subst tr.
  destruct (Hs tt _ Hin eq_refl)
    as [(r0 & -> & He) (pre & post & -> & Hpre & Hpost)].
  destruct r0 as [e | ]; [discriminate He | ].
  injection Hrun as <-. split; [reflexivity | ].
  destruct post as [ | x post]; [ | inversion Hpost as [ | ? ? [] ]].
  exists pre. auto.
Qed.

(** ** The optional stages *)

Ltac stage_sub :=
  eapply emits_impl;
  [ | first [ apply createNewDraft_emits
            | apply deployDraftAndWait_emits
            | apply createNewApp_emits ] ];
  let e := fresh "e" in
  let He := fresh "He" in
  intros e He; destruct e; cbn in He |- *;
  first [ contradiction | exact I | reflexivity ].

(** X11.  The hosting and dependency stages of a push are opt-in: without
    the hosting flag no hosting call but FindAppHosting is made, without the
    dependency flag no dependency is looked for, archived, imported or
    removed, without the flag for it no cache is reset, and a cache is only
    ever reset as a whole (path "/*"). *)
Theorem push_stages_are_opt_in pkg w fuel cmd profile ui clients h r tr :
  run (push.Handler pkg w fuel cmd profile ui clients) h = (r, tr) ->
  (IncludeHosting (push.cmd_inputs cmd) = false ->
   Forall (fun ev => hostingCall ev = false) tr) /\
  (IncludeDependencies (push.cmd_inputs cmd) = false ->
   Forall (fun ev => dependencyCall ev = false) tr) /\
  (ResetCDNCache (push.cmd_inputs cmd) = false ->
   Forall (fun ev => isCacheInvalidate ev = false) tr) /\
  Forall wholeCache tr.
Proof.
  intros Hrun. repeat split; try intros Hflag.
  all: eapply emits_run; [ | exact Hrun].
  all: unfold push.Handler; emits_with stage_sub.
Qed.

(** ** The hint of a dry run *)

Lemma commandString_omitDryRun cmd :
  push.commandString cmd true = "realm-cli push".
Proof.
  unfold push.commandString. rewrite andb_false_r. reflexivity.
Qed.

(** X14.  A dry run that returns nil has either found the app identical,
    or ends with the hint whose suggested command is "realm-cli push",
    without the dry-run flag. *)
Theorem dry_run_suggests_the_push pkg w fuel cmd profile ui clients h tr :
  DryRun (push.cmd_inputs cmd) = true ->
  run (push.Handler pkg w fuel cmd profile ui clients) h = (Some None, tr) ->
  endsWith tr nothingToDo \/
  exists text,
    endsWith tr
      (EvPrint [NewTextLog text [];
                NewFollowupLog (MsgSuggestedCommands pkg) ["realm-cli push"]]).
Proof.
  intros Hdry Hrun. run_exec Hrun. unfold push.Handler in E.
  exec never E; cbv beta iota in Hrun; rewrite ?app_nil_r in Hrun;
    cbn [app] in Hrun; try discriminate Hrun; injection Hrun as <-.
  all: rewrite ?commandString_omitDryRun.
  all: first [ left; solve [ends_with]
             | right; eexists; solve [ends_with] ].
Qed.

(** ** The order of the stages *)

Lemma early_staged d : Forall (fun x => late x = false) d -> staged d.
Proof.
  intros Hq ev Hin Hl. rewrite Forall_forall in Hq.
  rewrite (Hq _ Hin) in Hl. discriminate.
Qed.

Lemma staged_app d1 d2 :
  Forall (fun x => late x = false) d1 -> staged d2 -> staged (d1 ++ d2).
Proof.
  intros Hq Hs ev Hin Hl. apply in_app_or in Hin. destruct Hin as [Hin | Hin].
  - rewrite Forall_forall in Hq. rewrite (Hq _ Hin) in Hl. discriminate.
  - destruct (Hs _ Hin Hl)
      as (g & a & draft & data & dep & p1 & p2 & p3 & p4 & p5 & -> & H5 & Ht).
    exists g, a, draft, data, dep, (d1 ++ p1), p2, p3, p4, p5.
    split; [apply app_assoc | auto].
Qed.

Lemma inStages_emits R A (m : Stmt R A) :
  emits (fun x => late x = false) m -> inStages m.
Proof. intros Hm h f d H. apply early_staged. exact (Hm _ _ _ H). Qed.

Lemma inStages_bind R A B (m : Stmt R A) (k : A -> Stmt R B) :
  emits (fun x => late x = false) m -> (forall a, inStages (k a)) ->
  inStages (bind m k).
Proof.
  intros Hm Hk h f d H. apply seq_inv in H.
  destruct H as (f1 & d1 & H1 & H). specialize (Hm _ _ _ H1).
  destruct f1 as [a | r | ].
  - destruct H as (d2 & H2 & ->). apply staged_app; [assumption | ].
    exact (Hk _ _ _ _ H2).
  - destruct H as [_ ->]. apply early_staged. assumption.
  - destruct H as [_ ->]. apply early_staged. assumption.
Qed.

Lemma createNewDraft_emits_early pkg ui c to :
  emits (fun x => late x = false) (push.createNewDraft pkg ui c to).
Proof.
  unfold push.createNewDraft. emits_with idtac.
  apply emits_Print. destruct (HasChanges _); reflexivity.
Qed.

Lemma polled_early to dep oks last :
  polled to dep oks last -> Forall (fun x => late x = false) oks.
Proof. induction 1; constructor; auto. Qed.

(** The trace of a draft that was created, and of one that was deployed. *)
Lemma draft_staged pkg ui c to h draft proceed err d :
  run (push.createNewDraft pkg ui c to) h = (Some (draft, proceed, err), d) ->
  Forall (fun x => late x = false) d /\
  (err = None -> proceed = true ->
   exists mid,
     d = mid ++ [EvCreateDraft (GroupID to) (AppID to) (draft, None)]).
Proof.
  intros H. split.
  - eapply emits_run; [apply createNewDraft_emits_early | exact H].
  - intros He Hp. apply draft_cases in H.
    destruct H as [(_ & _ & mid & Hd & _) | ([Hn | Hn] & _)];
      [eauto | congruence | congruence].
Qed.

Lemma deploy_staged fuel ui c to draftID h r d :
  run (push.deployDraftAndWait fuel ui c to draftID) h = (r, d) ->
  Forall (fun x => late x = false) d /\
  (r = Some None ->
   exists dep oks,
     d = EvDeployDraft (GroupID to) (AppID to) draftID (dep, None)
         :: oks ++ [deploymentComplete]).
Proof.
  intros H. apply deployDraftAndWait_spec in H.
  destruct H as [dep e | dep0 oks last Hp Hl | dep0 oks last Hp Hl
                | dep0 oks last dep' e de Hp Hl];
    (split; [ | intros Hr; try discriminate Hr; eauto]).
  - repeat constructor.
  - constructor; [reflexivity | ].
    apply Forall_app. split; [eapply polled_early; eassumption | ].
    repeat constructor.
  - constructor; [reflexivity | ]. eapply polled_early; eassumption.
  - constructor; [reflexivity | ].
    apply Forall_app. split; [eapply polled_early; eassumption | ].
    destruct de; repeat constructor.
Qed.

Ltac early_sub :=
  first
    [ apply createNewDraft_emits_early
    | eapply emits_impl; [ | apply createNewApp_emits ];
      let e := fresh "e" in
      let He := fresh "He" in
      intros e He; destruct e; cbn in He |- *;
      first [ contradiction | reflexivity ] ].

(** Walk down the handler to the creation of the draft. *)
Ltac stages_to_draft :=
  repeat
    (cbn [negb isNil andb orb];
     lazymatch goal with
     | |- inStages (bind (call (push.createNewDraft _ _ _ _)) _) => fail
     | |- inStages (bind _ _) =>
         apply inStages_bind; [ solve [emits_with early_sub] | intros ? ]
     | |- inStages (match ?x with _ => _ end) =>
         let y := scrutinee x in
         first
           [ match goal with E : y = _ |- _ => rewrite E end
           | destruct y eqn:? ]
     | |- inStages _ => solve [apply inStages_emits; emits_with early_sub]
     end).

(** The facts about the draft and its deployment. *)
Ltac staged_facts :=
  repeat
    match goal with
    | H : run (push.createNewDraft _ _ _ _) _ = (None, _) |- _ =>
        exfalso; eapply createNewDraft_returns; exact H
    | H : run (push.createNewDraft _ _ _ _) _ = (Some (_, _, _), _) |- _ =>
        apply draft_staged in H;
        let Hd := fresh "Hd" in
        destruct H as [H Hd];
        try (destruct (Hd eq_refl eq_refl) as [? ->];
             apply Forall_app in H; destruct H as [H _]);
        clear Hd
    | H : run (push.deployDraftAndWait _ _ _ _ _) _ = (_, _) |- _ =>
        apply deploy_staged in H;
        let Hd := fresh "Hd" in
        destruct H as [H Hd];
        try (destruct (Hd eq_refl) as (? & ? & ->);
             apply Forall_cons_iff in H; destruct H as [_ H];
             apply Forall_app in H; destruct H as [H _]);
        clear Hd
    end.

(** [Hin : In ev d] for a late event [ev]: it is in the last part of [d]. *)
Ltac late_inv Hin Hl :=
  repeat
    match type of Hin with
    | In _ (_ :: _) =>
        destruct Hin as [Hin | Hin];
        [ subst; cbn in Hl; discriminate Hl | ]
    | In _ (?d ++ _) =>
        apply in_app_or in Hin; destruct Hin as [Hin | Hin];
        [ exfalso;
          match goal with
          | HF : Forall _ d |- _ =>
              rewrite Forall_forall in HF; rewrite (HF _ Hin) in Hl;
              discriminate Hl
          end
        | ]
    | In _ [] => destruct Hin
    | In _ ?d =>
        match goal with
        | HF : Forall (fun x => late x = false) d |- _ =>
            exfalso; rewrite Forall_forall in HF; rewrite (HF _ Hin) in Hl;
            discriminate Hl
        end
    end.

Lemma found_split (x : event) l l' : l = l' -> x :: l = [] ++ x :: l'.
Proof. intros ->. reflexivity. Qed.

Ltac split_stages :=
  repeat first [ apply found_split | apply cons_split | apply app_split ];
  reflexivity.

Lemma Handler_inStages pkg w fuel cmd profile ui clients :
  inStages (push.Handler pkg w fuel cmd profile ui clients).
Proof.
  unfold push.Handler. stages_to_draft.
  all: intros h0 f d E ev Hin Hl.
  all: exec at_deployed E.
  all: try match goal with
           | H : run (push.deployDraftAndWait _ _ _ _ _) _ = (Some ?r0, _)
             |- _ => is_var r0; destruct r0 as [? | ]
           end.
  all: staged_facts.
  all: try (tidy E;
            lazymatch type of E with
            | return_ _ _ = _ => exec never E
            | _ ?h' = _ =>
                lazymatch goal with
                | _ : Forall _ ?x
                  |- context [EvCreateDraft ?g ?a (_, None)] =>
                    emits_of (target g a) E; clear E
                end
            end).
  all: repeat (progress (rewrite <- ?app_assoc in Hin |- *;
                         cbn [app] in Hin |- *)).
  all: late_inv Hin Hl.
  all: do 10 eexists; (split; [split_stages | ]);
    (split; [exact Hin | ]);
    match goal with
    | HE : Forall (target _ _) _ |- _ =>
        rewrite Forall_forall in HE; exact (HE _ Hin)
    end.
Qed.

(** X12.  What follows the deployment in a push (looking for, archiving and
    importing the dependencies, removing the archive, uploading the hosting
    files, resetting the cache, reporting success) only happens after a
    draft was created, the app imported into it, that draft submitted and
    its deployment complete, in this order and for one and the same app. *)
Theorem late_stages_follow_the_deployment
  pkg w fuel cmd profile ui clients h r tr ev :
  run (push.Handler pkg w fuel cmd profile ui clients) h = (r, tr) ->
  In ev tr ->
  late ev = true ->
  exists g a draft data dep p1 p2 p3 p4 p5,
    tr = p1 ++ EvCreateDraft g a (draft, None)
            :: p2 ++ EvImport g a data None
            :: p3 ++ EvDeployDraft g a (Draft_ID draft) (dep, None)
            :: p4 ++ deploymentComplete :: p5 /\
    In ev p5 /\
    target g a ev.
Proof.
  intros Hrun Hin Hl. run_exec Hrun.
  assert (Htr : tr = d) by (destruct f; injection Hrun as _ <-; reflexivity).
  subst tr.
  exact (@Handler_inStages pkg w fuel cmd profile ui clients _ _ _ E
           ev Hin Hl).
Qed.

(** ** The archive of the dependencies is removed *)

Lemma tidy_cleaned d : Forall (fun x => isArchive x = false) d -> cleaned d.
Proof.
  intros Hq. rewrite Forall_forall in Hq.
  split; [intros deps path Hin | intros path Hin];
    specialize (Hq _ Hin); discriminate.
Qed.

Lemma cleaned_app d1 d2 :
  Forall (fun x => isArchive x = false) d1 -> cleaned d2 ->
  cleaned (d1 ++ d2).
Proof.
  intros Hq [Hmade Hgone].
  assert (Hq' : forall x, In x d1 -> isArchive x = false)
    by (apply Forall_forall; assumption).
  split.
  - intros deps path Hin. apply in_app_or in Hin.
    destruct Hin as [Hin | Hin]; [specialize (Hq' _ Hin); discriminate | ].
    destruct (Hmade _ _ Hin) as (pre & -> & Hpre).
    exists (d1 ++ pre). split; [apply app_assoc | ].
    apply Forall_app. split; [ | assumption].
    eapply Forall_impl; [ | exact Hq].
    intros e He. destruct e; simpl in He |- *; congruence.
  - intros path Hin. apply in_app_or in Hin.
    destruct Hin as [Hin | Hin]; [specialize (Hq' _ Hin); discriminate | ].
    destruct (Hgone _ Hin) as (deps & Hd). exists deps.
    apply in_or_app. right. assumption.
Qed.

Lemma cleansUp_emits R A (m : Stmt R A) :
  emits (fun x => isArchive x = false) m -> cleansUp m.
Proof. intros Hm h f d H. apply tidy_cleaned. exact (Hm _ _ _ H). Qed.

Lemma cleansUp_bind R A B (m : Stmt R A) (k : A -> Stmt R B) :
  emits (fun x => isArchive x = false) m -> (forall a, cleansUp (k a)) ->
  cleansUp (bind m k).
Proof.
  intros Hm Hk h f d H. apply seq_inv in H.
  destruct H as (f1 & d1 & H1 & H). specialize (Hm _ _ _ H1).
  destruct f1 as [a | r | ].
  - destruct H as (d2 & H2 & ->). apply cleaned_app; [assumption | ].
    exact (Hk _ _ _ _ H2).
  - destruct H as [_ ->]. apply tidy_cleaned. assumption.
  - destruct H as [_ ->]. apply tidy_cleaned. assumption.
Qed.

Lemma defer_Remove_inv R A path (rest : Stmt R A) h f d :
  defer (Remove path) rest h = (f, d) ->
  exists d0, rest h = (f, d0) /\
             (f = Spin \/ d = d0 ++ [EvRemove path]).
Proof.
  unfold defer. destruct (rest h) as [f0 d0]. intros H.
  destruct f0; injection H as <- <-; eexists; split; eauto.
Qed.

Ltac tidy_sub :=
  eapply emits_impl;
  [ | first [ apply createNewDraft_emits
            | apply deployDraftAndWait_emits
            | apply createNewApp_emits ] ];
  let e := fresh "e" in
  let He := fresh "He" in
  intros e He; destruct e; cbn in He |- *;
  first [ contradiction | reflexivity ].

(** Walk down the handler to the making of the archive. *)
Ltac to_archive :=
  repeat
    (cbn [negb isNil andb orb];
     lazymatch goal with
     | |- cleansUp (bind (call (bind (PrepareUpload _ _) _)) _) => fail
     | |- cleansUp (bind _ _) =>
         apply cleansUp_bind; [ solve [emits_with tidy_sub] | intros ? ]
     | |- cleansUp (match ?x with _ => _ end) =>
         let y := scrutinee x in
         first
           [ match goal with E : y = _ |- _ => rewrite E end
           | destruct y eqn:? ]
     | |- cleansUp _ => solve [apply cleansUp_emits; emits_with tidy_sub]
     end).

Ltac at_defer H :=
  lazymatch type of H with
  | defer _ _ _ = _ => idtac
  end.

(** [Forall P l] for a trace that holds the warnings of the upload. *)
Ltac forall_prints :=
  repeat
    first
      [ apply Forall_nil
      | apply Forall_cons; [reflexivity | ]
      | apply Forall_app; split
      | match goal with
        | |- Forall _ (map _ _) =>
            let e := fresh "e" in
            let He := fresh "He" in
            apply Forall_forall; intros e He; apply in_map_iff in He;
            destruct He as (? & <- & _); reflexivity
        end ].

(** [H : In e l] for such a trace. *)
Ltac in_prints H :=
  repeat
    first
      [ contradiction
      | discriminate H
      | match type of H with
        | In _ (_ :: _) => destruct H as [H | H]
        | In _ (_ ++ _) => apply in_app_or in H; destruct H as [H | H]
        | In _ [] => destruct H
        | In _ (map _ _) =>
            apply in_map_iff in H; destruct H as (? & H & _)
        | _ = _ => progress (injection H; clear H; intros; subst)
        end ].

Lemma last_split (x : event) : [x] = [] ++ [x].
Proof. reflexivity. Qed.

Lemma map_split A (f : A -> event) xs l pre rest :
  l = pre ++ rest -> map f xs ++ l = (map f xs ++ pre) ++ rest.
Proof. intros ->. apply app_assoc. Qed.

Ltac split_last :=
  repeat first [ apply last_split | apply cons_split | apply map_split ].

Lemma Handler_cleansUp pkg w fuel cmd profile ui clients :
  cleansUp (push.Handler pkg w fuel cmd profile ui clients).
Proof.
  unfold push.Handler. to_archive.
  all: intros h0 f tr E.
  all: exec at_defer E.
  all: try (apply defer_Remove_inv in E;
            let d0 := fresh "d" in
            let Hd := fresh "Hd" in
            destruct E as (d0 & E & Hd); exec never E;
            (destruct Hd as [Hd | ->]; [discriminate Hd | ])).
  all: repeat (progress (rewrite <- ?app_assoc, ?app_nil_r; cbn [app])).
  all: (split;
        [ intros deps path Hin; in_prints Hin;
          eexists; (split; [split_last | forall_prints])
        | intros path Hin; in_prints Hin; eexists; left; reflexivity ]).
Qed.

(** X13.  The archive of the dependencies does not outlive the push: when
    PrepareUpload has made it, its removal is the last event of the run,
    whatever fails after it, and nothing else is ever removed. *)
Theorem the_archive_is_removed pkg w fuel cmd profile ui clients h r tr :
  run (push.Handler pkg w fuel cmd profile ui clients) h = (r, tr) ->
  (forall deps path,
      In (EvPrepareUpload deps (path, None)) tr ->
      exists pre,
        tr = pre ++ [EvRemove path] /\
        Forall (fun e => isRemove e = false) pre) /\
  (forall path,
      In (EvRemove path) tr ->
      exists deps, In (EvPrepareUpload deps (path, None)) tr).
Proof.
  intros Hrun. run_exec Hrun.
  assert (Htr : tr = d) by (destruct f; injection Hrun as _ <-; reflexivity).
  subst tr.
  exact (@Handler_cleansUp pkg w fuel cmd profile ui clients _ _ _ E).
Qed.

(** ** One push, one app *)

Lemma aboutResolved_about g a ev : aboutResolved g a ev -> about g a ev.
Proof. destruct ev; simpl; tauto. Qed.

Lemma aboutResolved_resolve g a ev t : aboutResolved g a ev -> resolve t ev = t.
Proof. destruct ev; simpl; tauto. Qed.

Lemma aboutGroup_about g a ev : aboutGroup g ev -> about g a ev.
Proof. destruct ev; simpl; tauto. Qed.

Lemma fold_resolved g a d t :
  Forall (aboutResolved g a) d -> fold_left resolve d t = t.
Proof.
  induction 1 as [ | ev d Hev _ IH]; [reflexivity | ].
  simpl. rewrite (@aboutResolved_resolve g a ev t Hev). exact IH.
Qed.

Lemma createNewDraft_about pkg ui c to :
  emits (aboutResolved (GroupID to) (AppID to))
        (push.createNewDraft pkg ui c to).
Proof. unfold push.createNewDraft. emits_with idtac. Qed.

Lemma waitForDeployment_about fuel ui c to draftID :
  forall deployment,
    emits (aboutResolved (GroupID to) (AppID to))
          (push.waitForDeployment fuel ui c to draftID deployment).
Proof.
  induction fuel as [ | fuel IH]; intros deployment;
    cbn [push.waitForDeployment].
  - emits_with idtac.
  - destruct (push.inFlight (Status deployment)); [ | apply emits_return].
    apply emits_bind; [unfold Deployment; emits_with idtac | ].
    intros [dep err]. destruct err; cbn [negb isNil]; [emits_with idtac | ].
    apply IH.
Qed.

Lemma deployDraftAndWait_about fuel ui c to draftID :
  emits (aboutResolved (GroupID to) (AppID to))
        (push.deployDraftAndWait fuel ui c to draftID).
Proof.
  unfold push.deployDraftAndWait.
  emits_with idtac. apply waitForDeployment_about.
Qed.

Lemma createNewApp_aboutGroup pkg w ui c appDirectory groupID appData :
  emits (aboutGroup groupID)
        (push.createNewApp pkg w ui c appDirectory groupID appData).
Proof. unfold push.createNewApp. emits_with idtac. Qed.

(** What createNewApp does to the target. *)
Lemma createNewApp_resolves
  pkg w ui c appDirectory groupID appData h newApp proceed err d t :
  run (push.createNewApp pkg w ui c appDirectory groupID appData) h
  = (Some (newApp, proceed, err), d) ->
  GroupID (fold_left resolve d t) = GroupID t /\
  (proceed = true -> AppID (fold_left resolve d t) = App_ID newApp).
Proof.
  intros H. run_exec H. unfold push.createNewApp in E.
  exec never E; cbv beta iota in H; rewrite ?app_nil_r in H;
    cbn [app] in H; try discriminate H; injection H as <- <- <- <-.
  all: split; [reflexivity | intros Hp; first [discriminate Hp | reflexivity]].
Qed.

Ltac at_determining H :=
  lazymatch type of H with
  | bind (Print _ [NewTextLog "Determining changes" _]) _ _ = _ => idtac
  end.

Ltac about_sub :=
  first [ apply createNewDraft_about | apply deployDraftAndWait_about ].

(** What the run of createNewApp did to the target. *)
Ltac app_facts :=
  repeat
    match goal with
    | H : run (push.createNewApp _ _ _ _ _ _ _) _ = (None, _) |- _ =>
        exfalso; eapply createNewApp_returns; exact H
    | H : run (push.createNewApp ?p ?w ?u ?c ?x ?g ?y) _
          = (Some (?a, ?ok, _), ?d) |- _ =>
        let HG := fresh "HG" in
        let HR := fresh "HR" in
        assert (HG : Forall (aboutGroup g) d)
          by (eapply emits_run; [apply createNewApp_aboutGroup | exact H]);
        assert (HR : forall t,
                   GroupID (fold_left resolve d t) = GroupID t /\
                   (ok = true -> AppID (fold_left resolve d t) = App_ID a))
          by (intros ?; eapply createNewApp_resolves; exact H);
        clear H
    end.

(** X15.  A push is about one app.  The target is what [resolveTo] gives,
    with the group of [ResolveGroupID] when it names none and with the id of
    the app the push creates when it names none: a group and an app that
    [resolveTo] names are kept.  Every call of the run that names a group or
    an app names those of that target. *)
Theorem a_push_is_about_one_app pkg w fuel cmd profile ui clients h r tr :
  run (push.Handler pkg w fuel cmd profile ui clients) h = (r, tr) ->
  Forall (about (GroupID (resolved tr)) (AppID (resolved tr))) tr /\
  (forall i t,
      In (EvResolveTo i (t, None)) tr ->
      (GroupID t <> EmptyString -> GroupID (resolved tr) = GroupID t) /\
      (AppID t <> EmptyString -> AppID (resolved tr) = AppID t)).
Proof.
  intros Hrun. run_exec Hrun. unfold push.Handler in E.
  exec at_determining E.
  all: app_facts.
  all: try (lazymatch type of Hrun with (_, _) = _ => idtac end; leaf Hrun).
  all: try (match type of E with
            | ?m _ = (_, _) =>
                match m with
                | context [Diff _ ?g ?a _] =>
                    let HE := fresh "HE" in
                    assert (HE : emits (aboutResolved g a) m)
                      by (emits_with about_sub);
                    specialize (HE _ _ _ E)
                end
            end; paused Hrun E).
  all: unfold resolved.
  all: repeat (progress (rewrite ?fold_left_app; cbn [fold_left resolve])).
  all: try match goal with
           | HE : Forall (aboutResolved _ _) ?d |- _ =>
               rewrite (fold_resolved _ HE)
           end.
  all: repeat match goal with
              | HR : forall t : to, _
                |- context [GroupID (fold_left resolve ?d ?t)] =>
                  rewrite (proj1 (HR t))
              | HR : forall t : to, _
                |- context [AppID (fold_left resolve ?d ?t)] =>
                  rewrite (proj2 (HR t) eq_refl)
              end.
  all: cbn [GroupID AppID].
  all: (split;
        [ | intros ? ? Hin; in_inv Hin;
            (split; intros Hne;
             first
               [ reflexivity
               | exfalso; apply Hne; apply String.eqb_eq; assumption ]) ]).
  all: repeat
         first
           [ apply Forall_nil
           | apply Forall_cons; [exact I | ]
           | apply Forall_app; split
           | match goal with
             | HG : Forall (aboutGroup _) ?d |- Forall _ ?d =>
                 refine (Forall_impl _ _ HG);
                 let ev := fresh "ev" in
                 let He := fresh "He" in
                 intros ev He; apply aboutGroup_about; exact He
             | HE : Forall (aboutResolved _ _) ?d |- Forall _ ?d =>
                 refine (Forall_impl _ _ HE);
                 let ev := fresh "ev" in
                 let He := fresh "He" in
                 intros ev He; apply aboutResolved_about; exact He
             end ].
Qed.

(** ** The theorems at work *)

Lemma createNewApp_outcome_witness :
  exists newApp proceed err,
    fst runs.createNamed = Some (newApp, proceed, err) /\
    (proceed = true ->
     err = None /\
     exists pre name meta,
       snd runs.createNamed
       = pre ++ [EvCreateApp "group" name meta (newApp, None);
                 EvWriteConfig "." newApp None] /\
       Forall (fun e => isCreateApp e = false) pre /\
       Forall (fun e => failure e = None) pre) /\
    (proceed = false -> newApp = push.zeroApp) /\
    (forall e, err = Some e ->
               proceed = false /\
               exists ev, endsWith (snd runs.createNamed) ev /\
                          failure ev = Some e) /\
    (proceed = false -> err = None ->
     snd runs.createNamed = [EvConfirm createPrompt (false, None)]).
Proof.
  apply (@createNewApp_outcome mock.pkg runs.unnamedWorld runs.autoUI
           (Realm runs.oneChange) "." "group" (Some runs.namedData) []
           (fst runs.createNamed) (snd runs.createNamed)).
  reflexivity.
Defined.

Lemma createNewApp_asks_for_everything_witness :
  exists name location deploymentModel,
    snd samples.createAsking
    = [EvConfirm createPrompt (true, None);
       EvAskOne (Input "App Name" "eggcorn") (name, None);
       EvAskOne (Select "App Location" ["US-VA"; "IE"] "US-VA")
                (location, None);
       EvAskOne (Select "App Deployment Model" ["GLOBAL"; "LOCAL"] "GLOBAL")
                (deploymentModel, None);
       EvCreateApp "group" name (mkAppMeta location deploymentModel)
                   (mkApp "new-app" "group" "typed-name" "typed-name", None);
       EvWriteConfig "."
         (mkApp "new-app" "group" "typed-name" "typed-name") None].
Proof.
  apply (@createNewApp_asks_for_everything mock.pkg runs.unnamedWorld
           runs.askingUI (Realm runs.oneChange) "." "group"
           (Some runs.namedData) []
           (mkApp "new-app" "group" "typed-name" "typed-name")
           (snd samples.createAsking));
    reflexivity.
Defined.

Lemma diffDraft_outcome_witness :
  exists diff diffErr,
    match diffErr with
    | Some e =>
        fst samples.showDraft = Some (Some e) /\
        snd samples.showDraft
        = [EvDiffDraft "group" "app" "existing" (diff, Some e)]
    | None =>
        fst samples.showDraft = Some None /\
        snd samples.showDraft
        = [EvDiffDraft "group" "app" "existing" (diff, None);
           EvPrint (draftLogs diff)] /\
        1 <= length (draftLogs diff) <= 5 /\
        (HasChanges diff = false -> draftLogs diff = [emptyDraftLog]) /\
        (HasChanges diff = true ->
         length (draftLogs diff) = 1 + changedParts diff /\
         hd emptyDraftLog (draftLogs diff)
         = NewListLog "The following draft already exists for your app..."
                      (DiffList diff))
    end.
Proof.
  apply (@diffDraft_outcome runs.askingUI (Realm runs.oneChange) mock.to0
           "existing" [] (fst samples.showDraft) (snd samples.showDraft)).
  reflexivity.
Defined.

Lemma existing_draft_is_shown_before_it_is_discarded_witness :
  (exists d e existing diff post,
      snd samples.draftDiscarded
      = EvCreateDraft "group" "app" (d, Some e)
        :: EvDraft "group" "app" (existing, None)
        :: EvDiffDraft "group" "app" (Draft_ID existing) (diff, None)
        :: EvPrint (draftLogs diff)
        :: EvConfirm discardPrompt (true, None)
        :: EvDiscardDraft "group" "app" (Draft_ID existing) None
        :: post) /\
  (endsWith (snd samples.draftKeptByUser)
            (EvConfirm discardPrompt (false, None)) /\
   fst samples.draftKeptByUser = Some (push.zeroAppDraft, false, None) /\
   count isDiscardDraft (snd samples.draftKeptByUser) = 0 /\
   count isCreateDraft (snd samples.draftKeptByUser) = 1) /\
  Forall unattended (snd runs.conflictRecovered).
Proof.
  split; [ | split].
  - apply (proj1 (proj1 (@existing_draft_is_shown_before_it_is_discarded
                           mock.pkg runs.askingUI runs.conflictClient
                           mock.to0 [] (fst samples.draftDiscarded)
                           (snd samples.draftDiscarded) eq_refl)
                        eq_refl)
             "group" "app" "existing" None).
    vm_compute. auto 10.
  - apply (proj2 (proj1 (@existing_draft_is_shown_before_it_is_discarded
                           mock.pkg runs.decliningUI runs.conflictClient
                           mock.to0 [] (fst samples.draftKeptByUser)
                           (snd samples.draftKeptByUser) eq_refl)
                        eq_refl)
             (false, None)).
    + vm_compute. auto 10.
    + discriminate.
  - apply (proj2 (@existing_draft_is_shown_before_it_is_discarded
                    mock.pkg (mock.UI true true "app") runs.conflictClient
                    mock.to0 [] (fst runs.conflictRecovered)
                    (snd runs.conflictRecovered) eq_refl)).
    reflexivity.
Defined.


Lemma app_diff_outcome_witness :
  fst samples.diffOneChange <> None /\
  (fst samples.diffOneChange = Some None ->
   endsWith (snd samples.diffOneChange)
     (EvPrint
        [if (length (gathered mock.pkg samples.plainDiff
                       (snd samples.diffOneChange)) =? 0)%nat
         then identicalLog
         else diffLog (gathered mock.pkg samples.plainDiff
                         (snd samples.diffOneChange))]) /\
   count isPrint (snd samples.diffOneChange) = 1 /\
   Forall (fun ev => failure ev = None) (snd samples.diffOneChange)) /\
  (forall e,
      fst samples.diffOneChange = Some (Some e) ->
      (exists ev, endsWith (snd samples.diffOneChange) ev /\
                  failure ev = Some e) /\
      count isPrint (snd samples.diffOneChange) = 0).
Proof.
  apply (@app_diff_outcome mock.pkg runs.existingWorld samples.plainDiff
           runs.profile runs.askingUI runs.oneChange []
           (fst samples.diffOneChange) (snd samples.diffOneChange)).
  reflexivity.
Defined.

Lemma app_diff_defaults_to_the_working_directory_witness :
  fst (appInputs.Resolve samples.noDirectory samples.home runs.askingUI)
  = mkDiffInputs "/home/me/app" false true (mkProjectInputs "project" "app")
  /\
  exists res rest,
    snd (run (app.Handler mock.pkg runs.existingWorld
                (app.mkCommandDiff
                   (mkDiffInputs "/home/me/app" false true
                      (mkProjectInputs "project" "app")))
                samples.home runs.askingUI runs.oneChange) [])
    = EvLoadApp "/home/me/app" res :: rest.
Proof.
  split; [reflexivity | ].
  apply (@app_diff_defaults_to_the_working_directory mock.pkg
           runs.existingWorld samples.noDirectory samples.home runs.askingUI
           runs.oneChange [] _ None eq_refl).
Defined.

Lemma secrets_are_asked_for_when_missing_witness :
  snd (secrets.Resolve samples.typing samples.nameOnly)
  = [[secrets.mkQuestion "value" (secrets.Password "Secret Value")]] /\
  fst (secrets.Resolve samples.typing samples.nameOnly)
  = samples.typing samples.nameOnly
      [secrets.mkQuestion "value" (secrets.Password "Secret Value")].
Proof.
  apply (@secrets_are_asked_for_when_missing samples.typing samples.nameOnly
           _ _ _ eq_refl).
Defined.

Lemma push_returns_the_first_failure_witness :
  fst runs.pushRefused = Some (Some runs.refused) /\
  exists pre post,
    snd runs.pushRefused
    = pre ++ EvImport "group" "app" (Some runs.namedData) (Some runs.refused)
          :: post /\
    Forall (fun x => fatal x = None) pre /\
    Forall aftermath post.
Proof.
  apply (proj1 (@push_returns_the_first_failure mock.pkg runs.existingWorld 5
                  runs.plainPush runs.profile runs.askingUI runs.importFails
                  [] (fst runs.pushRefused) (snd runs.pushRefused) eq_refl)).
  - vm_compute. auto 20.
  - reflexivity.
Defined.

Lemma a_declined_question_ends_the_push_witness :
  fst runs.pushDeclined = Some None /\
  exists pre,
    snd runs.pushDeclined = pre ++ [EvConfirm confirmPrompt (false, None)] /\
    Forall (fun e => declined e = None) pre.
Proof.
  apply (@a_declined_question_ends_the_push mock.pkg runs.existingWorld 5
           runs.plainPush runs.profile runs.decliningUI runs.oneChange []
           (fst runs.pushDeclined) (snd runs.pushDeclined) confirmPrompt).
  - reflexivity.
  - vm_compute. auto 20.
Defined.

Lemma push_stages_are_opt_in_witness :
  Forall (fun ev => hostingCall ev = false) (snd runs.pushConfirmed) /\
  Forall (fun ev => dependencyCall ev = false) (snd runs.pushConfirmed) /\
  Forall (fun ev => isCacheInvalidate ev = false) (snd runs.pushConfirmed) /\
  Forall wholeCache (snd runs.pushConfirmed).
Proof.
  destruct (@push_stages_are_opt_in mock.pkg runs.existingWorld 5
              runs.plainPush runs.profile runs.askingUI runs.oneChange []
              (fst runs.pushConfirmed) (snd runs.pushConfirmed) eq_refl)
    as (Hh & Hd & Hc & Hw).
  repeat split; [apply Hh | apply Hd | apply Hc | exact Hw]; reflexivity.
Defined.

Lemma late_stages_follow_the_deployment_witness :
  exists g a draft data dep p1 p2 p3 p4 p5,
    snd runs.pushDependencies
    = p1 ++ EvCreateDraft g a (draft, None)
         :: p2 ++ EvImport g a data None
         :: p3 ++ EvDeployDraft g a (Draft_ID draft) (dep, None)
         :: p4 ++ deploymentComplete :: p5 /\
    In (EvImportDependencies "group" "app" "node_modules.zip" None) p5 /\
    target g a (EvImportDependencies "group" "app" "node_modules.zip" None).
Proof.
  apply (@late_stages_follow_the_deployment mock.pkg runs.existingWorld 5
           runs.dependencyPush runs.profile runs.askingUI runs.oneChange []
           (fst runs.pushDependencies) (snd runs.pushDependencies)).
  - reflexivity.
  - vm_compute. auto 30.
  - reflexivity.
Defined.

Lemma the_archive_is_removed_witness :
  exists pre,
    snd runs.pushDependencies = pre ++ [EvRemove "node_modules.zip"] /\
    Forall (fun e => isRemove e = false) pre.
Proof.
  apply (proj1 (@the_archive_is_removed mock.pkg runs.existingWorld 5
                  runs.dependencyPush runs.profile runs.askingUI
                  runs.oneChange [] (fst runs.pushDependencies)
                  (snd runs.pushDependencies) eq_refl)
           (mkDependencies ".")).
  vm_compute. auto 30.
Defined.

Lemma dry_run_suggests_the_push_witness :
  endsWith (snd runs.pushDry) nothingToDo \/
  exists text,
    endsWith (snd runs.pushDry)
      (EvPrint [NewTextLog text [];
                NewFollowupLog (MsgSuggestedCommands mock.pkg)
                               ["realm-cli push"]]).
Proof.
  apply (@dry_run_suggests_the_push mock.pkg runs.existingWorld 5
           runs.dryPush runs.profile runs.askingUI runs.oneChange []);
    reflexivity.
Defined.

Lemma a_push_is_about_one_app_witness :
  Forall (about "group" "new-app") (snd runs.pushUnnamed) /\
  resolved (snd runs.pushUnnamed) = mkTo "group" "new-app".
Proof.
  split; [ | reflexivity].
  apply (proj1 (@a_push_is_about_one_app mock.pkg runs.unnamedWorld 5
                  runs.plainPush runs.profile runs.autoUI runs.oneChange []
                  (fst runs.pushUnnamed) (snd runs.pushUnnamed) eq_refl)).
Defined.

(** ** The handler returns, unless it polls for ever *)

Lemma returns_next R A (a : A) : returns (@next R A a).
Proof. intros h. discriminate. Qed.

Lemma returns_return R A (r : R) : returns (@return_ R A r).
Proof. intros h. discriminate. Qed.

Lemma returns_perform R T (answer : history -> T) ev :
  returns (@perform R T answer ev).
Proof. intros h. discriminate. Qed.

Lemma returns_Print R ui logs : returns (@Print R ui logs).
Proof. intros h. discriminate. Qed.

Lemma returns_Remove R path : returns (@Remove R path).
Proof. intros h. discriminate. Qed.

Lemma returns_bind R A B (m : Stmt R A) (k : A -> Stmt R B) :
  returns m -> (forall a, returns (k a)) -> returns (bind m k).
Proof.
  intros Hm Hk h. specialize (Hm h).
  unfold bind; cbn [Monad_Stmt]. unfold seq.
  destruct (m h) as [[a | r | ] d1]; cbn in Hm |- *.
  - specialize (Hk a (h ++ d1)). destruct (k a (h ++ d1)) as [f d2].
    exact Hk.
  - discriminate.
  - congruence.
Qed.

Lemma returns_call R R' (body : Stmt R R) :
  returns body -> returns (@call R R' body).
Proof.
  intros Hb h. specialize (Hb h). unfold call.
  destruct (body h) as [[r | r | ] d]; cbn in Hb |- *;
    first [discriminate | congruence].
Qed.

Lemma returns_defer R A (cleanup : Stmt R unit) (rest : Stmt R A) :
  returns rest -> returns (defer cleanup rest).
Proof.
  intros Hr h. specialize (Hr h). unfold defer.
  destruct (rest h) as [[a | r | ] d]; cbn in Hr |- *;
    first [discriminate | congruence].
Qed.

Lemma returns_forEach R A (xs : list A) (body : A -> Stmt R unit) :
  (forall x, returns (body x)) -> returns (forEach xs body).
Proof.
  intros Hb. induction xs as [ | x xs IH]; simpl.
  - apply returns_next.
  - apply returns_bind; [apply Hb | intros _; exact IH].
Qed.

Lemma run_returns R (body : Stmt R R) :
  (forall h d, run body h = (None, d) -> False) -> returns body.
Proof.
  intros H h Hs. unfold run in H. specialize (H h).
  destruct (body h) as [[r | r | ] d]; cbn in Hs; try discriminate.
  exact (H d eq_refl).
Qed.

(** Syntax-directed proof of [returns m]. *)
Ltac returning :=
  repeat
    (cbn [negb isNil andb orb];
     lazymatch goal with
     | |- returns (bind _ _) => apply returns_bind; [ | intros ? ]
     | |- returns (match ?x with _ => _ end) =>
         let y := scrutinee x in
         first
           [ match goal with E : y = _ |- _ => rewrite E end
           | destruct y eqn:? ]
     | |- returns (perform _ _) => apply returns_perform
     | |- returns (next _) => apply returns_next
     | |- returns (ret _) => apply returns_next
     | |- returns (return_ _) => apply returns_return
     | |- returns skip => apply returns_next
     | |- returns (Print _ _) => apply returns_Print
     | |- returns (Remove _) => apply returns_Remove
     | |- returns (defer _ _) => apply returns_defer
     | |- returns (forEach _ _) => apply returns_forEach; intros ?
     | |- returns (call (push.createNewApp _ _ _ _ _ _ _)) =>
         apply returns_call; apply run_returns;
         intros ? ?; apply createNewApp_returns
     | |- returns (call (push.createNewDraft _ _ _ _)) =>
         apply returns_call; apply run_returns;
         intros ? ?; apply createNewDraft_returns
     | |- returns (call (push.deployDraftAndWait _ _ _ _ _)) => fail
     | |- returns (call (push.diffDraft _ _ _ _)) =>
         apply returns_call; unfold push.diffDraft
     | |- returns (call _) => apply returns_call
     | |- returns _ =>
         progress unfold CreateApp, Diff, HostingAssets, CreateDraft, Draft,
           DiscardDraft, DiffDraft, Import, ImportDependencies, DeployDraft,
           Deployment, HostingCacheInvalidate, Confirm, AskOne, LoadApp,
           resolveTo, ResolveGroupID, ResolveApp, FindAppHosting, Diffs,
           FindAppDependencies, PrepareUpload, WriteConfig,
           UploadHostingAssets
     end).

Lemma count_noDeployment d :
  Forall noDeployment d -> count isRefetch d = 0 /\ observed d = [].
Proof.
  induction 1 as [ | ev d Hev _ [IHc IHo]]; [split; reflexivity | ].
  unfold count in *. destruct ev; simpl in Hev |- *;
    first [contradiction | split; assumption].
Qed.

Lemma pollsOnly_returns fuel R A (m : Stmt R A) :
  returns m -> pollsOnly fuel m.
Proof.
  intros Hm h f d H Hs. specialize (Hm h). rewrite H in Hm.
  destruct (Hm Hs).
Qed.

Lemma pollsOnly_bind fuel R A B (m : Stmt R A) (k : A -> Stmt R B) :
  returns m -> emits noDeployment m -> (forall a, pollsOnly fuel (k a)) ->
  pollsOnly fuel (bind m k).
Proof.
  intros Hr Hm Hk h f d H. apply seq_inv in H.
  destruct H as (f1 & d1 & H1 & H). specialize (Hm _ _ _ H1).
  specialize (Hr h). rewrite H1 in Hr. cbn in Hr.
  destruct f1 as [a | r | ].
  - destruct H as (d2 & H2 & ->). intros Hs.
    destruct (Hk _ _ _ _ H2 Hs) as [Hc Ho].
    destruct (count_noDeployment Hm) as [Hc1 Ho1].
    rewrite count_app, Hc1, observed_app, Ho1. auto.
  - destruct H as [-> ->]. discriminate.
  - destruct (Hr eq_refl).
Qed.

Lemma waitForDeployment_polls fuel ui c to draftID :
  forall deployment h d,
    push.waitForDeployment fuel ui c to draftID deployment h = (Spin, d) ->
    push.inFlight (Status deployment) = true /\
    count isRefetch d = fuel /\
    Forall (fun s => push.inFlight s = true) (observed d).
Proof.
  induction fuel as [ | fuel IH]; intros deployment h d H;
    cbn [push.waitForDeployment] in H.
  - destruct (push.inFlight (Status deployment));
      [ | discriminate H].
    injection H as <-. repeat split. constructor.
  - destruct (push.inFlight (Status deployment)) eqn:Hin;
      [ | discriminate H].
    apply seq_inv in H. destruct H as (f1 & d1 & H1 & H).
    unfold Deployment, perform in H1. injection H1 as <- <-.
    destruct H as (d2 & H2 & ->).
    destruct (DeploymentFn c h (GroupID to) (AppID to)
                (Deployment_ID deployment)) as [dep' [e | ]];
      cbn [negb isNil] in H2.
    + exfalso.
      remember (@Spin (option error) (option error)) as f eqn:Hf in H2.
      exec never H2; discriminate Hf.
    + destruct (IH _ _ _ H2) as (Hin' & Hc & Ho).
      split; [reflexivity | ]. unfold count in *. simpl.
      split; [congruence | constructor; assumption].
Qed.

Lemma pollsOnly_deploy fuel R A ui c to draftID
    (k : option error -> Stmt R A) :
  (forall r, returns (k r)) ->
  pollsOnly fuel
    (bind (call (push.deployDraftAndWait fuel ui c to draftID)) k).
Proof.
  intros Hk h f d H Hs. subst f. apply seq_inv in H.
  destruct H as (f1 & d1 & H1 & H). apply call_inv in H1.
  destruct H1 as (f0 & H0 & Hf1).
  destruct f0 as [r | r | ]; subst f1.
  1-2: destruct H as (d2 & H2 & _); specialize (Hk r (h ++ d1));
       rewrite H2 in Hk; destruct (Hk eq_refl).
  destruct H as [_ ->]. unfold push.deployDraftAndWait in H0.
  apply seq_inv in H0. destruct H0 as (f2 & d2 & H2 & H0).
  unfold DeployDraft, perform in H2. injection H2 as <- <-.
  destruct H0 as (d3 & H3 & ->).
  destruct (DeployDraftFn c h (GroupID to) (AppID to) draftID)
    as [dep0 [e | ]]; cbn [negb isNil] in H3; [discriminate H3 | ].
  apply seq_inv in H3. destruct H3 as (f4 & d4 & H4 & H3).
  apply call_inv in H4. destruct H4 as (f5 & H5 & Hf4).
  destruct f5 as [r | r | ]; subst f4.
  1-2: destruct H3 as (d5 & H6 & _); exfalso;
       remember (@Spin (option error) (option error)) as f eqn:Hf in H6;
       exec never H6; discriminate Hf.
  destruct H3 as [_ ->].
  destruct (waitForDeployment_polls _ _ _ _ _ _ _ H5) as (Hin & Hc & Ho).
  unfold count in *. simpl. split; [exact Hc | constructor; assumption].
Qed.

Ltac polls_sub :=
  eapply emits_impl;
  [ | first [ apply createNewDraft_emits | apply createNewApp_emits ] ];
  let e := fresh "e" in
  let He := fresh "He" in
  intros e He; destruct e; cbn in He |- *;
  first [ contradiction | exact I ].

Ltac polls_only :=
  repeat
    (cbn [negb isNil andb orb];
     lazymatch goal with
     | |- pollsOnly _ (bind (call (push.deployDraftAndWait _ _ _ _ _)) _) =>
         apply pollsOnly_deploy; intros ?; solve [returning]
     | |- pollsOnly _ (bind _ _) =>
         apply pollsOnly_bind;
         [ solve [returning] | solve [emits_with polls_sub] | intros ? ]
     | |- pollsOnly _ (match ?x with _ => _ end) =>
         let y := scrutinee x in
         first
           [ match goal with E : y = _ |- _ => rewrite E end
           | destruct y eqn:? ]
     | |- pollsOnly _ _ => solve [apply pollsOnly_returns; returning]
     end).

Lemma Handler_pollsOnly pkg w fuel cmd profile ui clients :
  pollsOnly fuel (push.Handler pkg w fuel cmd profile ui clients).
Proof. unfold push.Handler. polls_only. Qed.

(** X16.  The poll of the deployment is the only loop of a push: the
    handler returns, unless the deployment is still in flight after it has
    been looked at as often as the poll budget allows. *)
Theorem push_returns_unless_it_polls pkg w fuel cmd profile ui clients h tr :
  run (push.Handler pkg w fuel cmd profile ui clients) h = (None, tr) ->
  count isRefetch tr = fuel /\
  Forall (fun s => push.inFlight s = true) (observed tr).
Proof.
  intros Hrun. run_exec Hrun.
  pose proof (@Handler_pollsOnly pkg w fuel cmd profile ui clients _ _ _ E)
    as Hp.
  destruct f; try discriminate Hrun. injection Hrun as <-.
  exact (Hp eq_refl).
Qed.

Lemma push_returns_unless_it_polls_witness :
  fst samples.pushStuck = None /\
  count isRefetch (snd samples.pushStuck) = 3 /\
  Forall (fun s => push.inFlight s = true) (observed (snd samples.pushStuck)).
Proof.
  split; [reflexivity | ].
  apply (@push_returns_unless_it_polls mock.pkg runs.existingWorld 3
           runs.plainPush runs.profile runs.askingUI samples.stuckClient []
           (snd samples.pushStuck)).
  reflexivity.
Defined.
